(** * HALFpipe: file collection heuristics, the metadata wizard steps and
      the terminal widgets, embedded from the Python sources.

    Part I holds the embedding (data model and operations, one section per
    source file); Part II holds the properties proved about it; Part III
    runs the functions on small inputs. *)

From stdpp Require Import base tactics option list sorting strings pretty.
From stdpp Require Import gmap fin_maps fin_sets.

#[local] Set Warnings "-clear-no-such-hyp,-register-all".

(** A property of every element of a list that evaluates to a literal:
    one goal per element, evaluated. *)
Ltac each_element :=
  refine (proj1 (Forall_forall _ _) _);
  match goal with
  | |- Forall ?P ?l => let l' := eval vm_compute in l in change (Forall P l')
  end;
  repeat (first [apply Forall_nil_2 | apply Forall_cons_2]); vm_compute.

(* ===================================================================== *)
(** * Part I: the embedding                                                *)
(* ===================================================================== *)

(** ** Python exceptions and calls that may raise *)

Inductive exn : Type :=
  | AssertionError
  | ValueError
  | TypeError
  | IndexError
  | StopIteration
  | KeyError.

#[global] Instance exn_eq_dec : EqDecision exn.
Proof. solve_decision. Defined.

(** The outcome of a call: a value, or an exception that escapes it. *)
Inductive result (A : Type) : Type :=
  | Ok (a : A)
  | Raise (e : exn).
Arguments Ok {A} a.
Arguments Raise {A} e.

Definition res_bind {A B : Type} (c : result A) (k : A → result B) : result B :=
  match c with
  | Ok a => k a
  | Raise e => Raise e
  end.

Declare Scope res_scope.
Delimit Scope res_scope with res.
Notation "'let*' x ':=' c 'in' k" := (res_bind c (λ x, k))
  (at level 10, x name, c at level 100, k at level 200) : res_scope.

(** [for x in l: acc = body(acc, x)], stopping at the first exception. *)
Fixpoint res_fold {A S : Type} (body : S → A → result S) (acc : S) (l : list A)
    : result S :=
  match l with
  | [] => Ok acc
  | x :: l' => (let* acc' := body acc x in res_fold body acc' l')%res
  end.

(** Stateful calls: a store is threaded through, and survives a raise. *)
Definition M (St A : Type) : Type := St → result A * St.

Definition m_ret {St A : Type} (a : A) : M St A := λ s, (Ok a, s).
Definition m_raise {St A : Type} (e : exn) : M St A := λ s, (Raise e, s).
Definition m_bind {St A B : Type} (c : M St A) (k : A → M St B) : M St B :=
  λ s, match c s with
       | (Ok a, s') => k a s'
       | (Raise e, s') => (Raise e, s')
       end.
Definition m_lift {St A : Type} (r : result A) : M St A := λ s, (r, s).
Definition m_modify {St : Type} (f : St → St) : M St () := λ s, (Ok (), f s).

Declare Scope m_scope.
Delimit Scope m_scope with M.
Notation "'let*' x ':=' c 'in' k" := (m_bind c (λ x, k))
  (at level 10, x name, c at level 100, k at level 200) : m_scope.

Fixpoint m_fold {St A S : Type} (body : S → A → M St S) (acc : S) (l : list A)
    : M St S :=
  match l with
  | [] => m_ret acc
  | x :: l' => (let* acc' := body acc x in m_fold body acc' l')%M
  end.

(** [try: body except ValueError: handler]; any other exception escapes. *)
Definition m_try_ValueError {St A : Type} (body handler : M St A) : M St A :=
  λ s, match body s with
       | (Raise ValueError, s') => handler s'
       | r => r
       end.

(** ** The tagged-file database (halfpipe/ingest/database.py) *)

(** Keyword arguments of a query, in the order they are written. *)
Definition kwargs : Type := list (string * option string).

(** The read-only face of [Database]: tag values, associations, queries,
    and what the image header or sidecar of a file holds for a metadata
    key.  The class is not part of the sources at hand; its methods are
    fields here so that every statement holds for every database. *)
Record Database (V : Type) : Type := {
  tagval : string → string → option string;
  associations : string → kwargs → option (list string);
  get : kwargs → list string;
  fromspecfileobj : string → list string;
  sidecar : string → string → option V
}.
Arguments tagval {V} _ _ _.
Arguments associations {V} _ _ _.
Arguments get {V} _ _.
Arguments fromspecfileobj {V} _ _.
Arguments sidecar {V} _ _ _.

(** [sorted(X)] for a set of paths: Python compares [str] by code point,
    which is the byte order of the UTF-8 text. *)
Definition sorted (X : gset string) : list string :=
  merge_sort String.le (elements X).

(** ** halfpipe/ingest/collect.py: collect_events *)

Inductive condition_file : Type :=
  | EventsPath (candidate : string)
  | ConditionPair (candidate condition : string).

Definition condition_file_path (cf : condition_file) : string :=
  match cf with
  | EventsPath c => c
  | ConditionPair c _ => c
  end.

Section collect_events.
Context {V : Type} (database : Database V).

(** One turn of the loop over [sorted(set(candidates))]. *)
Definition collect_events_body (source_file_subject : option string)
    (condition_files : list condition_file) (candidate : string)
    : result (list condition_file) :=
  let subject := tagval database candidate "sub" in
  if bool_decide (subject ≠ None) && bool_decide (subject ≠ source_file_subject)
  then Ok condition_files
  else
    let extension := tagval database candidate "extension" in
    if bool_decide (extension = Some ".txt") then
      match tagval database candidate "condition" with
      | Some condition =>
          Ok (condition_files ++ [ConditionPair candidate condition])
      | None => Raise AssertionError
      end
    else Ok (condition_files ++ [EventsPath candidate]).

Definition collect_events (source_file : string)
    : result (option (list condition_file)) :=
  let candidates :=
    associations database source_file
      [("task", tagval database source_file "task");
       ("datatype", Some "func"); ("suffix", Some "events")] in
  match candidates with
  | None => Ok None
  | Some candidates =>
      if bool_decide (length candidates = 0) then Ok None
      else
        let source_file_subject := tagval database source_file "sub" in
        (let* condition_files :=
           res_fold (collect_events_body source_file_subject) []
             (sorted (list_to_set candidates)) in
         if bool_decide (0 < length condition_files)
         then Ok (Some condition_files)
         else Ok None)%res
  end.

(** A candidate passes the subject check: it declares no subject, or the
    subject of the source file. *)
Definition subject_allowed (source_file candidate : string) : Prop :=
  tagval database candidate "sub" = None ∨
  tagval database candidate "sub" = tagval database source_file "sub".

#[global] Instance subject_allowed_dec src c : Decision (subject_allowed src c).
Proof. unfold subject_allowed. apply _. Defined.

(** The candidates the query hands to the filter. *)
Definition event_candidates (source_file : string) : list string :=
  default []
    (associations database source_file
       [("task", tagval database source_file "task");
        ("datatype", Some "func"); ("suffix", Some "events")]).

(** The entry a surviving candidate is returned as. *)
Definition event_entry_of (cf : condition_file) : Prop :=
  match cf with
  | EventsPath c => tagval database c "extension" ≠ Some ".txt"
  | ConditionPair c k =>
      tagval database c "extension" = Some ".txt" ∧
      tagval database c "condition" = Some k
  end.

End collect_events.

(** ** The metadata cache and the log *)

Inductive criterion : Type :=
  | LongestDuration
  | LastAlphabetically.

(** The lines of the warning written for a group of duplicate runs. *)
Inductive duplicate_line : Type :=
  | FoundIdentical (others : nat) (selected : string)
  | ExcludingFile (bold_file_path : string)
  | DecisionCriterion (c : criterion).

(** Log records keep the data the messages are formatted from. *)
Inductive log_entry : Type :=
  | InfoMissingMagnitude (incomplete : list string)
  | InfoUnmatchedPhaseEncoding (incomplete : list string)
  | WarningDuplicates (message_strs : list duplicate_line).

(** What the calls mutate: the metadata values the database has cached,
    by file and key, and the records written to the logger. *)
Record store (V : Type) : Type := {
  filled : gmap (string * string) V;
  log : list log_entry
}.
Arguments filled {V} _.
Arguments log {V} _.

Section database_state.
Context {V : Type} (database : Database V).

(** Modelled from the spec: [Database.fillmetadata] is missing from the
    sources.  For each file it reads the value of the key from the image
    header or sidecar on first access and caches it. *)
Definition fillmetadata (key : string) (files : list string)
    : M (store V) () :=
  m_modify (λ s,
    {| filled :=
         foldl (λ m file,
                  match m !! (file, key), sidecar database file key with
                  | None, Some v => <[(file, key) := v]> m
                  | _, _ => m
                  end) (filled s) files;
       log := log s |}).

(** Modelled from the spec: [Database.metadata] is missing from the
    sources.  It returns the cached value, or None. *)
Definition metadata (file key : string) : M (store V) (option V) :=
  λ s, (Ok (filled s !! (file, key)), s).

Definition logger (entry : log_entry) : M (store V) () :=
  m_modify (λ s, {| filled := filled s; log := log s ++ [entry] |}).

(** The value [metadata] yields for a file once the key is back-filled. *)
Definition backfilled (s : store V) (file key : string) : option V :=
  match filled s !! (file, key) with
  | Some v => Some v
  | None => sidecar database file key
  end.

End database_state.

(** ** halfpipe/ingest/collect.py: collect_pe_dir, collect_fieldmaps *)

Definition magnitude_map : gmap string (list string) :=
  list_to_map
    [("phase1", ["magnitude1"; "magnitude2"]);
     ("phase2", ["magnitude1"; "magnitude2"]);
     ("phasediff", ["magnitude1"; "magnitude2"]);
     ("fieldmap", ["magnitude"])].

Section collect_fieldmaps.
Context {V : Type}.
(** The order in which a Python set is iterated. *)
Context (set_order : gset string → list string).
(** [canonicalize_direction_code] (ingest/metadata/direction.py) and
    sdcflows' [check_pes] are not in the sources. *)
Context (canonicalize_direction_code : option V → string → result string).
Context (check_pes : list (string * string) → string → result bool).
Context (database : Database V).

Definition collect_pe_dir (c : string) : M (store V) string :=
  (let* _ := fillmetadata database "phase_encoding_direction" [c] in
   let* v := metadata c "phase_encoding_direction" in
   m_lift (canonicalize_direction_code v c))%M.

(** [database.tagval(c, "suffix") in magnitude] *)
Definition suffix_in (magnitude : list string) (c : string) : bool :=
  match tagval database c "suffix" with
  | Some suffix => bool_decide (suffix ∈ magnitude)
  | None => false
  end.

(** One turn of the loop that fills [incomplete]. *)
Definition phase_maps_body (candidates incomplete : gset string) (c : string)
    : result (gset string) :=
  match tagval database c "suffix" with
  | None => Raise AssertionError
  | Some suffix =>
      match magnitude_map !! suffix with
      | None => Ok incomplete
      | Some magnitude =>
          let has_magnitude :=
            existsb (suffix_in magnitude) (set_order candidates) in
          if negb has_magnitude then Ok (incomplete ∪ {[c]})
          else Ok incomplete
      end
  end.

(** The first pass ("filter phase maps"): the candidates that remain. *)
Definition filter_phase_maps (candidates : gset string) (silent : bool)
    : M (store V) (gset string) :=
  (let* incomplete :=
     m_lift (res_fold (phase_maps_body candidates) ∅ (set_order candidates)) in
   if bool_decide (0 < size incomplete) then
     let* _ :=
       (if negb silent then logger (InfoMissingMagnitude (sorted incomplete))
        else m_ret ()) in
     m_ret (candidates ∖ incomplete)
   else m_ret candidates)%M.

(** One turn of the loop that fills [epi_fmaps]. *)
Definition epi_fmaps_body (epi_fmaps : list (string * string)) (c : string)
    : M (store V) (list (string * string)) :=
  match tagval database c "suffix" with
  | None => m_raise AssertionError
  | Some suffix =>
      if bool_decide (suffix ≠ "epi") then m_ret epi_fmaps
      else (let* pe_dir := collect_pe_dir c in
            m_ret (epi_fmaps ++ [(c, pe_dir)]))%M
  end.

(** The second pass ("filter pepolar"). *)
Definition filter_pepolar (candidates : gset string) (bold_file_path : string)
    (silent : bool) : M (store V) (gset string) :=
  (let* epi_fmaps := m_fold epi_fmaps_body [] (set_order candidates) in
   if bool_decide (0 < length epi_fmaps) then
     m_try_ValueError
       (let* pe_dir := collect_pe_dir bold_file_path in
        let* _ := m_lift (check_pes epi_fmaps pe_dir) in
        m_ret candidates)
       (let incomplete : gset string := list_to_set (epi_fmaps.*1) in
        let* _ :=
          (if negb silent
           then logger (InfoUnmatchedPhaseEncoding (sorted incomplete))
           else m_ret ()) in
        m_ret (candidates ∖ incomplete))
   else m_ret candidates)%M.

(** The query for the field maps of a BOLD file. *)
Definition fieldmap_query (bold_file_path : string) : option (list string) :=
  let sub := tagval database bold_file_path "sub" in
  let filters := [("sub", sub)] in
  let session := tagval database bold_file_path "ses" in
  let filters :=
    if bool_decide (session ≠ None) then filters ++ [("ses", session)]
    else filters in
  associations database bold_file_path (("datatype", Some "fmap") :: filters).

Definition collect_fieldmaps (bold_file_path : string) (silent : bool)
    : M (store V) (list string) :=
  match fieldmap_query bold_file_path with
  | None => m_ret []
  | Some candidates =>
      let candidates : gset string := list_to_set candidates in
      (let* candidates := filter_phase_maps candidates silent in
       let* candidates := filter_pepolar candidates bold_file_path silent in
       m_ret (sorted candidates))%M
  end.

(** A candidate is a phase or field map whose magnitude image is not among
    the candidates. *)
Definition lacks_magnitude (candidates : gset string) (c : string) : Prop :=
  (tagval database c "suffix" ∈ [Some "phase1"; Some "phase2"; Some "phasediff"] ∧
   ¬ ∃ c', c' ∈ candidates ∧
           tagval database c' "suffix" ∈ [Some "magnitude1"; Some "magnitude2"]) ∨
  (tagval database c "suffix" = Some "fieldmap" ∧
   ¬ ∃ c', c' ∈ candidates ∧ tagval database c' "suffix" = Some "magnitude").

End collect_fieldmaps.

(** ** halfpipe/ingest/collect.py: collect_bold_files *)

(** [bids_dict]: a dict keeps its keys in insertion order. *)
Definition bids_dict_t : Type := list (string * gset string).

(** [if bids_path not in bids_dict: bids_dict[bids_path] = set()] followed
    by [bids_dict[bids_path].add(bold_file_path)]. *)
Fixpoint bids_dict_add (bids_path bold_file_path : string)
    (bids_dict : bids_dict_t) : bids_dict_t :=
  match bids_dict with
  | [] => [(bids_path, {[bold_file_path]})]
  | (k, pathset) :: rest =>
      if decide (k = bids_path)
      then (k, pathset ∪ {[bold_file_path]}) :: rest
      else (k, pathset) :: bids_dict_add bids_path bold_file_path rest
  end.

(** [max(values)]: ValueError on an empty sequence. *)
Definition py_max (values : list Z) : result Z :=
  match values with
  | [] => Raise ValueError
  | v :: values => Ok (foldl Z.max v values)
  end.

(** [del d[key]] *)
Definition py_del {A : Type} (d : gmap string A) (key : string)
    : result (gmap string A) :=
  match d !! key with
  | Some _ => Ok (delete key d)
  | None => Raise KeyError
  end.

Section collect_bold_files.
Context {V BD : Type}.
Context (set_order : gset string → list string).
Context (canonicalize_direction_code : option V → string → result string).
Context (check_pes : list (string * string) → string → result bool).
(** [nvol] (utils/image.py) reads the number of volumes of an image. *)
Context (nvol : string → Z).
(** The BIDS path translator (ingest/bids.py) is not in the sources: its
    constructor and its two methods, which may change its state and may
    raise. *)
Context (BidsDatabase : Database V → BD).
Context (put : string → M BD ()).
Context (to_bids : string → M BD (option string)).
Context (database : Database V).

(** One turn of the loop that fills [bold_file_paths_dict]. *)
Definition associated_files_body (bold_file_paths_dict : gmap string (list string))
    (bold_file_path : string) : M (store V) (gmap string (list string)) :=
  let sub := tagval database bold_file_path "sub" in
  let t1ws :=
    associations database bold_file_path
      [("datatype", Some "anat"); ("sub", sub)] in
  match t1ws with
  | None => m_ret bold_file_paths_dict
  | Some t1ws =>
      let associated_file_paths := bold_file_path :: t1ws in
      (let* fmaps :=
         collect_fieldmaps set_order canonicalize_direction_code check_pes
           database bold_file_path false in
       let associated_file_paths := associated_file_paths ++ fmaps in
       let sbrefs :=
         associations database bold_file_path
           [("datatype", Some "func"); ("suffix", Some "sbref"); ("sub", sub)] in
       let associated_file_paths :=
         match sbrefs with
         | Some sbrefs => associated_file_paths ++ sbrefs
         | None => associated_file_paths
         end in
       m_ret (<[bold_file_path := associated_file_paths]> bold_file_paths_dict))%M
  end.

(** The body of the [try]: register the run and read its BIDS path. *)
Definition canonical_bids_path (bold_file_path : string)
    : M BD (option string) :=
  (let* _ := put bold_file_path in to_bids bold_file_path)%M.

(** One turn of the loop that fills [bids_dict]. *)
Definition bids_dict_body (bids_dict : bids_dict_t) (bold_file_path : string)
    : M BD bids_dict_t :=
  (let* attempt :=
     m_try_ValueError
       (let* bids_path := canonical_bids_path bold_file_path in
        m_ret (Some bids_path))
       (m_ret None) in
   match attempt with
   | None => m_ret bids_dict
   | Some None => m_raise AssertionError
   | Some (Some bids_path) =>
       m_ret (bids_dict_add bids_path bold_file_path bids_dict)
   end)%M.

(** The run that is kept of a set of runs with identical tags. *)
Definition select_bold_file_path (bold_file_pathset : gset string)
    : result (string * Z) :=
  let nvol_dict := (λ p, (p, nvol p)) <$> set_order bold_file_pathset in
  (let* max_nvol := py_max (nvol_dict.*2) in
   let selected : gset string :=
     list_to_set ((filter (λ item, item.2 = max_nvol) nvol_dict).*1) in
   let* selected :=
     (if bool_decide (1 < size selected) then
        match last (sorted selected) with
        | Some l => Ok ({[l]} : gset string)
        | None => Raise IndexError
        end
      else Ok selected) in
   match set_order selected with
   | [selectedbold_file_path] => Ok (selectedbold_file_path, max_nvol)
   | _ => Raise ValueError
   end)%res.

(** One turn of the loop over [bids_dict.values()]. *)
Definition duplicates_body (bold_file_paths_dict : gmap string (list string))
    (item : string * gset string) : M (store V) (gmap string (list string)) :=
  let bold_file_pathset := item.2 in
  if bool_decide (size bold_file_pathset = 1) then m_ret bold_file_paths_dict
  else
    (let* sel := m_lift (select_bold_file_path bold_file_pathset) in
     let selectedbold_file_path := sel.1 in
     let max_nvol := sel.2 in
     let excluded :=
       filter (λ p, p ≠ selectedbold_file_path) (set_order bold_file_pathset) in
     let* bold_file_path :=
       (match last (set_order bold_file_pathset) with
        | Some p => m_ret p
        | None => m_raise StopIteration
        end) in
     let decision :=
       if bool_decide (nvol bold_file_path < max_nvol)%Z
       then LongestDuration else LastAlphabetically in
     let* _ :=
       logger
         (WarningDuplicates
            (FoundIdentical (size bold_file_pathset - 1) selectedbold_file_path
               :: (ExcludingFile <$> excluded)
               ++ [DecisionCriterion decision])) in
     m_lift (res_fold py_del bold_file_paths_dict excluded))%M.

(** The three stages of collect_bold_files. *)
Definition associated_files (bold_file_paths : gset string)
    : M (store V) (gmap string (list string)) :=
  m_fold associated_files_body ∅ (set_order bold_file_paths).

Definition group_by_bids_path (bold_file_paths : gset string)
    : result bids_dict_t :=
  (m_fold bids_dict_body [] (set_order bold_file_paths)
     (BidsDatabase database)).1.

Definition collect_bold_files (setting_source_files feature_source_files : gset string)
    : M (store V) (gmap string (list string)) :=
  let bold_file_paths := setting_source_files ∪ feature_source_files in
  (let* bold_file_paths_dict := associated_files bold_file_paths in
   let bold_file_paths := bold_file_paths ∩ dom bold_file_paths_dict in
   let* bids_dict := m_lift (group_by_bids_path bold_file_paths) in
   m_fold duplicates_body bold_file_paths_dict bids_dict)%M.

(** [q] does not beat [p]: it has fewer volumes, or as many and a path that
    is not alphabetically later. *)
Definition not_preferred_to (p q : string) : Prop :=
  (nvol q < nvol p)%Z ∨ (nvol q = nvol p ∧ String.le q p).

End collect_bold_files.

(** A run belongs to a group of [bids_dict]. *)
Definition in_groups (bids_dict : bids_dict_t) (p : string) : Prop :=
  ∃ b pathset, (b, pathset) ∈ bids_dict ∧ p ∈ pathset.

(** No run belongs to two entries of [bids_dict]. *)
Fixpoint groups_disjoint (bids_dict : bids_dict_t) : Prop :=
  match bids_dict with
  | [] => True
  | (_, pathset) :: rest =>
      (∀ p, p ∈ pathset → ¬ in_groups rest p) ∧ groups_disjoint rest
  end.

(** ** halfpipe/ui/metadata.py: CheckMetadataStep *)

(** The views a step appends to its screen. *)
Inductive view : Type :=
  | TextView (text : string)
  | SpacerView (n : nat)
  | SingleChoiceInputView (options : list string) (isVertical : bool)
  | NumberInputView
  | FileInputView.

(** The terminal: the answers the user will give, one per prompt (None
    for a cancelled prompt), and the number of prompts shown so far. *)
Record terminal : Type := {
  answers : list (option string);
  prompts : nat
}.

(** Calling an input view: the user is prompted once. *)
Definition input_view (t : terminal) : option string * terminal :=
  match answers t with
  | [] => (None, {| answers := []; prompts := S (prompts t) |})
  | a :: rest => (a, {| answers := rest; prompts := S (prompts t) |})
  end.

(** What [next] hands control to. *)
Inductive transition : Type :=
  | NextStep
  | SetMetadataStep (filters : option kwargs) (key : string)
      (suggestion : option string)
  | NoStep.

(** The attributes [setup] gives a CheckMetadataStep. *)
Record CheckMetadataStep : Type := {
  is_first_run : bool;
  should_skip : bool;
  choice : option string;
  is_missing : bool;
  suggestion : option string;
  views : list view
}.

(** [f"{s:>{width}}"] *)
Definition rjust (width : nat) (s : string) : string :=
  String.concat "" (replicate (width - String.length s) " ") +:+ s.

Definition py_max_nat (values : list nat) : result nat :=
  match values with
  | [] => Raise ValueError
  | v :: values => Ok (foldl Nat.max v values)
  end.

Fixpoint m_mapM {St A B : Type} (f : A → M St B) (l : list A) : M St (list B) :=
  match l with
  | [] => m_ret []
  | x :: l' => (let* y := f x in let* ys := m_mapM f l' in m_ret (y :: ys))%M
  end.

Section check_metadata.
Context {V : Type} `{EqDecision V}.
(** The order numpy sorts metadata values in, and [f"{x}"]. *)
Context (val_le : relation V) `{!RelDecision val_le}.
Context (format_value : V → string).
(** inflection's [humanize], [str.lower], and the formatters of
    halfpipe/io, none of them in the sources. *)
Context (humanize str_lower : string → string).
Context (direction_code_str : V → string → string).
Context (slice_timing_str array2string : V → string).

Definition display_str (x : string) : string :=
  if decide (x = "MNI152NLin6Asym")
  then "MNI ICBM 152 non-linear 6th Generation Asymmetric (FSL)"
  else if decide (x = "MNI152NLin2009cAsym")
  then "MNI ICBM 2009c Nonlinear Asymmetric"
  else humanize x.

(** An entry of [vals] once formatted: the raw value, or its text for a
    direction or slice timing key. *)
Inductive cell : Type :=
  | Raw (v : V)
  | Text (s : string).

#[global] Instance cell_eq_dec : EqDecision cell.
Proof. solve_decision. Defined.

(** The listing indexes its arrays below their length only; [!!!] needs
    a value to name for the indices it is never given. *)
#[global] Instance cell_inhabited : Inhabited cell := populate (Text "").

(** Only one kind of cell occurs in a run; raw values go first to make the
    order total. *)
Definition cell_le (a b : cell) : Prop :=
  match a, b with
  | Raw x, Raw y => val_le x y
  | Text x, Text y => String.le x y
  | Raw _, Text _ => True
  | Text _, Raw _ => False
  end.

#[global] Instance cell_le_dec : RelDecision cell_le.
Proof. intros [x|x] [y|y]; simpl; apply _. Defined.

Definition format_cell (c : cell) : string :=
  match c with
  | Raw v => format_value v
  | Text s => s
  end.

(** The loops that rewrite [vals] in place for the direction keys and for
    slice timing. *)
Definition format_vals (key : string) (filepaths : list string)
    (vals : list (option V)) : list (option cell) :=
  if bool_decide (key = "phase_encoding_direction") ||
     bool_decide (key = "slice_encoding_direction")
  then zip_with (λ (val : option V) (filepath : string),
                   (λ v, Text (direction_code_str v filepath)) <$> val)
         vals filepaths
  else if bool_decide (key = "slice_timing")
  then (λ val : option V,
          (λ v, let sts := slice_timing_str v in
                Text (if bool_decide (sts = "unknown") then array2string v
                      else sts)) <$> val) <$> vals
  else (λ val : option V, Raw <$> val) <$> vals.

(** [np.unique(vals, return_counts=True)]: the distinct values in sorted
    order with the number of times each occurs.  numpy sorts the array
    with Python's comparison, which None does not have: an array that
    holds None next to a value raises TypeError. *)
Definition np_unique (vals : list (option cell)) : result (list cell * list nat) :=
  match mapM id vals with
  | None => Raise TypeError
  | Some xs =>
      let uniquevals := merge_sort cell_le (remove_dups xs) in
      Ok (uniquevals, (λ u, length (filter (u =.) xs)) <$> uniquevals)
  end.

(** [np.argsort(counts)]; the step only takes the length of the result,
    so how numpy breaks ties does not matter here. *)
Definition np_argsort (counts : list nat) : list nat :=
  @merge_sort nat (λ i j, counts !!! i ≤ counts !!! j)
    (λ i j, decide (counts !!! i ≤ counts !!! j)) (seq 0 (length counts)).

Context (key : string) (filters : option kwargs) (unit_of_key : option string).
Context (_should_skip : bool).

(** [ctx]: the database and the files of the spec. *)
Context (database : Database V) (spec_files : list string).

(** One turn of the loop that appends a line per listed value. *)
Definition value_line_body (uniquevals : list cell) (column1 : list string)
    (column1width : nat) (unit : string)
    (acc : option string * list view) (i : nat) : option string * list view :=
  let display := display_str (format_cell (uniquevals !!! i)) in
  let suggestion :=
    match acc.1 with
    | None => Some display
    | Some previous => Some previous
    end in
  (suggestion,
   acc.2 ++ [TextView (" " +:+ rjust column1width (column1 !!! i) +:+ " - "
                        +:+ display +:+ " " +:+ unit)]).

(** The files the step looks at: those of the last entry of the spec, or
    those the filters select. *)
Definition resolve_filepaths : result (list string) :=
  match filters with
  | None =>
      match last spec_files with
      | Some specfileobj => Ok (fromspecfileobj database specfileobj)
      | None => Raise IndexError
      end
  | Some filters => Ok (get database filters)
  end.

Definition setup : M (store V) CheckMetadataStep :=
  if _should_skip then
    m_ret {| is_first_run := true; should_skip := true; choice := None;
             is_missing := true; suggestion := None; views := [] |}
  else
    let humankey := str_lower (humanize key) in
    (let* filepaths := m_lift resolve_filepaths in
     let* _ := fillmetadata database key filepaths in
     let* vals := m_mapM (λ filepath, metadata filepath key) filepaths in
     let vals := format_vals key filepaths vals in
     if forallb (λ val, bool_decide (val = None)) vals then
       m_ret {| is_first_run := true; should_skip := false; choice := None;
                is_missing := true; suggestion := None; views := [] |}
     else
       let views := [TextView ("Check " +:+ humankey +:+ " values")] in
       let* unique := m_lift (np_unique vals) in
       let uniquevals := unique.1 in
       let counts := unique.2 in
       let order := np_argsort counts in
       let shown := seq 0 (min 10 (length order)) in
       let column1 := (λ i, pretty (counts !!! i) +:+ " images") <$> shown in
       let* column1width := m_lift (py_max_nat (String.length <$> column1)) in
       let unit := default "" unit_of_key in
       let unit := if bool_decide (key = "slice_timing") then "" else unit in
       let listed :=
         foldl (value_line_body uniquevals column1 column1width unit)
           (None, views) shown in
       let views := listed.2 in
       let views :=
         if bool_decide (10 < length order) then views ++ [TextView "..."]
         else views in
       let views :=
         views ++ [TextView "Proceed with these values?";
                   SingleChoiceInputView ["Yes"; "No"] false;
                   SpacerView 1] in
       m_ret {| is_first_run := true; should_skip := false; choice := None;
                is_missing := false; suggestion := listed.1; views := views |})%M.

Definition run (self : CheckMetadataStep) (t : terminal)
    : bool * CheckMetadataStep * terminal :=
  if is_missing self then (is_first_run self, self, t)
  else
    let (answer, t') := input_view t in
    let self :=
      {| is_first_run := is_first_run self; should_skip := should_skip self;
         choice := answer; is_missing := is_missing self;
         suggestion := suggestion self; views := views self |} in
    (if answer is None then false else true, self, t').

Definition next (self : CheckMetadataStep) : transition * CheckMetadataStep :=
  if is_first_run self || negb (is_missing self) then
    let self' :=
      {| is_first_run := false; should_skip := should_skip self;
         choice := choice self; is_missing := is_missing self;
         suggestion := suggestion self; views := views self |} in
    if bool_decide (choice self = Some "Yes") || should_skip self
    then (NextStep, self')
    else (SetMetadataStep filters key (suggestion self), self')
  else (NoStep, self).

(** The rows the listing shows, as data: the first ten distinct values in
    the order of [np.unique], each with its number of occurrences. *)
Definition shown_rows (vals : list cell) : list (nat * cell) :=
  take 10 ((λ u, (length (filter (u =.) vals), u))
             <$> merge_sort cell_le (remove_dups vals)).

(** The formatted values of the files, once the key is back-filled. *)
Definition observed (s : store V) (filepaths : list string)
    : list (option cell) :=
  format_vals key filepaths
    ((λ filepath, backfilled database s filepath key) <$> filepaths).

(** The text of the line of a row, in a column of the given width. *)
Definition row_text (column1width : nat) (row : nat * cell) : string :=
  " " +:+ rjust column1width (pretty row.1 +:+ " images") +:+ " - "
  +:+ display_str (format_cell row.2) +:+ " "
  +:+ (if bool_decide (key = "slice_timing") then "" else default "" unit_of_key).

End check_metadata.

(** ** halfpipe/tui/preprocessing/base.py *)

(** A value of [ctx.spec.global_settings]. *)
Inductive setting_value : Type :=
  | SettingBool (b : bool)
  | SettingInt (n : Z)
  | SettingNone.

Inductive visibility : Type :=
  | Visible
  | Hidden.

(** The Preprocessing widget with the parts of the screen and of the
    context its handlers write to. *)
Record Preprocessing : Type := {
  global_settings : gmap string setting_value;
  manualy_set_volumes_to_remove_label : string;
  remove_volumes_value : string;
  remove_volumes_value_border : option (string * string);
  remove_volumes_value_visibility : visibility;
  edit_button_visibility : visibility
}.

(** SetInitialVolumesRemovalModal: what the OK and Cancel buttons dismiss
    the modal with, given the text of its input.  The modal's [next]
    method is no handler of the toolkit and nothing calls it. *)
Definition _on_ok_button_pressed (input_value : string) : option string :=
  if bool_decide (input_value = "") then Some "0" else Some input_value.

Definition _on_cancel_button_pressed : option string := None.

(** The callback the modal is pushed with. *)
Definition update_remove_initial_volumes_value (self : Preprocessing)
    (value : option string) : Preprocessing :=
  match value with
  | Some value =>
      {| global_settings := global_settings self;
         manualy_set_volumes_to_remove_label :=
           manualy_set_volumes_to_remove_label self;
         remove_volumes_value := value;
         remove_volumes_value_border := Some ("solid", "green");
         remove_volumes_value_visibility := remove_volumes_value_visibility self;
         edit_button_visibility := edit_button_visibility self |}
  | None => self
  end.

Definition _on_via_algorithm_switch_changed (self : Preprocessing)
    (message_value : bool) : Preprocessing :=
  if message_value then
    {| global_settings := global_settings self;
       manualy_set_volumes_to_remove_label :=
         "Turn of 'Detect non-steady-state via algorithm' to set manually number of initial volumes to remove";
       remove_volumes_value := remove_volumes_value self;
       remove_volumes_value_border := remove_volumes_value_border self;
       remove_volumes_value_visibility := Hidden;
       edit_button_visibility := Hidden |}
  else
    {| global_settings := global_settings self;
       manualy_set_volumes_to_remove_label := "Remove initial volumes from scans";
       remove_volumes_value := remove_volumes_value self;
       remove_volumes_value_border := remove_volumes_value_border self;
       remove_volumes_value_visibility := Visible;
       edit_button_visibility := Visible |}.

Definition on_run_recon_all_switch_changed (self : Preprocessing)
    (event_value : bool) : Preprocessing :=
  {| global_settings :=
       <["run_reconall" := SettingBool event_value]> (global_settings self);
     manualy_set_volumes_to_remove_label :=
       manualy_set_volumes_to_remove_label self;
     remove_volumes_value := remove_volumes_value self;
     remove_volumes_value_border := remove_volumes_value_border self;
     remove_volumes_value_visibility := remove_volumes_value_visibility self;
     edit_button_visibility := edit_button_visibility self |}.

(** The edit button pushes the modal; the user types a count and presses
    OK, and the toolkit calls the callback with the result. *)
Definition confirm_initial_volumes (self : Preprocessing) (input_value : string)
    : Preprocessing :=
  update_remove_initial_volumes_value self (_on_ok_button_pressed input_value).

(** The widget as [compose] lays it out, over given global settings. *)
Definition Preprocessing_compose (settings : gmap string setting_value)
    : Preprocessing :=
  {| global_settings := settings;
     manualy_set_volumes_to_remove_label := "Remove initial volumes from scans";
     remove_volumes_value := "0";
     remove_volumes_value_border := None;
     remove_volumes_value_visibility := Visible;
     edit_button_visibility := Visible |}.

(** ** halfpipe/tui/utils/filebrowser.py *)

(** The modal: the text of its path input and the directory selected. *)
Record FileBrowserScreen : Type := {
  screen_path_to : string;
  path_input_box2 : string;
  selected_directory : option string
}.

(** [_confirm_window]: [update_from_input], then dismiss with the
    selected directory. *)
Definition _confirm_window (screen : FileBrowserScreen) : option string :=
  Some (path_input_box2 screen).

(** [_cancel_window], bound to the Cancel button and to escape. *)
Definition _cancel_window (screen : FileBrowserScreen) : option string := None.

Inductive FileBrowser_message : Type :=
  | Changed (selected_path : string).

(** The compact control: its label, its reactive [selected_path] and the
    messages it has posted. *)
Record FileBrowser : Type := {
  path_to : string;
  path_input_box : string;
  path_input_box_value : option string;
  selected_path : string;
  posted : list FileBrowser_message
}.

(** [str(x)] of a modal result: None prints as the text None. *)
Definition py_str (x : option string) : string :=
  match x with
  | Some s => s
  | None => "None"
  end.

(** Assigning the reactive attribute: the watcher runs, and posts
    [Changed], when the value differs from the current one. *)
Definition set_selected_path (self : FileBrowser) (value : string) : FileBrowser :=
  if bool_decide (selected_path self ≠ value) then
    {| path_to := path_to self; path_input_box := path_input_box self;
       path_input_box_value := path_input_box_value self;
       selected_path := value;
       posted := posted self ++ [Changed value] |}
  else self.

(** [update_input(selected_path)]: the test [selected_path != ""] holds
    of None as of every non-empty text. *)
Definition update_input (self : FileBrowser) (selected : option string)
    : FileBrowser :=
  if bool_decide (selected ≠ Some "") then
    let text := path_to self +:+ ": " +:+ py_str selected in
    set_selected_path
      {| path_to := path_to self; path_input_box := text;
         path_input_box_value := Some text;
         selected_path := selected_path self;
         posted := posted self |}
      (py_str selected)
  else self.

(** The control as [compose] lays it out. *)
Definition FileBrowser_compose (path_to : string) : FileBrowser :=
  {| path_to := path_to; path_input_box := path_to +:+ ":";
     path_input_box_value := None; selected_path := ""; posted := [] |}.

(** [open_browse_window]: the modal is pushed with [update_input] as its
    callback, which the toolkit calls with what the modal is dismissed
    with. *)
Definition browse (self : FileBrowser) (dismissed_with : option string)
    : FileBrowser :=
  update_input self dismissed_with.

(** ** halfpipe/tui/feature_widgets/task_based/taskbased.py:
       SwitchWithSelect *)

Section switch_with_select.
Context {A B : Type}.
(** [str] of the first component of an option. *)
Context (str : A → string).

Inductive widget : Type :=
  | Static (text : string)
  | TextSwitch (value : bool)
  | Select (options : list (string * B)) (value : B) (allow_blank : bool)
      (id : string)
  | Grid (children : list widget).

Record SwitchWithSelect : Type := {
  label : string;
  switch_value : bool;
  options : list (A * B)
}.

(** [__init__(label, options=None, switch_value=False)] *)
Definition SwitchWithSelect_init (label : string)
    (options : option (list (A * B))) (switch_value : bool)
    : SwitchWithSelect :=
  {| label := label; switch_value := switch_value;
     options := match options with
                | None => []
                | Some options => options
                end |}.

(** [compose]: [self.options[0]] raises IndexError on an empty list. *)
Definition compose (self : SwitchWithSelect) : result (list widget) :=
  let entries := (λ value, (str value.1, value.2)) <$> options self in
  match options self !! 0 with
  | None => Raise IndexError
  | Some first =>
      Ok [Grid [Static (label self);
                TextSwitch (switch_value self);
                Select entries first.2 false "input_switch_input_box"]]
  end.

End switch_with_select.

(** ** halfpipe/ingest/collect.py: collect_metadata *)

(** What [NiftiheaderLoader.load] yields when the header is a
    [Nifti1Header]: the voxel sizes, already floats, and the shape of the
    data. *)
Record Nifti1Header (F : Type) : Type := {
  get_zooms : list F;
  get_data_shape : list Z
}.
Arguments get_zooms {F} _.
Arguments get_data_shape {F} _.

(** The values the metadata dictionary of a source file holds. *)
Inductive metadata_value (S W F : Type) : Type :=
  | SettingDump (setting : S)
  | FileMetadata (value : W)
  | VoxelSize (zooms : list F)
  | VolumeShape (shape : list Z)
  | NumberOfVolumes (n : Z)
  | Orientation (axcode_str : string).
Arguments SettingDump {S W F} setting.
Arguments FileMetadata {S W F} value.
Arguments VoxelSize {S W F} zooms.
Arguments VolumeShape {S W F} shape.
Arguments NumberOfVolumes {S W F} n.
Arguments Orientation {S W F} axcode_str.

Section collect_metadata.
Context {V Setting S W F : Type}.
(** [BaseSettingSchema().dump], [get_file_metadata] (ingest/bids.py),
    [NiftiheaderLoader.load], which answers None where the header it finds
    is no [Nifti1Header], and [get_axcodes_set] are not in the sources. *)
Context (dump : Setting → S).
Context (get_file_metadata : Database V → string → gmap string W).
Context (load : string → option (Nifti1Header F)).
Context (get_axcodes_set : string → gset (list string)).
Context (database : Database V).

Definition collect_metadata (source_file : string) (setting : Setting)
    : result (gmap string (metadata_value S W F)) :=
  let metadata : gmap string (metadata_value S W F) :=
    {["setting" := SettingDump (dump setting)]} in
  (* [metadata.update(d)]: the entries of [d] replace those of [metadata] *)
  let metadata :=
    (FileMetadata <$> get_file_metadata database source_file) ∪ metadata in
  match load source_file with
  | None => Raise AssertionError
  | Some header =>
      let zooms := get_zooms header in
      let metadata :=
        <["acquisition_voxel_size" := VoxelSize (take 3 zooms)]> metadata in
      let data_shape := get_data_shape header in
      if bool_decide (length data_shape = 4) then
        let metadata :=
          <["acquisition_volume_shape" := VolumeShape (take 3 data_shape)]>
            metadata in
        match data_shape !! 3 with
        | None => Raise IndexError
        | Some n =>
            let metadata :=
              <["number_of_volumes" := NumberOfVolumes n]> metadata in
            (* [(axcodes,) = get_axcodes_set(source_file)] *)
            match elements (get_axcodes_set source_file) with
            | [axcodes] =>
                let axcode_str := String.concat "" axcodes in
                Ok (<["acquisition_orientation" := Orientation axcode_str]>
                      metadata)
            | _ => Raise ValueError
            end
        end
      else Raise AssertionError
  end.

(** The keys collect_metadata fills from the image header. *)
Definition acquisition_keys : list string :=
  ["acquisition_voxel_size"; "acquisition_volume_shape"; "number_of_volumes";
   "acquisition_orientation"].

End collect_metadata.

(** ** halfpipe/tui/feature_widgets/task_based/taskbased.py:
       get_conditions, find_bold_file_paths *)

#[global] Instance condition_file_eq_dec : EqDecision condition_file.
Proof. solve_decision. Defined.

Section get_conditions.
Context {F E : Type} `{EqDecision E}.
Context (set_order : gset string → list string).
(** The calls on [ctx.database]: [get], which answers None when no file
    carries the tags, and [applyfilters]; the [collect_events] of
    halfpipe/collect/events.py, which returns the event files of a BOLD
    file or None; and the conditions a [ConditionFile] reads from them.
    None of these is in the sources. *)
Context (database_get : kwargs → option (list string)).
Context (applyfilters : gset string → list F → gset string).
Context (collect_events : string → result (option E)).
Context (ConditionFile_conditions : E → list string).

Definition find_bold_file_paths (_filter : option F) : result (gset string) :=
  match database_get [("datatype", Some "func"); ("suffix", Some "bold")] with
  | None => Raise ValueError
  | Some bold_file_paths =>
      let bold_file_paths : gset string := list_to_set bold_file_paths in
      match _filter with
      | Some _filter => Ok (applyfilters bold_file_paths [_filter])
      | None => Ok bold_file_paths
      end
  end.

(** [if condition not in conditions: conditions.append(condition)] *)
Definition append_condition (conditions : list string) (condition : string)
    : list string :=
  if bool_decide (condition ∉ conditions) then conditions ++ [condition]
  else conditions.

(** One turn of the loop over the BOLD files; the state is [conditions]
    and [seen]. *)
Definition get_conditions_body (acc : list string * list E)
    (bold_file_path : string) : result (list string * list E) :=
  let conditions := acc.1 in
  let seen := acc.2 in
  (let* event_file_paths := collect_events bold_file_path in
   match event_file_paths with
   | None => Ok (conditions, seen)
   | Some event_file_paths =>
       if bool_decide (event_file_paths ∈ seen) then Ok (conditions, seen)
       else
         let conditions :=
           foldl append_condition conditions
             (ConditionFile_conditions event_file_paths) in
         Ok (conditions, seen ++ [event_file_paths])
   end)%res.

Definition get_conditions (_filter : option F) : result (list string) :=
  (let* bold_file_paths := find_bold_file_paths _filter in
   let* acc :=
     res_fold get_conditions_body ([], []) (set_order bold_file_paths) in
   Ok acc.1)%res.

End get_conditions.

(** ** taskbased.py: the confounds of a TaskBased widget *)

(** [list.remove(x)]: the first occurrence goes, ValueError when there is
    none. *)
Fixpoint py_remove (x : string) (l : list string) : result (list string) :=
  match l with
  | [] => Raise ValueError
  | y :: l' =>
      if decide (y = x) then Ok l'
      else (let* r := py_remove x l' in Ok (y :: r))%res
  end.

(** [confounds_options]: for each pattern its label and whether it is
    selected, in the order the dict is written. *)
Definition confounds_options_t : Type := list (string * (string * bool)).

Definition confounds_options_default : confounds_options_t :=
  [("ICA-AROMA", ("ICA-AROMA", false));
   ("(trans|rot)_[xyz]", ("Motion parameters", false));
   ("(trans|rot)_[xyz]_derivative1", ("Derivatives of motion parameters", false));
   ("(trans|rot)_[xyz]_power2", ("Motion parameters squared", false));
   ("(trans|rot)_[xyz]_derivative1_power2",
    ("Derivatives of motion parameters squared", false));
   ("a_comp_cor_0[0-4]", ("aCompCor (top five components)", false));
   ("white_matter", ("White matter signal", false));
   ("csf", ("CSF signal", false));
   ("global_signal", ("Global signal", false))].

(** [confounds_options[confound][1] = True]: KeyError for a pattern the
    dict does not have. *)
Fixpoint select_confound (confound : string) (confounds_options : confounds_options_t)
    : result confounds_options_t :=
  match confounds_options with
  | [] => Raise KeyError
  | (key, (text, selected)) :: rest =>
      if decide (key = confound) then Ok ((key, (text, true)) :: rest)
      else (let* rest := select_confound confound rest in
            Ok ((key, (text, selected)) :: rest))%res
  end.

(** An entry with its flag set when its pattern is among the confounds
    given, and as it is otherwise. *)
Definition with_confound (confounds : list string)
    (entry : string * (string * bool)) : string * (string * bool) :=
  (entry.1, (entry.2.1, entry.2.2 || bool_decide (entry.1 ∈ confounds))).

(** The two keys of [setting_dict] the confounds are kept under; None
    for a key the dict does not have. *)
Record confound_settings : Type := {
  ica_aroma : option bool;
  confounds_removal : option (list string)
}.

(** The part of [TaskBased.__init__] that fills [confounds_options]. *)
Definition TaskBased_confounds_options (setting_dict : confound_settings)
    : result confounds_options_t :=
  match confounds_removal setting_dict with
  | Some confounds =>
      res_fold (λ confounds_options confound,
                  select_confound confound confounds_options)
        confounds_options_default confounds
  | None => Ok confounds_options_default
  end.

(** The entries of the selection list [compose] builds: prompt, value and
    initial state of each. *)
Definition confounds_selection (confounds_options : confounds_options_t)
    : list (string * string * bool) :=
  (λ entry, (entry.2.1, entry.1, entry.2.2)) <$> confounds_options.

(** [feed_feature_dict_confounds], given what the selection list has
    selected. *)
Definition feed_feature_dict_confounds (selected : list string)
    (setting_dict : confound_settings) : result confound_settings :=
  let confounds := selected in
  if bool_decide ("ICA-AROMA" ∈ selected) then
    (let* confounds := py_remove "ICA-AROMA" confounds in
     Ok {| ica_aroma := Some true; confounds_removal := Some confounds |})%res
  else Ok {| ica_aroma := Some false; confounds_removal := Some confounds |}.

(** ** taskbased.py: the images of a TaskBased widget *)

(** [d[key] = value] on a dict kept in the order its keys were inserted. *)
Fixpoint dict_setitem {A : Type} (key : string) (value : A)
    (d : list (string * A)) : list (string * A) :=
  match d with
  | [] => [(key, value)]
  | (k, v) :: rest =>
      if decide (k = key) then (k, value) :: rest
      else (k, v) :: dict_setitem key value rest
  end.

(** [images_to_use["task"]] as [TaskBased.__init__] fills it from the
    tasks of the available images and the values of the first filter of
    the settings. *)
Definition images_to_use (available_images values : list string)
    : list (string * bool) :=
  let images_to_use :=
    foldl (λ d task, dict_setitem task false d) [] available_images in
  foldl (λ d image, dict_setitem image true d) images_to_use values.

(** The entries of the selection list [compose] builds for the images. *)
Definition images_selection (images_to_use : list (string * bool))
    : list (string * string * bool) :=
  (λ entry, (entry.1, entry.1, entry.2)) <$> images_to_use.

(** ** halfpipe/ui/metadata.py: SetMetadataStep *)

(** A marshmallow field as the step looks at it: the choices of its
    validator when it has one with choices, whether it is a
    [fields.Float], a [fields.List] or of another class, and its
    [deserialize]. *)
Inductive field_class : Type :=
  | FloatField
  | ListField
  | OtherField.

(** What the step hands to [deserialize]: a text (the choice picked, the
    number or the text entered), or the values loaded from a spreadsheet. *)
Inductive field_input (L : Type) : Type :=
  | Entered (text : string)
  | Loaded (values : L).
Arguments Entered {L} text.
Arguments Loaded {L} values.

Record field (L W : Type) : Type := {
  validate_choices : option (list string);
  field_class_of : field_class;
  deserialize : field_input L → result W
}.
Arguments validate_choices {L W} _.
Arguments field_class_of {L W} _.
Arguments deserialize {L W} _ _.

(** The attributes [setup] and [run] give a SetMetadataStep. *)
Record SetMetadataStep_attrs : Type := {
  aliases : gmap string string;
  step_input_view : view;
  step_views : list view;
  step_result : option string
}.

(** [dict(zip(keys, values))]: a later pair replaces an earlier one with
    the same key. *)
Definition dict_zip (keys values : list string) : gmap string string :=
  foldl (λ d item, <[item.1 := item.2]> d) ∅ (zip keys values).

(** [specfileobj.metadata[key] = value] on the file object at an index of
    [ctx.spec.files], which gets an empty [metadata] first when it has
    none.  An index past the list stands for a file object the spec does
    not hold. *)
Definition set_metadata {W : Type} (key : string) (value : W)
    (files : list (option (gmap string W))) (i : nat)
    : list (option (gmap string W)) :=
  match files !! i with
  | Some metadata => <[i := Some (<[key := value]> (default ∅ metadata))]> files
  | None => files
  end.

Section set_metadata_step.
Context {V L W : Type}.
(** inflection's [humanize], [str.lower], [direction_code_str] and
    [loadspreadsheet] of halfpipe/io, the latter flattened by numpy,
    [space_codes] of halfpipe/model, and [Database.specfileobj], which
    names the file object of [ctx.spec.files] a path was resolved from:
    none of them is in the sources. *)
Context (humanize str_lower : string → string).
Context (direction_code_str : string → option string → string).
Context (space_codes : list string).
Context (loadspreadsheet : string → result L).
Context (specfileobj : string → nat).
(** The order in which the set of file objects is iterated. *)
Context (object_order : gset nat → list nat).
Context (database : Database V).
(** The step is built for a key the schema has a field for, with the unit
    the field declares, if any. *)
Context (field : field L W) (key : string) (unit : option string).
Context (filters : option kwargs).

Definition header_str : string :=
  let humankey := str_lower (humanize key) in
  let is_list :=
    match field_class_of field with ListField => true | _ => false end in
  let header_str :=
    if is_list then "Import " +:+ humankey +:+ " values"
    else "Specify " +:+ humankey in
  let header_str :=
    match unit with
    | Some unit => header_str +:+ " in " +:+ unit
    | None => header_str
    end in
  if is_list then header_str +:+ " from a file" else header_str.

(** The options shown for a field with choices, and the choices they
    stand for. *)
Definition display_choices (choices : list string) : list string * list string :=
  if forallb (λ code, bool_decide (code ∈ choices)) space_codes then
    let choices := space_codes in
    let choices :=
      if bool_decide (key = "slice_encoding_direction") then reverse choices
      else choices in
    ((λ choice, display_str humanize (direction_code_str choice None))
       <$> choices, choices)
  else (display_str humanize <$> choices, choices).

Definition SetMetadataStep_setup : result SetMetadataStep_attrs :=
  let views := [TextView header_str] in
  match validate_choices field with
  | Some choices =>
      let shown := display_choices choices in
      let input_view := SingleChoiceInputView shown.1 true in
      Ok {| aliases := dict_zip shown.1 shown.2;
            step_input_view := input_view;
            step_views := views ++ [input_view; SpacerView 1];
            step_result := None |}
  | None =>
      match field_class_of field with
      | FloatField =>
          Ok {| aliases := ∅; step_input_view := NumberInputView;
                step_views := views ++ [NumberInputView; SpacerView 1];
                step_result := None |}
      | ListField =>
          Ok {| aliases := ∅; step_input_view := FileInputView;
                step_views := views ++ [FileInputView; SpacerView 1];
                step_result := None |}
      | OtherField => Raise ValueError
      end
  end.

Definition SetMetadataStep_run (self : SetMetadataStep_attrs) (t : terminal)
    : bool * SetMetadataStep_attrs * terminal :=
  let (answer, t') := input_view t in
  let self :=
    {| aliases := aliases self; step_input_view := step_input_view self;
       step_views := step_views self; step_result := answer |} in
  (if answer is None then false else true, self, t').

(** The value [next] deserializes: the choice an option stands for, the
    content of the spreadsheet named, or what was entered. *)
Definition entered_value (self : SetMetadataStep_attrs) (value : string)
    : result (field_input L) :=
  match aliases self !! value with
  | Some choice => Ok (Entered choice)
  | None =>
      match step_input_view self with
      | FileInputView =>
          (let* values := loadspreadsheet value in Ok (Loaded values))%res
      | _ => Ok (Entered value)
      end
  end.

(** The file objects [next] writes to, as indices into [ctx.spec.files]. *)
Definition specfileobjs (files : list (option (gmap string W)))
    : result (list nat) :=
  match filters with
  | None =>
      match length files with
      | 0 => Raise IndexError
      | S n => Ok [n]
      end
  | Some filters =>
      let filepaths := get database filters in
      Ok (object_order (list_to_set (specfileobj <$> filepaths)))
  end.

Definition SetMetadataStep_next (self : SetMetadataStep_attrs)
    (files : list (option (gmap string W)))
    : result (transition * list (option (gmap string W))) :=
  match step_result self with
  | Some value =>
      (let* value := entered_value self value in
       let* value := deserialize field value in
       let* specfileobjs := specfileobjs files in
       Ok (NextStep, foldl (set_metadata key value) files specfileobjs))%res
  | None => Ok (NextStep, files)
  end.

End set_metadata_step.

(** ** The events of the Preprocessing widget *)

(** What the user does to the widget: the two switches, and the edit
    button followed by the modal being confirmed with a text in its input,
    or cancelled. *)
Inductive Preprocessing_event : Type :=
  | ViaAlgorithmSwitchChanged (value : bool)
  | RunReconAllSwitchChanged (value : bool)
  | InitialVolumesConfirmed (input_value : string)
  | InitialVolumesCancelled.

Definition Preprocessing_handle (self : Preprocessing)
    (event : Preprocessing_event) : Preprocessing :=
  match event with
  | ViaAlgorithmSwitchChanged value => _on_via_algorithm_switch_changed self value
  | RunReconAllSwitchChanged value => on_run_recon_all_switch_changed self value
  | InitialVolumesConfirmed input_value =>
      update_remove_initial_volumes_value self
        (_on_ok_button_pressed input_value)
  | InitialVolumesCancelled =>
      update_remove_initial_volumes_value self _on_cancel_button_pressed
  end.

(** The value of the last event of the recon-all switch, if there is one. *)
Definition last_run_reconall (events : list Preprocessing_event) : option bool :=
  last (omap (λ event,
                match event with
                | RunReconAllSwitchChanged value => Some value
                | _ => None
                end) events).

(** The text the last confirmed modal leaves in the widget. *)
Definition last_confirmed (events : list Preprocessing_event) : option string :=
  last (omap (λ event,
                match event with
                | InitialVolumesConfirmed input_value =>
                    Some (if bool_decide (input_value = "") then "0"
                          else input_value)
                | _ => None
                end) events).

(** ** The events of the file browser *)

(** [on_filtered_directory_tree_directory_selected]: the path of the
    directory goes to the input of the modal. *)
Definition on_filtered_directory_tree_directory_selected
    (screen : FileBrowserScreen) (message_path : string) : FileBrowserScreen :=
  {| screen_path_to := screen_path_to screen;
     path_input_box2 := message_path;
     selected_directory := Some message_path |}.

(** [FileBrowserScreen.update_from_input], on the input being submitted. *)
Definition FileBrowserScreen_update_from_input (screen : FileBrowserScreen)
    : FileBrowserScreen :=
  {| screen_path_to := screen_path_to screen;
     path_input_box2 := path_input_box2 screen;
     selected_directory := Some (path_input_box2 screen) |}.

(** The user types in the input of the modal. *)
Definition type_path (screen : FileBrowserScreen) (text : string)
    : FileBrowserScreen :=
  {| screen_path_to := screen_path_to screen;
     path_input_box2 := text;
     selected_directory := selected_directory screen |}.

(** The modal as [compose] lays it out. *)
Definition FileBrowserScreen_compose (path_to : string) : FileBrowserScreen :=
  {| screen_path_to := path_to; path_input_box2 := "";
     selected_directory := None |}.

Inductive FileBrowserScreen_event : Type :=
  | DirectorySelected (path : string)
  | InputChanged (text : string)
  | InputSubmitted.

Definition FileBrowserScreen_handle (screen : FileBrowserScreen)
    (event : FileBrowserScreen_event) : FileBrowserScreen :=
  match event with
  | DirectorySelected path =>
      on_filtered_directory_tree_directory_selected screen path
  | InputChanged text => type_path screen text
  | InputSubmitted => FileBrowserScreen_update_from_input screen
  end.

(** One use of the Browse button: the modal is composed, the user acts
    on it, and closes it with Ok ([confirm]) or with Cancel or escape. *)
Definition browse_session (self : FileBrowser)
    (session : list FileBrowserScreen_event * bool) : FileBrowser :=
  let screen :=
    foldl FileBrowserScreen_handle (FileBrowserScreen_compose (path_to self))
      session.1 in
  browse self
    (if session.2 then _confirm_window screen else _cancel_window screen).

(** The text the modal shows at the end of a session. *)
Definition shown_path (events : list FileBrowserScreen_event) : string :=
  default ""
    (last (omap (λ event,
                   match event with
                   | DirectorySelected path => Some path
                   | InputChanged text => Some text
                   | InputSubmitted => None
                   end) events)).

(** The payload the callback of the control is called with. *)
Definition session_payload (session : list FileBrowserScreen_event * bool)
    : option string :=
  if session.2 then Some (shown_path session.1) else None.

(** The selections for which the callback does anything: every payload
    but the empty text. *)
Definition taken_up (payload : option string) : Prop := payload ≠ Some "".

#[global] Instance taken_up_dec payload : Decision (taken_up payload).
Proof. unfold taken_up. apply _. Defined.

(** ** A table-backed database and translator for the examples *)

(** The tags of each known file. *)
Definition tag_table : Type := list (string * list (string * string)).

Fixpoint assoc {A : Type} (key : string) (l : list (string * A)) : option A :=
  match l with
  | [] => None
  | (k, v) :: l => if decide (k = key) then Some v else assoc key l
  end.

Definition table_tagval (files : tag_table) (path tag : string)
    : option string :=
  match assoc path files with
  | Some tags => assoc tag tags
  | None => None
  end.

(** The other files whose tags agree with every keyword; None when there
    is none. *)
Definition table_associations (files : tag_table) (path : string)
    (filters : kwargs) : option (list string) :=
  let agrees (q : string) : bool :=
    bool_decide (q ≠ path) &&
    forallb (λ kv, bool_decide (table_tagval files q kv.1 = kv.2)) filters in
  match List.filter agrees (files.*1) with
  | [] => None
  | found => Some found
  end.

Definition table_database (files : tag_table)
    (headers : list (string * list (string * string))) : Database string :=
  {| tagval := table_tagval files;
     associations := table_associations files;
     get := λ filters,
       List.filter
         (λ q, forallb (λ kv, bool_decide (table_tagval files q kv.1 = kv.2))
                 filters) (files.*1);
     fromspecfileobj := λ path,
       List.filter (λ q, String.prefix path q) (files.*1);
     sidecar := table_tagval headers |}.

Definition empty_store : store string := {| filled := ∅; log := [] |}.

(** A stand-in for [canonicalize_direction_code]: the six axis codes are
    canonical already, anything else is refused. *)
Definition axis_code (v : option string) (path : string) : result string :=
  match v with
  | Some code =>
      if bool_decide (code ∈ ["i"; "j"; "k"; "i-"; "j-"; "k-"])
      then Ok code else Raise ValueError
  | None => Raise TypeError
  end.

(** A stand-in for sdcflows' [check_pes]: some field map must be encoded
    along the axis of the BOLD run with the opposite polarity. *)
Definition opposed_pes (epi_fmaps : list (string * string)) (pe_dir : string)
    : result bool :=
  let matched := existsb (λ fm, bool_decide (fm.2 = pe_dir)) epi_fmaps in
  let opposed :=
    existsb (λ fm, bool_decide (fm.2 ≠ pe_dir) &&
                   bool_decide (String.get 0 fm.2 = String.get 0 pe_dir))
      epi_fmaps in
  if opposed then Ok matched else Raise ValueError.

(** The state of the BIDS path translator ([BidsDatabase], which is
    missing from the sources): the files registered, each with its
    canonical path, in the order they were put; empty at first. *)
Definition bids_state : Type := list (string * string).

(** A stand-in for the derivation of the canonical path from the tags of
    a file: subject, task and suffix; there is none when one of them is
    missing. *)
Definition bids_path_of_tags (files : tag_table) (path : string)
    : option string :=
  match table_tagval files path "sub", table_tagval files path "task",
        table_tagval files path "suffix" with
  | Some sub, Some task, Some suffix =>
      Some ("sub-" +:+ sub +:+ "_task-" +:+ task +:+ "_" +:+ suffix)
  | _, _, _ => None
  end.

(** Modelled from the spec: [BidsDatabase.put] is missing from the
    sources.  It registers a file under the canonical path derived from
    its tags, and keeps the mapping from files to paths one-to-one: it
    fails, with the ValueError that collect_bold_files catches, when
    another file already holds that path.  A file that is registered
    already is left as it is.  Of a file whose tags give no path the spec
    says nothing: it is refused in the same way. *)
Definition BidsDatabase_put (bids_path_of : string → option string)
    (path : string) : M bids_state () :=
  λ registered,
    match assoc path registered with
    | Some _ => (Ok (), registered)
    | None =>
        match bids_path_of path with
        | None => (Raise ValueError, registered)
        | Some bids_path =>
            if existsb (λ entry, bool_decide (entry.2 = bids_path)) registered
            then (Raise ValueError, registered)
            else (Ok (), registered ++ [(path, bids_path)])
        end
    end.

(** [put] for the files of a table. *)
Definition table_put (files : tag_table) : string → M bids_state () :=
  BidsDatabase_put (bids_path_of_tags files).

(** Modelled from the spec: [BidsDatabase.to_bids] is missing from the
    sources.  It returns the canonical path of a file that was put; for
    any other file, of which the spec says nothing, there is none. *)
Definition table_to_bids (path : string) : M bids_state (option string) :=
  λ registered, (Ok (assoc path registered), registered).

(** No two files registered hold the same path. *)
Definition one_file_per_path (registered : bids_state) : Prop :=
  ∀ q q' b,
    assoc q registered = Some b → assoc q' registered = Some b → q = q'.

(** Every group of [bids_dict] holds one run, registered under the key of
    the group. *)
Definition registered_groups (registered : bids_state)
    (bids_dict : bids_dict_t) : Prop :=
  Forall (λ item, ∃ q, item.2 = ({[q]} : gset string) ∧
                       assoc q registered = Some item.1) bids_dict.

(** *** Two BOLD runs with the same tags, of 120 and 200 volumes *)

Definition duplicate_runs : tag_table :=
  [("/data/a_bold.nii.gz",
    [("sub", "01"); ("task", "rest"); ("datatype", "func"); ("suffix", "bold")]);
   ("/data/b_bold.nii.gz",
    [("sub", "01"); ("task", "rest"); ("datatype", "func"); ("suffix", "bold")]);
   ("/data/T1w.nii.gz",
    [("sub", "01"); ("datatype", "anat"); ("suffix", "T1w")])].

Definition duplicate_runs_nvol (path : string) : Z :=
  if decide (path = "/data/a_bold.nii.gz") then 120
  else if decide (path = "/data/b_bold.nii.gz") then 200
  else 0.

Definition duplicate_runs_sources : gset string :=
  {["/data/a_bold.nii.gz"; "/data/b_bold.nii.gz"]}.

(** collect_bold_files on the two runs. *)
Definition collect_duplicate_runs
    : result (gmap string (list string)) * store string :=
  collect_bold_files elements axis_code opposed_pes duplicate_runs_nvol
    (λ _, []) (table_put duplicate_runs) table_to_bids
    (table_database duplicate_runs [])
    duplicate_runs_sources ∅ empty_store.

(** *** A BOLD run without a task tag, for which no BIDS path is built *)

Definition untagged_run : tag_table :=
  [("/data/x_bold.nii.gz",
    [("sub", "01"); ("datatype", "func"); ("suffix", "bold")]);
   ("/data/T1w.nii.gz",
    [("sub", "01"); ("datatype", "anat"); ("suffix", "T1w")])].

(** *** A BOLD run with a phasediff map, a fieldmap and a magnitude image *)

Definition phasediff_group : tag_table :=
  [("/data/sub-01_bold.nii.gz",
    [("sub", "01"); ("task", "rest"); ("datatype", "func"); ("suffix", "bold")]);
   ("/data/sub-01_phasediff.nii.gz",
    [("sub", "01"); ("datatype", "fmap"); ("suffix", "phasediff")]);
   ("/data/sub-01_fieldmap.nii.gz",
    [("sub", "01"); ("datatype", "fmap"); ("suffix", "fieldmap")]);
   ("/data/sub-01_magnitude.nii.gz",
    [("sub", "01"); ("datatype", "fmap"); ("suffix", "magnitude")])].

Definition collect_phasediff_group : result (list string) * store string :=
  collect_fieldmaps elements axis_code opposed_pes
    (table_database phasediff_group []) "/data/sub-01_bold.nii.gz" false
    empty_store.

(** *** A BOLD run with two opposed epi maps and a complete phasediff map *)

Definition pepolar_group : tag_table :=
  [("/data/sub-01_bold.nii.gz",
    [("sub", "01"); ("task", "rest"); ("datatype", "func"); ("suffix", "bold")]);
   ("/data/sub-01_dir-AP_epi.nii.gz",
    [("sub", "01"); ("datatype", "fmap"); ("suffix", "epi")]);
   ("/data/sub-01_dir-PA_epi.nii.gz",
    [("sub", "01"); ("datatype", "fmap"); ("suffix", "epi")]);
   ("/data/sub-01_phasediff.nii.gz",
    [("sub", "01"); ("datatype", "fmap"); ("suffix", "phasediff")]);
   ("/data/sub-01_magnitude1.nii.gz",
    [("sub", "01"); ("datatype", "fmap"); ("suffix", "magnitude1")])].

Definition pepolar_headers : list (string * list (string * string)) :=
  [("/data/sub-01_bold.nii.gz", [("phase_encoding_direction", "j")]);
   ("/data/sub-01_dir-AP_epi.nii.gz", [("phase_encoding_direction", "j-")]);
   ("/data/sub-01_dir-PA_epi.nii.gz", [("phase_encoding_direction", "j")])].

Definition pepolar_database : Database string :=
  table_database pepolar_group pepolar_headers.

(** *** A field map candidate that carries no suffix tag *)

Definition untagged_fieldmap : tag_table :=
  [("/data/sub-01_bold.nii.gz",
    [("sub", "01"); ("task", "rest"); ("datatype", "func"); ("suffix", "bold")]);
   ("/data/sub-01_scan.nii.gz", [("sub", "01"); ("datatype", "fmap")])].

(** *** Reference images and their template space *)

Definition atlases : tag_table :=
  [("/ref/a.nii.gz", [("datatype", "ref"); ("suffix", "atlas")]);
   ("/ref/b.nii.gz", [("datatype", "ref"); ("suffix", "atlas")]);
   ("/ref/c.nii.gz", [("datatype", "ref"); ("suffix", "atlas")])].

(** Two images in the 2009c space and one in the 6th generation space. *)
Definition spaces_2_1 : list (string * list (string * string)) :=
  [("/ref/a.nii.gz", [("space", "MNI152NLin2009cAsym")]);
   ("/ref/b.nii.gz", [("space", "MNI152NLin6Asym")]);
   ("/ref/c.nii.gz", [("space", "MNI152NLin2009cAsym")])].

(** One image in the 2009c space and two in the 6th generation space. *)
Definition spaces_1_2 : list (string * list (string * string)) :=
  [("/ref/a.nii.gz", [("space", "MNI152NLin6Asym")]);
   ("/ref/b.nii.gz", [("space", "MNI152NLin2009cAsym")]);
   ("/ref/c.nii.gz", [("space", "MNI152NLin6Asym")])].

(** Only one of the three images declares its space. *)
Definition spaces_partial : list (string * list (string * string)) :=
  [("/ref/a.nii.gz", [("space", "MNI152NLin6Asym")])].

Definition atlas_filters : option kwargs := Some [("datatype", Some "ref")].

(** A check step over the reference images: text values compared as
    text; the humanizer and the direction and slice timing formatters are
    stand-ins that the key [space] and the two template names never
    reach. *)
Definition check_atlases (key : string)
    (headers : list (string * list (string * string)))
    : result CheckMetadataStep * store string :=
  setup String.le id id id (λ v _, v) id id key atlas_filters None false
    (table_database atlases headers) [] empty_store.

(** The step a run of [setup] has produced, or the skipped step. *)
Definition step_of (r : result CheckMetadataStep * store string)
    : CheckMetadataStep :=
  match r.1 with
  | Ok self => self
  | Raise _ =>
      {| is_first_run := true; should_skip := true; choice := None;
         is_missing := true; suggestion := None; views := [] |}
  end.

Definition user_says (answer : string) : terminal :=
  {| answers := [Some answer]; prompts := 0 |}.

(** What the duplicate resolution keeps of a group of the two runs: the
    run of 200 volumes. *)
Definition duplicate_runs_kept : gmap string (list string) :=
  {["/data/b_bold.nii.gz" := ["/data/b_bold.nii.gz"; "/data/T1w.nii.gz"]]}.

(** Both runs with their associated files, as they stand before the
    duplicate resolution. *)
Definition duplicate_runs_all : gmap string (list string) :=
  <["/data/a_bold.nii.gz" := ["/data/a_bold.nii.gz"; "/data/T1w.nii.gz"]]>
    {["/data/b_bold.nii.gz" := ["/data/b_bold.nii.gz"; "/data/T1w.nii.gz"]]}.

(** The values of the three reference images of [spaces_2_1]. *)
Definition cells_2_1 : list (cell (V := string)) :=
  [Raw "MNI152NLin2009cAsym"; Raw "MNI152NLin6Asym"; Raw "MNI152NLin2009cAsym"].

(** ** Further inputs for the examples *)

(** A field map candidate without a suffix tag, next to a BOLD run that
    has an anatomical image. *)
Definition untagged_fieldmap_run : tag_table :=
  [("/data/sub-01_bold.nii.gz",
    [("sub", "01"); ("task", "rest"); ("datatype", "func"); ("suffix", "bold")]);
   ("/data/sub-01_scan.nii.gz", [("sub", "01"); ("datatype", "fmap")]);
   ("/data/T1w.nii.gz",
    [("sub", "01"); ("datatype", "anat"); ("suffix", "T1w")])].

(** The group the two duplicate runs fall into. *)
Definition duplicate_runs_group : bids_dict_t :=
  [("sub-01_task-rest_bold", duplicate_runs_sources)].

(** Two BOLD runs of a task with the same event files: one in the BIDS
    layout, one condition file of FSL. *)
Definition event_files : tag_table :=
  [("/data/sub-01_run-1_bold.nii.gz",
    [("sub", "01"); ("task", "rest"); ("datatype", "func"); ("suffix", "bold")]);
   ("/data/sub-01_run-2_bold.nii.gz",
    [("sub", "01"); ("task", "rest"); ("datatype", "func"); ("suffix", "bold")]);
   ("/data/task-rest_events.tsv",
    [("task", "rest"); ("datatype", "func"); ("suffix", "events");
     ("extension", ".tsv")]);
   ("/data/sub-01_cond.txt",
    [("sub", "01"); ("task", "rest"); ("datatype", "func");
     ("suffix", "events"); ("extension", ".txt"); ("condition", "go")])].

(** A stand-in for the conditions a [ConditionFile] reads: those the
    entries name. *)
Definition named_conditions (event_file_paths : list condition_file)
    : list string :=
  omap (λ cf, match cf with
              | ConditionPair _ condition => Some condition
              | EventsPath _ => None
              end) event_file_paths.

(** [get_conditions] over the two runs, unfiltered. *)
Definition event_files_conditions : result (list string) :=
  get_conditions (F := ()) elements
    (λ _, Some ["/data/sub-01_run-1_bold.nii.gz";
                "/data/sub-01_run-2_bold.nii.gz"])
    (λ bold_file_paths _, bold_file_paths)
    (collect_events (table_database event_files []))
    named_conditions None.

(** A field for the template space, with the two template names for
    choices, and one for the repetition time; their [deserialize] takes
    the text as it is. *)
Definition text_of (input : field_input ()) : result string :=
  match input with
  | Entered text => Ok text
  | Loaded _ => Raise TypeError
  end.

Definition space_field : field () string :=
  {| validate_choices := Some ["MNI152NLin6Asym"; "MNI152NLin2009cAsym"];
     field_class_of := OtherField;
     deserialize := text_of |}.

Definition repetition_time_field : field () string :=
  {| validate_choices := None; field_class_of := FloatField;
     deserialize := text_of |}.

(** A spec with two files, of which the last has an echo time. *)
Definition two_spec_files : list (option (gmap string string)) :=
  [None; Some {["echo_time" := "0.03"]}].

(* ===================================================================== *)
(** * Part II: properties                                                  *)
(* ===================================================================== *)


(** ** Sorting a set of paths *)

Lemma sorted_Sorted (X : gset string) : StronglySorted String.le (sorted X).
Proof. apply StronglySorted_merge_sort; apply _. Qed.

Lemma sorted_Permutation (X : gset string) : sorted X ≡ₚ elements X.
Proof. apply merge_sort_Permutation. Qed.

Lemma elem_of_sorted (X : gset string) (x : string) : x ∈ sorted X ↔ x ∈ X.
Proof. by rewrite sorted_Permutation, elem_of_elements. Qed.

Lemma NoDup_sorted (X : gset string) : NoDup (sorted X).
Proof. rewrite sorted_Permutation. apply NoDup_elements. Qed.

Lemma StronglySorted_filter {A : Type} (R : relation A) (P : A → Prop)
    `{∀ x, Decision (P x)} (l : list A) :
  StronglySorted R l → StronglySorted R (filter P l).
Proof.
  induction 1 as [|x l Hl IH Hx]; [constructor|].
  rewrite filter_cons. case_decide; [|done].
  constructor; [done|].
  rewrite Forall_forall in Hx |- *.
  intros y [_ Hy]%list_elem_of_filter. by apply Hx.
Qed.

(** ** collect_events *)

Section collect_events_facts.
Context {V : Type} (database : Database V).

Lemma collect_events_body_cases sub acc c :
  let declared := tagval database c "sub" in
  (declared ≠ None ∧ declared ≠ sub ∧
     collect_events_body database sub acc c = Ok acc) ∨
  ((declared = None ∨ declared = sub) ∧
     ((∃ cf, collect_events_body database sub acc c = Ok (acc ++ [cf]) ∧
             condition_file_path cf = c ∧ event_entry_of database cf) ∨
      (collect_events_body database sub acc c = Raise AssertionError ∧
       tagval database c "extension" = Some ".txt" ∧
       tagval database c "condition" = None))).
Proof.
  intros declared. unfold collect_events_body. fold declared.
  destruct (decide (declared = None)) as [Hn|Hn].
  - right. split; [by left|].
    rewrite (bool_decide_eq_false_2 (declared ≠ None)) by (intros ?; done).
    simpl. case_bool_decide as Hext.
    + destruct (tagval database c "condition") as [k|] eqn:Hk.
      * left. exists (ConditionPair c k). simpl. by repeat split.
      * right. by repeat split.
    + left. by exists (EventsPath c).
  - destruct (decide (declared = sub)) as [Hs|Hs].
    + right. split; [by right|].
      rewrite (bool_decide_eq_false_2 (declared ≠ sub)) by (intros ?; done).
      rewrite andb_false_r.
      case_bool_decide as Hext.
      * destruct (tagval database c "condition") as [k|] eqn:Hk.
        -- left. exists (ConditionPair c k). simpl. by repeat split.
        -- right. by repeat split.
      * left. by exists (EventsPath c).
    + left. split; [done|]. split; [done|].
      by rewrite (bool_decide_eq_true_2 _ Hn), (bool_decide_eq_true_2 _ Hs).
Qed.

Lemma collect_events_fold_Ok src l acc r :
  res_fold (collect_events_body database (tagval database src "sub")) acc l
    = Ok r →
  ∃ es, r = acc ++ es ∧
        condition_file_path <$> es = filter (subject_allowed database src) l ∧
        Forall (event_entry_of database) es.
Proof.
  revert acc r. induction l as [|c l IH]; intros acc r Hr; simpl in Hr.
  - exists []. simplify_eq. by rewrite app_nil_r.
  - destruct (collect_events_body_cases (tagval database src "sub") acc c)
      as [(Hn & Hs & Hb)|[Hallow [(cf & Hb & Hp & Hcf)|(Hb & _)]]];
      rewrite Hb in Hr; simpl in Hr; [| |done].
    + destruct (IH _ _ Hr) as (es & -> & Hpaths & Hes).
      exists es. split; [done|]. split; [|done].
      rewrite filter_cons_False; [done|].
      unfold subject_allowed. by intros [?|?].
    + destruct (IH _ _ Hr) as (es & -> & Hpaths & Hes).
      exists (cf :: es). rewrite <- app_assoc. split; [done|].
      split; [|by constructor].
      rewrite filter_cons_True by done. by rewrite fmap_cons, Hp, Hpaths.
Qed.

Lemma collect_events_fold_Raise src l acc e :
  res_fold (collect_events_body database (tagval database src "sub")) acc l
    = Raise e →
  e = AssertionError ∧
  ∃ c, c ∈ l ∧ subject_allowed database src c ∧
       tagval database c "extension" = Some ".txt" ∧
       tagval database c "condition" = None.
Proof.
  revert acc. induction l as [|c l IH]; intros acc Hr; simpl in Hr; [done|].
  destruct (collect_events_body_cases (tagval database src "sub") acc c)
    as [(Hn & Hs & Hb)|[Hallow [(cf & Hb & Hp & Hcf)|(Hb & Hext & Hcond)]]];
    rewrite Hb in Hr; simpl in Hr.
  - destruct (IH _ Hr) as (-> & c' & Hin & H'). split; [done|].
    exists c'. split; [by right|done].
  - destruct (IH _ Hr) as (-> & c' & Hin & H'). split; [done|].
    exists c'. split; [by right|done].
  - simplify_eq. split; [done|]. exists c. split; [by left|done].
Qed.

(** C6. collect_events never returns an events file that declares a
    subject other than the source file's; what it returns are exactly the
    candidates passing the subject check, without duplicates and in sorted
    order, a ".txt" candidate paired with its condition tag and any other
    as the bare path; the result is None when no candidate survives.  The
    only exception that escapes is the assertion on a surviving ".txt"
    candidate without a condition tag. *)
Theorem collect_events_scoped (source_file : string) :
  let candidates := event_candidates database source_file in
  match collect_events database source_file with
  | Ok r =>
      let returned := default [] r in
      let paths := condition_file_path <$> returned in
      (∀ cf, cf ∈ returned →
         condition_file_path cf ∈ candidates ∧
         subject_allowed database source_file (condition_file_path cf) ∧
         event_entry_of database cf) ∧
      (∀ c, c ∈ candidates → subject_allowed database source_file c →
            c ∈ paths) ∧
      StronglySorted String.le paths ∧ NoDup paths ∧
      (r = None ↔
         ∀ c, c ∈ candidates → ¬ subject_allowed database source_file c)
  | Raise e =>
      e = AssertionError ∧
      ∃ c, c ∈ candidates ∧ subject_allowed database source_file c ∧
           tagval database c "extension" = Some ".txt" ∧
           tagval database c "condition" = None
  end.
Proof.
  unfold collect_events, event_candidates.
  destruct (associations _ _ _) as [cands|] eqn:Hassoc; simpl.
  2:{ split_and!; [by intros ? ?%elem_of_nil|by intros ? ?%elem_of_nil|
        apply SSorted_nil|apply NoDup_nil_2|]. 
      split; [by intros _ ? ?%elem_of_nil|done]. }
  case_bool_decide as Hlen.
  { apply nil_length_inv in Hlen as ->. simpl.
    split_and!; [by intros ? ?%elem_of_nil|by intros ? ?%elem_of_nil|
      apply SSorted_nil|apply NoDup_nil_2|].
    split; [by intros _ ? ?%elem_of_nil|done]. }
  destruct (res_fold _ _ _) as [cfs|e] eqn:Hfold; simpl.
  - apply collect_events_fold_Ok in Hfold as (es & -> & Hpaths & Hes).
    simpl. assert (Hmem : ∀ c, c ∈ condition_file_path <$> es ↔
        subject_allowed database source_file c ∧ c ∈ cands).
    { intros c. rewrite Hpaths, list_elem_of_filter, elem_of_sorted.
      by rewrite elem_of_list_to_set. }
    assert (Hsorted : StronglySorted String.le (condition_file_path <$> es)).
    { rewrite Hpaths. apply StronglySorted_filter, sorted_Sorted. }
    assert (Hnodup : NoDup (condition_file_path <$> es)).
    { rewrite Hpaths. apply NoDup_filter, NoDup_sorted. }
    assert (Hall : ∀ cf, cf ∈ es →
       condition_file_path cf ∈ cands ∧
       subject_allowed database source_file (condition_file_path cf) ∧
       event_entry_of database cf).
    { intros cf Hcf. rewrite Forall_forall in Hes.
      destruct (proj1 (Hmem (condition_file_path cf))) as [? ?];
        [by apply list_elem_of_fmap_2|]. auto. }
    assert (Hcover : ∀ c, c ∈ cands → subject_allowed database source_file c →
       c ∈ condition_file_path <$> es).
    { intros c ? ?. by apply Hmem. }
    case_bool_decide as Hpos; simpl.
    + split_and!; [done..|]. split; [done|].
      intros Hnone. destruct es as [|cf es]; [simpl in Hpos; lia|].
      destruct (Hall cf) as (Hc & Ha & _); [by left|].
      by destruct (Hnone _ Hc).
    + destruct es as [|cf es]; [|simpl in Hpos; lia].
      split_and!; [by intros ? ?%elem_of_nil|done|apply SSorted_nil|
        apply NoDup_nil_2|].
      split; [|done]. intros _ c Hc Hallow.
      by apply (elem_of_nil c), Hcover.
  - apply collect_events_fold_Raise in Hfold as (-> & c & Hin & H').
    split; [done|]. exists c. split; [|done].
    by apply elem_of_sorted, elem_of_list_to_set in Hin.
Qed.

End collect_events_facts.

(** ** The state monad: inversion of a bind *)

Lemma m_bind_Ok {St A B : Type} (c : M St A) (k : A → M St B) s b s' :
  m_bind c k s = (Ok b, s') →
  ∃ a s1, c s = (Ok a, s1) ∧ k a s1 = (Ok b, s').
Proof.
  unfold m_bind. destruct (c s) as [[a|e] s1]; [eauto|done].
Qed.

Lemma m_bind_eq_Ok {St A B : Type} (c : M St A) (k : A → M St B) s a s1 :
  c s = (Ok a, s1) → m_bind c k s = k a s1.
Proof. unfold m_bind. by intros ->. Qed.

Lemma m_bind_eq_Raise {St A B : Type} (c : M St A) (k : A → M St B) s e s1 :
  c s = (Raise e, s1) → m_bind c k s = (Raise e, s1).
Proof. unfold m_bind. by intros ->. Qed.

Lemma m_bind_lift {St A B : Type} (r : result A) (k : A → M St B) s :
  m_bind (m_lift r) k s =
    match r with
    | Ok a => k a s
    | Raise e => (Raise e, s)
    end.
Proof. by destruct r. Qed.

Lemma m_bind_ret {St A B : Type} (a : A) (k : A → M St B) s :
  m_bind (m_ret a) k s = k a s.
Proof. done. Qed.

(** ** The metadata cache *)

Section database_state_facts.
Context {V : Type} (database : Database V).

Lemma backfilled_None (s : store V) f k :
  backfilled database s f k = None → filled s !! (f, k) = None.
Proof. unfold backfilled. by destruct (filled s !! (f, k)). Qed.

Lemma fillmetadata_one key c (s : store V) :
  ∃ s1, fillmetadata database key [c] s = (Ok (), s1) ∧
        filled s1 !! (c, key) = backfilled database s c key ∧
        log s1 = log s ∧
        (∀ f k, backfilled database s1 f k = backfilled database s f k) ∧
        (∀ x v, filled s !! x = Some v → filled s1 !! x = Some v) ∧
        (backfilled database s c key = None → s1 = s).
Proof.
  unfold fillmetadata, m_modify, backfilled. simpl.
  eexists. split; [done|]. simpl.
  destruct (filled s !! (c, key)) as [v|] eqn:Hc;
    [|destruct (sidecar database c key) as [v|] eqn:Hside].
  - rewrite Hc. split_and!; [done..|]. by destruct s.
  - rewrite lookup_insert_eq. split_and!; [done|done| | |done].
    + intros f k. destruct (decide ((c, key) = (f, k))) as [[= <- <-]|Hne].
      * by rewrite lookup_insert_eq, Hc, Hside.
      * by rewrite lookup_insert_ne.
    + intros x w Hx. rewrite lookup_insert_ne; [done|]. congruence.
  - rewrite Hc. split_and!; [done..|]. by destruct s.
Qed.

Lemma fillmetadata_cons key c files (s : store V) :
  fillmetadata database key (c :: files) s =
    m_bind (fillmetadata database key [c])
      (λ _, fillmetadata database key files) s.
Proof. done. Qed.

(** After back-filling, the cache answers for every file of the list what
    [backfilled] says, and what it answered before is kept. *)
Lemma fillmetadata_spec key files (s : store V) :
  ∃ s1, fillmetadata database key files s = (Ok (), s1) ∧
        log s1 = log s ∧
        (∀ f k, backfilled database s1 f k = backfilled database s f k) ∧
        (∀ x v, filled s !! x = Some v → filled s1 !! x = Some v) ∧
        (∀ f, f ∈ files →
              filled s1 !! (f, key) = backfilled database s f key) ∧
        ((∀ f, f ∈ files → backfilled database s f key = None) → s1 = s).
Proof.
  revert s. induction files as [|c files IH]; intros s.
  { exists s. split_and!; try done.
    - by destruct s.
    - by intros ? ?%elem_of_nil. }
  destruct (fillmetadata_one key c s)
    as (s1 & Hone & Hc & Hlog1 & Hkeep1 & Hmono1 & Hsame1).
  destruct (IH s1) as (s2 & Hrest & Hlog2 & Hkeep2 & Hmono2 & Hin2 & Hsame2).
  exists s2. rewrite fillmetadata_cons, (m_bind_eq_Ok _ _ _ _ _ Hone).
  split_and!; [done|congruence| |by auto| |].
  - intros f k. by rewrite Hkeep2, Hkeep1.
  - intros f [->|Hf]%elem_of_cons.
    + destruct (backfilled database s c key) as [v|] eqn:Hv.
      * by apply Hmono2.
      * apply backfilled_None. by rewrite Hkeep2, Hkeep1.
    + by rewrite (Hin2 f Hf), Hkeep1.
  - intros Hnone. rewrite <- (Hsame1 (Hnone c ltac:(by left))).
    apply Hsame2. intros f Hf. rewrite Hkeep1. apply Hnone. by right.
Qed.

Lemma metadata_mapM key files (s : store V) :
  m_mapM (λ filepath, metadata filepath key) files s =
    (Ok ((λ filepath, filled s !! (filepath, key)) <$> files), s).
Proof.
  induction files as [|c files IH]; simpl; [done|].
  unfold m_bind at 1. unfold metadata at 1.
  by rewrite (m_bind_eq_Ok _ _ _ _ _ IH).
Qed.

End database_state_facts.

(** ** collect_fieldmaps: the magnitude pass *)

Lemma magnitude_map_lookup (suffix : string) :
  magnitude_map !! suffix =
    if decide (suffix ∈ ["phase1"; "phase2"; "phasediff"])
    then Some ["magnitude1"; "magnitude2"]
    else if decide (suffix = "fieldmap") then Some ["magnitude"] else None.
Proof.
  unfold magnitude_map. simpl.
  rewrite !lookup_insert, lookup_empty.
  repeat case_decide; set_solver.
Qed.

Section collect_fieldmaps_facts.
Context {V : Type}.
Context (set_order : gset string → list string).
Hypothesis set_order_perm : ∀ X, set_order X ≡ₚ elements X.
Context (canonicalize_direction_code : option V → string → result string).
Context (check_pes : list (string * string) → string → result bool).
Context (database : Database V).

#[local] Abbreviation collect_pe_dir' :=
  (collect_pe_dir canonicalize_direction_code database).
#[local] Abbreviation filter_phase_maps' := (filter_phase_maps set_order database).
#[local] Abbreviation filter_pepolar' :=
  (filter_pepolar set_order canonicalize_direction_code check_pes database).
#[local] Abbreviation collect_fieldmaps' :=
  (collect_fieldmaps set_order canonicalize_direction_code check_pes database).

Lemma elem_of_set_order (X : gset string) (x : string) :
  x ∈ set_order X ↔ x ∈ X.
Proof. by rewrite set_order_perm, elem_of_elements. Qed.

Lemma has_magnitude_spec (magnitude : list string) (candidates : gset string) :
  existsb (suffix_in database magnitude) (set_order candidates) = true ↔
  ∃ c', c' ∈ candidates ∧ tagval database c' "suffix" ∈ (Some <$> magnitude).
Proof.
  rewrite existsb_exists. unfold suffix_in. split.
  - intros (c' & Hin%list_elem_of_In%elem_of_set_order & Hs).
    exists c'. split; [done|].
    destruct (tagval database c' "suffix") as [sfx|]; [|done].
    apply bool_decide_eq_true in Hs. by apply list_elem_of_fmap_2.
  - intros (c' & Hin & Hs). exists c'.
    split; [by apply list_elem_of_In, elem_of_set_order|].
    apply list_elem_of_fmap in Hs as (sfx & -> & Hsfx).
    by apply bool_decide_eq_true.
Qed.

Lemma phase_maps_body_Ok candidates incomplete c incomplete' :
  phase_maps_body set_order database candidates incomplete c = Ok incomplete' →
  ∀ x, x ∈ incomplete' ↔
       x ∈ incomplete ∨ (x = c ∧ lacks_magnitude database candidates c).
Proof.
  unfold phase_maps_body, lacks_magnitude.
  destruct (tagval database c "suffix") as [suffix|] eqn:Hsuffix; [|done].
  rewrite magnitude_map_lookup.
  destruct (decide (suffix ∈ _)) as [Hphase|Hphase].
  - destruct (existsb _ _) eqn:Hex; simpl; intros [= <-] x.
    + apply has_magnitude_spec in Hex. split; [by left|].
      intros [?|[_ [[_ Hno]|[[= ->] _]]]]; [done|by destruct Hno|set_solver].
    + rewrite elem_of_union, elem_of_singleton.
      assert (Hno : ¬ ∃ c', c' ∈ candidates ∧
                tagval database c' "suffix" ∈ [Some "magnitude1"; Some "magnitude2"]).
      { intros Hc.
        apply (proj2 (has_magnitude_spec ["magnitude1"; "magnitude2"] _)) in Hc.
        congruence. }
      split; [intros [?| ->]; [by left|right]|intros [?|[-> _]]; by auto].
      split; [done|]. left. split; [|done].
      by apply (list_elem_of_fmap_2 Some) in Hphase.
  - destruct (decide (suffix = "fieldmap")) as [ ->|Hfm].
    + destruct (existsb _ _) eqn:Hex; simpl; intros [= <-] x.
      * apply has_magnitude_spec in Hex. split; [by left|].
        intros [?|[_ [[Hp _]|[_ Hno]]]]; [done|set_solver|].
        destruct Hno. destruct Hex as (c' & ? & Hc'). exists c'. set_solver.
      * rewrite elem_of_union, elem_of_singleton.
        assert (Hno : ¬ ∃ c', c' ∈ candidates ∧
                  tagval database c' "suffix" = Some "magnitude").
        { intros (c' & ? & Hc').
          assert (existsb (suffix_in database ["magnitude"])
                    (set_order candidates) = true); [|congruence].
          apply has_magnitude_spec. exists c'. set_solver. }
        split; [intros [?| ->]; [by left|right]|intros [?|[-> _]]; by auto].
        split; [done|]. by right.
    + intros [= <-] x. split; [by left|].
      intros [?|[_ [[Hp _]|[[= ->] _]]]]; [done| |done].
      destruct Hphase.
      change (Some suffix ∈ Some <$> ["phase1"; "phase2"; "phasediff"]) in Hp.
      by apply (list_elem_of_fmap_inj_2 Some) in Hp.
Qed.

Lemma phase_maps_body_Raise candidates incomplete c e :
  phase_maps_body set_order database candidates incomplete c = Raise e ↔
  e = AssertionError ∧ tagval database c "suffix" = None.
Proof.
  unfold phase_maps_body.
  destruct (tagval database c "suffix") as [suffix|]; [|naive_solver].
  destruct (magnitude_map !! suffix); [|naive_solver].
  destruct (negb _); naive_solver.
Qed.

Lemma phase_maps_fold_Ok candidates l incomplete incomplete' :
  res_fold (phase_maps_body set_order database candidates) incomplete l
    = Ok incomplete' →
  ∀ x, x ∈ incomplete' ↔
       x ∈ incomplete ∨ (x ∈ l ∧ lacks_magnitude database candidates x).
Proof.
  revert incomplete. induction l as [|c l IH]; intros incomplete Hf x;
    simpl in Hf.
  - simplify_eq. rewrite elem_of_nil. naive_solver.
  - destruct (phase_maps_body _ _ _ _ c) as [inc1|e] eqn:Hb; [|done].
    simpl in Hf. rewrite (IH _ Hf x), (phase_maps_body_Ok _ _ _ _ Hb x).
    rewrite elem_of_cons. naive_solver.
Qed.

Lemma phase_maps_fold_Raise candidates l incomplete e :
  res_fold (phase_maps_body set_order database candidates) incomplete l
    = Raise e →
  e = AssertionError ∧ ∃ c, c ∈ l ∧ tagval database c "suffix" = None.
Proof.
  revert incomplete. induction l as [|c l IH]; intros incomplete Hf;
    simpl in Hf; [done|].
  destruct (phase_maps_body _ _ _ _ c) as [inc1|e'] eqn:Hb; simpl in Hf.
  - destruct (IH _ Hf) as (-> & c' & ? & ?). split; [done|].
    exists c'. by rewrite elem_of_cons; auto.
  - simplify_eq. apply phase_maps_body_Raise in Hb as [-> ?].
    split; [done|]. exists c. by rewrite elem_of_cons; auto.
Qed.

Lemma phase_maps_fold_total candidates l incomplete :
  (∀ c, c ∈ l → is_Some (tagval database c "suffix")) →
  ∃ incomplete',
    res_fold (phase_maps_body set_order database candidates) incomplete l
      = Ok incomplete'.
Proof.
  intros Hl.
  destruct (res_fold _ _ _) as [inc|e] eqn:Hf; [by eexists|].
  apply phase_maps_fold_Raise in Hf as (_ & c & Hc & Hnone).
  destruct (Hl c Hc) as [? ?]. congruence.
Qed.

(** The first pass keeps exactly the candidates that do not lack their
    magnitude image. *)
Lemma filter_phase_maps_Ok candidates silent s kept s' :
  filter_phase_maps' candidates silent s = (Ok kept, s') →
  ∀ c, c ∈ kept ↔
       c ∈ candidates ∧ ¬ lacks_magnitude database candidates c.
Proof.
  unfold filter_phase_maps.
  intros (incomplete & s1 & Hinc & Hrest)%m_bind_Ok c.
  unfold m_lift in Hinc. injection Hinc as Hinc <-.
  pose proof (phase_maps_fold_Ok _ _ _ _ Hinc) as Hspec.
  assert (Hin : ∀ x, x ∈ incomplete ↔
            x ∈ candidates ∧ lacks_magnitude database candidates x).
  { intros x. rewrite Hspec, elem_of_set_order. set_solver. }
  case_bool_decide as Hsize.
  - apply m_bind_Ok in Hrest as (_ & s2 & _ & Hret).
    injection Hret as <- <-. rewrite elem_of_difference, Hin. tauto.
  - injection Hrest as <- <-.
    assert (incomplete = ∅) as ->.
    { apply leibniz_equiv, size_empty_iff. lia. }
    split; [|tauto]. intros Hc. split; [done|]. intros Hl.
    by apply (not_elem_of_empty (C := gset string) c), Hin.
Qed.

(** The second pass only removes candidates. *)
Lemma filter_pepolar_subseteq candidates bold silent s kept s' :
  filter_pepolar' candidates bold silent s = (Ok kept, s') →
  kept ⊆ candidates.
Proof.
  clear set_order_perm. unfold filter_pepolar.
  intros (epi_fmaps & s1 & _ & Hrest)%m_bind_Ok.
  case_bool_decide; [|by injection Hrest as <- <-].
  unfold m_try_ValueError in Hrest.
  destruct (m_bind _ _ s1) as [[r|e] s2] eqn:Hbody.
  - injection Hrest as <- <-.
    apply m_bind_Ok in Hbody as (? & ? & _ & Hbody).
    apply m_bind_Ok in Hbody as (? & ? & _ & Hbody).
    by injection Hbody as <- <-.
  - destruct e; try done.
    apply m_bind_Ok in Hrest as (? & ? & _ & Hret).
    injection Hret as <- <-. set_solver.
Qed.

(** C5. Whenever collect_fieldmaps returns, its first pass has kept
    exactly the candidates that are not a phase1, phase2 or phasediff map
    without a magnitude1 or magnitude2 candidate, nor a fieldmap without a
    magnitude candidate, and every path of the returned list is one of
    those. *)
Theorem collect_fieldmaps_magnitude_complete bold_file_path silent s l s' :
  collect_fieldmaps' bold_file_path silent s = (Ok l, s') →
  match fieldmap_query database bold_file_path with
  | None => l = []
  | Some found =>
      let candidates : gset string := list_to_set found in
      ∃ kept s1,
        filter_phase_maps' candidates silent s = (Ok kept, s1) ∧
        (∀ c, c ∈ kept ↔
              c ∈ candidates ∧ ¬ lacks_magnitude database candidates c) ∧
        (∀ c, c ∈ l → c ∈ kept)
  end.
Proof.
  unfold collect_fieldmaps.
  destruct (fieldmap_query database bold_file_path) as [cands|]; simpl.
  - intros (kept & s1 & Hpass1 & Hrest)%m_bind_Ok.
    apply m_bind_Ok in Hrest as (kept' & s2 & Hpass2 & Hret).
    injection Hret as <- <-.
    exists kept, s1. split; [done|].
    split; [by apply (filter_phase_maps_Ok _ _ _ _ _ Hpass1)|].
    intros c Hc%elem_of_sorted.
    by apply (filter_pepolar_subseteq _ _ _ _ _ _ Hpass2).
  - by intros [= <- <-].
Qed.

Lemma collect_pe_dir_spec c (s : store V) :
  ∃ s1,
    collect_pe_dir' c s =
      (canonicalize_direction_code
         (backfilled database s c "phase_encoding_direction") c, s1) ∧
    log s1 = log s ∧
    ∀ f k, backfilled database s1 f k = backfilled database s f k.
Proof.
  unfold collect_pe_dir, m_bind.
  destruct (fillmetadata_one database "phase_encoding_direction" c s)
    as (s1 & -> & Hval & Hlog & Hkeep & _).
  exists s1. unfold metadata, m_lift. by rewrite Hval.
Qed.

Lemma phase_maps_fold_suffix candidates l incomplete incomplete' :
  res_fold (phase_maps_body set_order database candidates) incomplete l
    = Ok incomplete' →
  ∀ c, c ∈ l → is_Some (tagval database c "suffix").
Proof.
  revert incomplete. induction l as [|c l IH]; intros incomplete Hf c' Hc';
    [by apply elem_of_nil in Hc'|].
  simpl in Hf.
  destruct (phase_maps_body _ _ _ _ c) as [inc1|e] eqn:Hb; [|done].
  apply elem_of_cons in Hc' as [ ->|Hc']; [|by eapply IH].
  unfold phase_maps_body in Hb.
  by destruct (tagval database c "suffix").
Qed.

Lemma filter_phase_maps_total candidates silent (s : store V) :
  (∀ c, c ∈ candidates → is_Some (tagval database c "suffix")) →
  ∃ kept s1,
    filter_phase_maps' candidates silent s = (Ok kept, s1) ∧
    kept ⊆ candidates ∧
    ∀ f k, backfilled database s1 f k = backfilled database s f k.
Proof.
  intros Hsuffix. unfold filter_phase_maps, m_bind, m_lift.
  destruct (phase_maps_fold_total candidates (set_order candidates) ∅)
    as [incomplete ->].
  { intros c ?%elem_of_set_order. auto. }
  case_bool_decide; [|by exists candidates, s].
  destruct silent; simpl.
  - exists (candidates ∖ incomplete), s. split; [done|]. set_solver.
  - eexists _, _. split; [done|]. split; [set_solver|done].
Qed.

Lemma epi_fmaps_fold_total l acc (s : store V) :
  (∀ c, c ∈ l → is_Some (tagval database c "suffix")) →
  (∀ c, c ∈ l → tagval database c "suffix" = Some "epi" →
     ∃ d, canonicalize_direction_code
            (backfilled database s c "phase_encoding_direction") c = Ok d) →
  ∃ epi_fmaps s1,
    m_fold (epi_fmaps_body canonicalize_direction_code database) acc l s
      = (Ok epi_fmaps, s1) ∧
    ∀ f k, backfilled database s1 f k = backfilled database s f k.
Proof.
  revert acc s. induction l as [|c l IH]; intros acc s Hsuffix Hcanon; simpl.
  { by exists acc, s. }
  unfold epi_fmaps_body at 1.
  destruct (Hsuffix c) as [suffix Hc]; [by left|]. rewrite Hc.
  case_bool_decide as Hepi.
  - rewrite m_bind_ret.
    destruct (IH acc s) as (r & s1 & -> & Hkeep).
    { intros c' ?. apply Hsuffix. by right. }
    { intros c' ?. apply Hcanon. by right. }
    by exists r, s1.
  - assert (suffix = "epi") as -> by (by destruct (decide (suffix = "epi"))).
    destruct (Hcanon c) as [d Hd]; [by left|done|].
    destruct (collect_pe_dir_spec c s) as (s1 & Hpe & _ & Hkeep1).
    rewrite Hd in Hpe.
    rewrite (m_bind_eq_Ok _ _ s (acc ++ [(c, d)]) s1)
      by (by rewrite (m_bind_eq_Ok _ _ _ _ _ Hpe)).
    destruct (IH (acc ++ [(c, d)]) s1) as (r & s2 & -> & Hkeep).
    { intros c' ?. apply Hsuffix. by right. }
    { intros c' ? ?. rewrite Hkeep1. apply Hcanon; [by right|done]. }
    exists r, s2. split; [done|].
    intros f k. by rewrite Hkeep, Hkeep1.
Qed.

Lemma filter_pepolar_total candidates bold silent (s : store V) :
  (∀ c, c ∈ candidates → is_Some (tagval database c "suffix")) →
  (∀ c, c ∈ candidates → tagval database c "suffix" = Some "epi" →
     ∃ d, canonicalize_direction_code
            (backfilled database s c "phase_encoding_direction") c = Ok d) →
  (∀ e, canonicalize_direction_code
          (backfilled database s bold "phase_encoding_direction") bold
          = Raise e → e = ValueError) →
  (∀ epi_fmaps pe_dir e,
     check_pes epi_fmaps pe_dir = Raise e → e = ValueError) →
  ∃ kept s1, filter_pepolar' candidates bold silent s = (Ok kept, s1).
Proof.
  intros Hsuffix Hcanon Hbold Hcheck. unfold filter_pepolar.
  destruct (epi_fmaps_fold_total (set_order candidates) [] s)
    as (epi_fmaps & s1 & Hfold & Hkeep).
  { intros c ?%elem_of_set_order. auto. }
  { intros c ?%elem_of_set_order. auto. }
  unfold m_bind at 1. rewrite Hfold.
  case_bool_decide; [|by eexists _, _].
  unfold m_try_ValueError, m_bind at 1.
  destruct (collect_pe_dir_spec bold s1) as (s2 & -> & _ & _).
  rewrite Hkeep.
  destruct (canonicalize_direction_code _ bold) as [pe_dir|e] eqn:Hpe.
  - unfold m_bind at 1, m_lift.
    destruct (check_pes epi_fmaps pe_dir) as [matched|e] eqn:Hck.
    + by eexists _, _.
    + rewrite (Hcheck _ _ _ Hck). unfold m_bind.
      destruct silent; simpl; by eexists _, _.
  - rewrite (Hbold _ eq_refl). unfold m_bind.
    destruct silent; simpl; by eexists _, _.
Qed.

(** C8, as the code has it.  collect_fieldmaps returns its sorted result
    without raising when every candidate carries a suffix tag, the
    direction of each epi candidate canonicalizes, and neither the
    canonicalization of the BOLD file's direction nor check_pes raises
    anything but ValueError, which is caught. *)
Theorem collect_fieldmaps_returns bold_file_path silent (s : store V) :
  let found := default [] (fieldmap_query database bold_file_path) in
  (∀ c, c ∈ found → is_Some (tagval database c "suffix")) →
  (∀ c, c ∈ found → tagval database c "suffix" = Some "epi" →
     ∃ d, canonicalize_direction_code
            (backfilled database s c "phase_encoding_direction") c = Ok d) →
  (∀ e, canonicalize_direction_code
          (backfilled database s bold_file_path "phase_encoding_direction")
          bold_file_path = Raise e → e = ValueError) →
  (∀ epi_fmaps pe_dir e,
     check_pes epi_fmaps pe_dir = Raise e → e = ValueError) →
  ∃ l s',
    collect_fieldmaps' bold_file_path silent s = (Ok l, s') ∧
    StronglySorted String.le l ∧ NoDup l ∧ ∀ c, c ∈ l → c ∈ found.
Proof.
  intros found Hsuffix Hcanon Hbold Hcheck. unfold collect_fieldmaps.
  subst found.
  destruct (fieldmap_query database bold_file_path) as [found|]; simpl in *.
  2:{ exists [], s. split_and!; [done|constructor|constructor|done]. }
  destruct (filter_phase_maps_total (list_to_set found) silent s)
    as (kept & s1 & Hpass1 & Hsub1 & Hkeep1).
  { intros c ?%elem_of_list_to_set. auto. }
  destruct (filter_pepolar_total kept bold_file_path silent s1)
    as (kept' & s2 & Hpass2); [..|done|].
  { intros c ?%Hsub1%elem_of_list_to_set. auto. }
  { intros c ?%Hsub1%elem_of_list_to_set ?. rewrite Hkeep1. auto. }
  { by rewrite Hkeep1. }
  unfold m_bind at 1. rewrite Hpass1. unfold m_bind. rewrite Hpass2.
  eexists _, _. split; [done|].
  split; [apply sorted_Sorted|]. split; [apply NoDup_sorted|].
  intros c Hc%elem_of_sorted.
  apply (filter_pepolar_subseteq _ _ _ _ _ _ Hpass2) in Hc.
  by apply Hsub1, elem_of_list_to_set in Hc.
Qed.

(** An assertion does escape: a candidate without a suffix tag stops
    collect_fieldmaps in its first pass. *)
Lemma collect_fieldmaps_assertion bold_file_path silent (s : store V) found c :
  fieldmap_query database bold_file_path = Some found →
  c ∈ found → tagval database c "suffix" = None →
  collect_fieldmaps' bold_file_path silent s = (Raise AssertionError, s).
Proof.
  intros Hq Hc Hnone. unfold collect_fieldmaps. rewrite Hq.
  unfold m_bind at 1. unfold filter_phase_maps, m_bind at 1, m_lift.
  destruct (res_fold _ _ _) as [incomplete|e] eqn:Hfold.
  - destruct (phase_maps_fold_suffix _ _ _ _ Hfold c) as [? ?]; [|congruence].
    by apply elem_of_set_order, elem_of_list_to_set.
  - by apply phase_maps_fold_Raise in Hfold as [-> _].
Qed.

End collect_fieldmaps_facts.

(** ** collect_bold_files: grouping by BIDS path *)

Lemma in_groups_nil p : ¬ in_groups [] p.
Proof. by intros (b & S & ?%elem_of_nil & _). Qed.

Lemma in_groups_cons b S g p :
  in_groups ((b, S) :: g) p ↔ p ∈ S ∨ in_groups g p.
Proof.
  unfold in_groups. split.
  - intros (b' & S' & [[= -> ->]|Hin]%elem_of_cons & Hp); [by left|].
    right. by exists b', S'.
  - intros [Hp|(b' & S' & Hin & Hp)].
    + exists b, S. split; [by left|done].
    + exists b', S'. split; [by right|done].
Qed.

Lemma in_groups_add b p g x :
  in_groups (bids_dict_add b p g) x ↔ in_groups g x ∨ x = p.
Proof.
  induction g as [|[k S] g IH]; simpl.
  - rewrite in_groups_cons, elem_of_singleton.
    pose proof (in_groups_nil x). tauto.
  - destruct (decide (k = b)) as [ ->|Hne].
    + rewrite !in_groups_cons, elem_of_union, elem_of_singleton. tauto.
    + rewrite !in_groups_cons, IH. tauto.
Qed.

Lemma groups_disjoint_add b p g :
  groups_disjoint g → ¬ in_groups g p → groups_disjoint (bids_dict_add b p g).
Proof.
  induction g as [|[k S] g IH]; simpl; intros Hdis Hp.
  - split; [|done]. intros x _. apply in_groups_nil.
  - destruct Hdis as [HS Hdis]. rewrite in_groups_cons in Hp.
    destruct (decide (k = b)) as [ ->|Hne]; simpl.
    + split; [|done]. intros x [?| ->%elem_of_singleton]%elem_of_union;
        [by apply HS|tauto].
    + split; [|apply IH; tauto].
      intros x Hx. rewrite in_groups_add. intros [?| ->]; [by apply (HS x)|tauto].
Qed.

Lemma bids_dict_add_keys b p g :
  (bids_dict_add b p g).*1 = if decide (b ∈ g.*1) then g.*1 else g.*1 ++ [b].
Proof.
  induction g as [|[k S] g IH]; [done|]. cbn [bids_dict_add].
  destruct (decide (k = b)) as [->|Hne]; rewrite !fmap_cons; cbn [fst].
  - rewrite decide_True; [done|by left].
  - rewrite IH. destruct (decide (b ∈ g.*1)) as [Hin|Hout].
    + rewrite decide_True; [done|by right].
    + rewrite decide_False; [done|].
      by intros [?|?]%elem_of_cons.
Qed.

Lemma bids_dict_add_NoDup b p g :
  NoDup g.*1 → NoDup (bids_dict_add b p g).*1.
Proof.
  intros Hnd. rewrite bids_dict_add_keys. case_decide; [done|].
  apply NoDup_app. split; [done|]. split; [|apply NoDup_singleton].
  by intros x Hx ->%list_elem_of_singleton.
Qed.

Lemma groups_disjoint_unique g b S b' S' p :
  groups_disjoint g → (b, S) ∈ g → (b', S') ∈ g → p ∈ S → p ∈ S' →
  (b, S) = (b', S').
Proof.
  induction g as [|[k X] g IH]; simpl; intros Hdis Hin Hin' Hp Hp'.
  { by apply elem_of_nil in Hin. }
  destruct Hdis as [HX Hdis].
  apply elem_of_cons in Hin as [[= -> ->]|Hin];
    apply elem_of_cons in Hin' as [[= -> ->]|Hin']; [done| | |by apply IH].
  - destruct (HX p Hp). by exists b', S'.
  - destruct (HX p Hp'). by exists b, S.
Qed.

Lemma m_fold_app {St A S : Type} (body : S → A → M St S) acc l1 l2 s :
  m_fold body acc (l1 ++ l2) s =
    m_bind (m_fold body acc l1) (λ acc', m_fold body acc' l2) s.
Proof.
  revert acc s. induction l1 as [|x l1 IH]; intros acc s; simpl; [done|].
  unfold m_bind. destruct (body acc x s) as [[acc'|e] s1]; [|done].
  apply IH.
Qed.

(** *** Helpers on lists, maxima and deletions *)

Lemma foldl_Z_max_spec (v : Z) (values : list Z) :
  let m := foldl Z.max v values in
  m ∈ v :: values ∧ ∀ w, w ∈ v :: values → (w ≤ m)%Z.
Proof.
  revert v. induction values as [|u values IH]; intros v; simpl.
  { split; [by left|]. intros w ->%list_elem_of_singleton. lia. }
  destruct (IH (Z.max v u)) as [Hin Hmax]. split.
  - apply elem_of_cons in Hin as [ ->|Hin]; [|right; by right].
    destruct (Z.max_spec v u) as [[_ ->]|[_ ->]]; [right|]; by left.
  - intros w [ ->|[ ->|Hw]%elem_of_cons]%elem_of_cons.
    + etrans; [|apply Hmax; by left]. lia.
    + etrans; [|apply Hmax; by left]. lia.
    + apply Hmax. by right.
Qed.

Lemma py_max_Ok (values : list Z) (m : Z) :
  py_max values = Ok m → m ∈ values ∧ ∀ w, w ∈ values → (w ≤ m)%Z.
Proof.
  destruct values as [|v values]; [done|]. intros [= <-].
  apply foldl_Z_max_spec.
Qed.

Lemma last_StronglySorted (l : list string) (x : string) :
  StronglySorted String.le l → last l = Some x →
  x ∈ l ∧ ∀ y, y ∈ l → String.le y x.
Proof.
  intros Hs [l' ->]%last_Some. split; [set_solver|].
  intros y [Hy| ->%list_elem_of_singleton]%elem_of_app; [|done].
  eapply StronglySorted_app_1_elem_of; [done..|by left].
Qed.

Lemma py_del_fold_Ok {A : Type} (d : gmap string A) excluded d' :
  res_fold py_del d excluded = Ok d' →
  ∀ p, p ∈ dom d' ↔ p ∈ dom d ∧ p ∉ excluded.
Proof.
  revert d. induction excluded as [|x excluded IH]; intros d Hf p;
    simpl in Hf.
  { injection Hf as <-. rewrite elem_of_nil. tauto. }
  unfold py_del at 1 in Hf. destruct (d !! x) as [a|] eqn:Hx; [|done].
  simpl in Hf. rewrite (IH _ Hf p), dom_delete_L, elem_of_difference,
    elem_of_singleton, not_elem_of_cons. tauto.
Qed.

Lemma py_del_fold_total {A : Type} (d : gmap string A) (excluded : list string) :
  NoDup excluded → (∀ p, p ∈ excluded → p ∈ dom d) →
  ∃ d', res_fold py_del d excluded = Ok d'.
Proof.
  revert d. induction excluded as [|x excluded IH]; intros d Hnd Hin; simpl.
  { by eexists. }
  apply NoDup_cons in Hnd as [Hx Hnd]. unfold py_del at 1.
  destruct (d !! x) as [a|] eqn:Hdx; simpl.
  - apply IH; [done|]. intros p Hp.
    rewrite dom_delete_L, elem_of_difference, elem_of_singleton.
    split; [apply Hin; by right|]. by intros ->.
  - assert (x ∈ dom d) as [? ?]%elem_of_dom by (apply Hin; by left).
    congruence.
Qed.

Section collect_bold_files_facts.
Context {V BD : Type}.
Context (set_order : gset string → list string).
Hypothesis set_order_perm : ∀ X, set_order X ≡ₚ elements X.
Context (canonicalize_direction_code : option V → string → result string).
Context (check_pes : list (string * string) → string → result bool).
Context (nvol : string → Z).
Context (BidsDatabase : Database V → BD).
Context (put : string → M BD ()).
Context (to_bids : string → M BD (option string)).
Context (database : Database V).

#[local] Abbreviation canonical_bids_path' := (canonical_bids_path put to_bids).
#[local] Abbreviation bids_dict_body' := (bids_dict_body put to_bids).
#[local] Abbreviation group_by_bids_path' :=
  (group_by_bids_path set_order BidsDatabase put to_bids database).
#[local] Abbreviation select_bold_file_path' :=
  (select_bold_file_path set_order nvol).
#[local] Abbreviation duplicates_body' :=
  (duplicates_body (V := V) set_order nvol).
#[local] Abbreviation associated_files' :=
  (associated_files set_order canonicalize_direction_code check_pes database).
#[local] Abbreviation collect_bold_files' :=
  (collect_bold_files set_order canonicalize_direction_code check_pes nvol
     BidsDatabase put to_bids database).
#[local] Abbreviation not_preferred_to' := (not_preferred_to nvol).

Lemma NoDup_set_order (X : gset string) : NoDup (set_order X).
Proof. rewrite set_order_perm. apply NoDup_elements. Qed.

Lemma set_order_singleton (X : gset string) x :
  set_order X = [x] → X = {[x]}.
Proof.
  intros Hx. apply set_eq. intros y.
  by rewrite <- (elem_of_set_order set_order set_order_perm), Hx,
    list_elem_of_singleton, elem_of_singleton.
Qed.

(** A turn of the grouping loop adds the run to a group, or, when its
    canonicalization raises ValueError, leaves [bids_dict] as it is. *)
Lemma bids_dict_body_Ok g p bd g' bd' :
  bids_dict_body' g p bd = (Ok g', bd') →
  ((canonical_bids_path' p bd).1 = Raise ValueError ∧ g' = g) ∨
  (∃ b, (canonical_bids_path' p bd).1 = Ok (Some b) ∧
        g' = bids_dict_add b p g).
Proof.
  unfold bids_dict_body, m_try_ValueError, m_bind at 1 2.
  destruct (canonical_bids_path' p bd) as [[[b|]|e] bd1]; simpl.
  - intros [= <- <-]. right. by exists b.
  - done.
  - destruct e; try done. intros [= <- <-]. by left.
Qed.

Lemma bids_dict_fold_in_groups l g bd g' bd' :
  m_fold bids_dict_body' g l bd = (Ok g', bd') →
  ∀ p, in_groups g' p → in_groups g p ∨ p ∈ l.
Proof.
  revert g bd. induction l as [|x l IH]; intros g bd Hf p Hp; simpl in Hf.
  { injection Hf as <- <-. by left. }
  apply m_bind_Ok in Hf as (g1 & bd1 & Hb & Hf).
  destruct (IH _ _ Hf p Hp) as [Hg1|?]; [|right; by right].
  apply bids_dict_body_Ok in Hb as [[_ ->]|(b & _ & ->)]; [by left|].
  apply in_groups_add in Hg1 as [?| ->]; [by left|right; by left].
Qed.

Lemma bids_dict_fold_disjoint l g bd g' bd' :
  m_fold bids_dict_body' g l bd = (Ok g', bd') →
  NoDup l → (∀ p, p ∈ l → ¬ in_groups g p) → groups_disjoint g →
  groups_disjoint g'.
Proof.
  revert g bd. induction l as [|x l IH]; intros g bd Hf Hnd Hfresh Hdis;
    simpl in Hf.
  { by injection Hf as <- <-. }
  apply m_bind_Ok in Hf as (g1 & bd1 & Hb & Hf).
  apply NoDup_cons in Hnd as [Hx Hnd].
  apply (IH _ _ Hf Hnd).
  - intros p Hp Hg1.
    apply bids_dict_body_Ok in Hb as [[_ ->]|(b & _ & ->)].
    + apply (Hfresh p); [by right|done].
    + apply in_groups_add in Hg1 as [?| ->]; [|done].
      apply (Hfresh p); [by right|done].
  - apply bids_dict_body_Ok in Hb as [[_ ->]|(b & _ & ->)]; [done|].
    apply groups_disjoint_add; [done|]. apply Hfresh. by left.
Qed.

(** The groups are made of the runs handed to the loop, and no run is in
    two of them. *)
Lemma group_by_bids_path_Ok bold_file_paths bids_dict :
  group_by_bids_path' bold_file_paths = Ok bids_dict →
  (∀ p, in_groups bids_dict p → p ∈ bold_file_paths) ∧
  groups_disjoint bids_dict.
Proof.
  unfold group_by_bids_path.
  destruct (m_fold _ _ _ _) as [r bd'] eqn:Hf. simpl. intros ->. split.
  - intros p Hp.
    destruct (bids_dict_fold_in_groups _ _ _ _ _ Hf p Hp) as [Hnil|Hin].
    + by destruct (in_groups_nil p).
    + by apply (elem_of_set_order set_order set_order_perm) in Hin.
  - apply (bids_dict_fold_disjoint _ _ _ _ _ Hf); [apply NoDup_set_order| |done].
    intros p _. apply in_groups_nil.
Qed.

(** Each BIDS path has one entry in [bids_dict]. *)
Lemma group_by_bids_path_keys bold_file_paths bids_dict :
  group_by_bids_path' bold_file_paths = Ok bids_dict → NoDup bids_dict.*1.
Proof.
  unfold group_by_bids_path.
  destruct (m_fold _ _ _ _) as [r bd'] eqn:Hf. simpl. intros ->.
  revert Hf. generalize (BidsDatabase database).
  assert (Hnil : NoDup ([] : bids_dict_t).*1) by constructor.
  revert Hnil. generalize ([] : bids_dict_t).
  induction (set_order bold_file_paths) as [|x l IH]; intros g Hg bd Hf;
    simpl in Hf.
  { by injection Hf as <- <-. }
  apply m_bind_Ok in Hf as (g1 & bd1 & Hb & Hf).
  eapply (IH g1); [|exact Hf].
  apply bids_dict_body_Ok in Hb as [[_ ->]|(b & _ & ->)]; [done|].
  by apply bids_dict_add_NoDup.
Qed.

(** *** Choosing the run that is kept *)

Lemma not_preferred_to_antisym p q :
  not_preferred_to' p q → not_preferred_to' q p → p = q.
Proof.
  unfold not_preferred_to. intros [?|[? Hqp]] [?|[? Hpq]]; try lia.
  by apply (anti_symm String.le).
Qed.

(** The selected run is in the set and no run of the set beats it. *)
Lemma select_bold_file_path_Ok (pathset : gset string) sel m :
  select_bold_file_path' pathset = Ok (sel, m) →
  sel ∈ pathset ∧ m = nvol sel ∧ ∀ q, q ∈ pathset → not_preferred_to' sel q.
Proof.
  unfold select_bold_file_path.
  destruct (py_max _) as [max_nvol|] eqn:Hmax; [simpl|done].
  apply py_max_Ok in Hmax as [Hmem Hmax].
  set (selected0 := list_to_set _ : gset string).
  assert (Hsel0 : ∀ x, x ∈ selected0 ↔ x ∈ pathset ∧ nvol x = max_nvol).
  { intros x. unfold selected0.
    rewrite elem_of_list_to_set, list_elem_of_fmap. split.
    - intros ([y n] & -> & [Hn Hy]%list_elem_of_filter). simpl in *.
      apply list_elem_of_fmap in Hy as (z & [= -> ->] & Hz).
      by apply (elem_of_set_order set_order set_order_perm) in Hz.
    - intros [Hx Hn]. exists (x, nvol x). split; [done|].
      apply list_elem_of_filter. split; [done|].
      apply list_elem_of_fmap. exists x. split; [done|].
      by apply (elem_of_set_order set_order set_order_perm). }
  assert (Hle : ∀ q, q ∈ pathset → (nvol q ≤ max_nvol)%Z).
  { intros q Hq. apply Hmax.
    rewrite <- list_fmap_compose. apply list_elem_of_fmap. exists q.
    split; [done|]. by apply (elem_of_set_order set_order set_order_perm). }
  assert (Hfinish : ∀ x, x ∈ selected0 →
            (∀ q, q ∈ selected0 → String.le q x) →
            x ∈ pathset ∧ max_nvol = nvol x ∧
            ∀ q, q ∈ pathset → not_preferred_to' x q).
  { intros x [Hx Hn]%Hsel0 Hlast. split; [done|]. split; [done|].
    intros q Hq. unfold not_preferred_to.
    destruct (decide (nvol q = max_nvol)) as [Hq'|Hq'].
    - right. split; [congruence|]. apply Hlast, Hsel0. done.
    - left. specialize (Hle q Hq). lia. }
  case_bool_decide as Hsize; simpl.
  - destruct (last (sorted selected0)) as [l|] eqn:Hlast; [simpl|done].
    destruct (set_order {[l]}) as [|x [|y rest]] eqn:Hone; try done.
    intros [= <- <-].
    apply set_order_singleton, (inj singleton) in Hone as <-.
    apply last_StronglySorted in Hlast as [Hl Hlmax]; [|apply sorted_Sorted].
    apply Hfinish; [by apply elem_of_sorted in Hl|].
    intros q Hq. by apply Hlmax, elem_of_sorted.
  - destruct (set_order selected0) as [|x [|y rest]] eqn:Hone; try done.
    intros [= <- <-]. apply set_order_singleton in Hone.
    apply Hfinish; [set_solver|]. intros q Hq.
    assert (q = x) as -> by set_solver. done.
Qed.

(** *** Removing the excluded runs *)

Lemma duplicates_body_Ok d b pathset (s : store V) d' s' :
  duplicates_body' d (b, pathset) s = (Ok d', s') →
  ∀ p, p ∈ dom d' ↔
       p ∈ dom d ∧
       (p ∈ pathset → size pathset ≠ 1 →
        ∀ q, q ∈ pathset → not_preferred_to' p q).
Proof.
  unfold duplicates_body. simpl.
  case_bool_decide as Hsize.
  { intros [= <- <-] p. tauto. }
  intros ([sel m] & s1 & Hsel & Hrest)%m_bind_Ok p. simpl in Hrest.
  injection Hsel as Hsel <-.
  apply select_bold_file_path_Ok in Hsel as (Hsel & -> & Hbest).
  apply m_bind_Ok in Hrest as (last_path & s2 & _ & Hrest).
  apply m_bind_Ok in Hrest as (_ & s3 & _ & Hrest).
  injection Hrest as Hdel <-.
  rewrite (py_del_fold_Ok _ _ _ Hdel p), list_elem_of_filter,
    (elem_of_set_order set_order set_order_perm).
  split.
  - intros [Hp Hnot]. split; [done|]. intros Hin _.
    destruct (decide (p = sel)) as [ ->|Hne]; [done|]. by destruct Hnot.
  - intros [Hp Hbest']. split; [done|]. intros [Hne Hin].
    apply Hne. apply not_preferred_to_antisym; by auto.
Qed.

Lemma duplicates_fold_Ok bids_dict d (s : store V) d' s' :
  m_fold duplicates_body' d bids_dict s = (Ok d', s') →
  ∀ p, p ∈ dom d' ↔
       p ∈ dom d ∧
       ∀ b pathset, (b, pathset) ∈ bids_dict → p ∈ pathset →
                    size pathset ≠ 1 →
                    ∀ q, q ∈ pathset → not_preferred_to' p q.
Proof.
  revert d s. induction bids_dict as [|[b pathset] g IH]; intros d s Hf p;
    simpl in Hf.
  { injection Hf as <- <-. split; [|tauto]. intros Hp. split; [done|].
    by intros ? ? ?%elem_of_nil. }
  apply m_bind_Ok in Hf as (d1 & s1 & Hb & Hf).
  rewrite (IH _ _ Hf p), (duplicates_body_Ok _ _ _ _ _ _ Hb p). split.
  - intros [[Hp Hhere] Hrest]. split; [done|].
    intros b' S' [[= -> ->]|Hin]%elem_of_cons; [done|by apply (Hrest b')].
  - intros [Hp Hall]. split; [split; [done|]|].
    + apply (Hall b). by left.
    + intros b' S' Hin. apply (Hall b'). by right.
Qed.

(** *** The duplicate resolution does not raise *)

Lemma set_order_nonempty (X : gset string) : X ≠ ∅ → set_order X ≠ [].
Proof.
  intros HX Hnil. apply HX, set_eq. intros x.
  rewrite <- (elem_of_set_order set_order set_order_perm), Hnil.
  by rewrite elem_of_nil, elem_of_empty.
Qed.

Lemma set_order_of_singleton (x : string) : set_order {[x]} = [x].
Proof.
  apply Permutation_singleton_r. by rewrite set_order_perm, elements_singleton.
Qed.

Lemma select_bold_file_path_total (pathset : gset string) :
  pathset ≠ ∅ → ∃ sel m, select_bold_file_path' pathset = Ok (sel, m).
Proof.
  intros Hne. unfold select_bold_file_path.
  destruct (set_order pathset) as [|p0 rest] eqn:Horder.
  { by destruct (set_order_nonempty _ Hne). }
  simpl py_max.
  pose proof (foldl_Z_max_spec (nvol p0) (((λ p, (p, nvol p)) <$> rest).*2))
    as [Hmem _].
  set (max_nvol := foldl Z.max (nvol p0) _) in *. simpl.
  set (selected0 := list_to_set _ : gset string).
  assert (Hsel0 : selected0 ≠ ∅).
  { change (max_nvol ∈ ((λ p, (p, nvol p)) <$> p0 :: rest).*2) in Hmem.
    rewrite <- list_fmap_compose in Hmem.
    apply list_elem_of_fmap in Hmem as (x & Hx & Hin).
    intros Hempty. apply (not_elem_of_empty (C := gset string) x).
    rewrite <- Hempty. unfold selected0.
    apply elem_of_list_to_set, list_elem_of_fmap. exists (x, nvol x).
    split; [done|]. apply list_elem_of_filter. split; [done|].
    change (((λ p, (p, nvol p)) <$> p0 :: rest))
      with ((p0, nvol p0) :: ((λ p, (p, nvol p)) <$> rest)).
    apply (list_elem_of_fmap_2 (λ p, (p, nvol p))) in Hin. done. }
  case_bool_decide as Hsize; simpl.
  - destruct (last (sorted selected0)) as [l|] eqn:Hlast; simpl.
    + rewrite set_order_of_singleton. by eexists _, _.
    + apply last_None in Hlast. destruct Hsel0. apply set_eq. intros x.
      by rewrite <- elem_of_sorted, Hlast, elem_of_nil, elem_of_empty.
  - assert (size selected0 = 1) as [x Hx%leibniz_equiv]%size_1_elem_of.
    { assert (size selected0 ≠ 0); [|lia].
      by intros ?%size_empty_iff%leibniz_equiv. }
    rewrite Hx, set_order_of_singleton. by eexists _, _.
Qed.

Lemma duplicates_body_total d b pathset (s : store V) :
  pathset ≠ ∅ → pathset ⊆ dom d →
  ∃ d' s', duplicates_body' d (b, pathset) s = (Ok d', s').
Proof.
  intros Hne Hsub. unfold duplicates_body. simpl.
  case_bool_decide; [by eexists _, _|].
  destruct (select_bold_file_path_total pathset Hne) as (sel & m & Hsel).
  rewrite m_bind_lift, Hsel. simpl.
  destruct (last (set_order pathset)) as [p|] eqn:Hlast.
  2:{ apply last_None in Hlast. by destruct (set_order_nonempty _ Hne). }
  rewrite m_bind_ret. unfold m_bind, logger, m_modify, m_lift.
  destruct (py_del_fold_total d
              (filter (λ p, p ≠ sel) (set_order pathset))) as [d' ->].
  - apply NoDup_filter, NoDup_set_order.
  - intros q [_ Hq%(elem_of_set_order set_order set_order_perm)]%list_elem_of_filter.
    by apply Hsub.
  - by eexists _, _.
Qed.

Lemma duplicates_body_other d b pathset (s : store V) d' s' p :
  duplicates_body' d (b, pathset) s = (Ok d', s') →
  p ∉ pathset → p ∈ dom d → p ∈ dom d'.
Proof.
  intros Hb Hp Hd. apply (duplicates_body_Ok _ _ _ _ _ _ Hb p).
  split; [done|]. intros ?. done.
Qed.

Lemma duplicates_fold_total bids_dict d (s : store V) :
  groups_disjoint bids_dict →
  (∀ b pathset, (b, pathset) ∈ bids_dict → pathset ≠ ∅ ∧ pathset ⊆ dom d) →
  ∃ d' s', m_fold duplicates_body' d bids_dict s = (Ok d', s').
Proof.
  revert d s. induction bids_dict as [|[b pathset] g IH]; intros d s Hdis Hg;
    simpl.
  { by eexists _, _. }
  destruct Hdis as [Hhere Hdis].
  destruct (Hg b pathset) as [Hne Hsub]; [by left|].
  destruct (duplicates_body_total d b pathset s Hne Hsub) as (d1 & s1 & Hb).
  rewrite (m_bind_eq_Ok _ _ _ _ _ Hb).
  apply IH; [done|]. intros b' S' Hin.
  destruct (Hg b' S') as [Hne' Hsub']; [by right|]. split; [done|].
  intros p Hp. apply (duplicates_body_other _ _ _ _ _ _ _ Hb); [|by apply Hsub'].
  intros Hp0. apply (Hhere p Hp0). by exists b', S'.
Qed.

Lemma bids_dict_add_nonempty b p g :
  Forall (λ item, item.2 ≠ (∅ : gset string)) g →
  Forall (λ item, item.2 ≠ (∅ : gset string)) (bids_dict_add b p g).
Proof.
  induction 1 as [|[k S] g HS Hg IH]; simpl.
  - constructor; [|done]. simpl. set_solver.
  - destruct (decide (k = b)); constructor; simpl in *; [set_solver|done..].
Qed.

Lemma bids_dict_fold_nonempty l g bd g' bd' :
  m_fold bids_dict_body' g l bd = (Ok g', bd') →
  Forall (λ item, item.2 ≠ (∅ : gset string)) g →
  Forall (λ item, item.2 ≠ (∅ : gset string)) g'.
Proof.
  revert g bd. induction l as [|x l IH]; intros g bd Hf Hg; simpl in Hf.
  { by injection Hf as <- <-. }
  apply m_bind_Ok in Hf as (g1 & bd1 & Hb & Hf).
  apply (IH _ _ Hf).
  apply bids_dict_body_Ok in Hb as [[_ ->]|(b & _ & ->)]; [done|].
  by apply bids_dict_add_nonempty.
Qed.

(** Once the associated files are collected and the runs are grouped,
    collect_bold_files returns: choosing the run to keep and deleting the
    others raises nothing. *)
Lemma collect_bold_files_returns
    (setting_source_files feature_source_files : gset string)
    (s : store V) d0 s0 bids_dict :
  let bold_file_paths := setting_source_files ∪ feature_source_files in
  associated_files' bold_file_paths s = (Ok d0, s0) →
  group_by_bids_path' (bold_file_paths ∩ dom d0) = Ok bids_dict →
  ∃ d s',
    collect_bold_files' setting_source_files feature_source_files s
      = (Ok d, s').
Proof.
  intros bold_file_paths Hassoc Hgroup. unfold collect_bold_files.
  fold bold_file_paths. rewrite (m_bind_eq_Ok _ _ _ _ _ Hassoc).
  rewrite m_bind_lift, Hgroup.
  destruct (group_by_bids_path_Ok _ _ Hgroup) as [Hsub Hdis].
  apply duplicates_fold_total; [done|]. intros b pathset Hin. split.
  - unfold group_by_bids_path in Hgroup.
    destruct (m_fold _ _ _ _) as [r bd'] eqn:Hf. simpl in Hgroup. subst r.
    pose proof (bids_dict_fold_nonempty _ _ _ _ _ Hf (Forall_nil_2 _)) as Hall.
    rewrite Forall_forall in Hall. by apply (Hall _ Hin).
  - intros p Hp.
    assert (p ∈ bold_file_paths ∩ dom d0) as Hp0; [|set_solver].
    apply Hsub. by exists b, pathset.
Qed.


End collect_bold_files_facts.

(** ** The grouping with the translator of the spec *)

Lemma assoc_Some_elem_of {A : Type} (key : string) (l : list (string * A)) v :
  assoc key l = Some v → (key, v) ∈ l.
Proof.
  induction l as [|[k w] l IH]; simpl; [done|].
  destruct (decide (k = key)) as [ ->|Hne].
  - intros [= ->]. by left.
  - intros Hl. right. by apply IH.
Qed.

Lemma assoc_snoc {A : Type} (key k : string) (v : A) (l : list (string * A)) :
  assoc key (l ++ [(k, v)]) =
    match assoc key l with
    | Some w => Some w
    | None => if decide (k = key) then Some v else None
    end.
Proof.
  induction l as [|[k' w] l IH]; simpl; [done|].
  by destruct (decide (k' = key)).
Qed.

(** When [put] finds no entry with the path, no file is registered
    under it. *)
Lemma existsb_path_free (registered : bids_state) (b : string) :
  existsb (λ entry, bool_decide (entry.2 = b)) registered = false →
  ∀ q, assoc q registered ≠ Some b.
Proof.
  intros Hfree q Hq%assoc_Some_elem_of.
  apply not_true_iff_false in Hfree. apply Hfree.
  apply existsb_exists. exists (q, b). split; [by apply list_elem_of_In|].
  by apply bool_decide_eq_true_2.
Qed.

Lemma one_file_per_path_snoc registered p b :
  one_file_per_path registered →
  assoc p registered = None →
  (∀ q, assoc q registered ≠ Some b) →
  one_file_per_path (registered ++ [(p, b)]).
Proof.
  intros Hone Hp Hfree q q' c. rewrite !assoc_snoc.
  destruct (assoc q registered) as [w|] eqn:Hq;
    destruct (assoc q' registered) as [w'|] eqn:Hq'.
  - intros [= ->] [= ->]. by apply (Hone q q' c).
  - intros [= ->]. destruct (decide (p = q')) as [ ->|]; [|done].
    intros [= ->]. by destruct (Hfree q).
  - destruct (decide (p = q)) as [ ->|]; [|done].
    intros [= ->] [= ->]. by destruct (Hfree q').
  - destruct (decide (p = q)) as [ ->|]; [|done].
    destruct (decide (q = q')) as [ ->|]; done.
Qed.

(** A run that is registered already joins the group it is alone in. *)
Lemma bids_dict_add_registered registered b p g :
  one_file_per_path registered → assoc p registered = Some b →
  registered_groups registered g →
  registered_groups registered (bids_dict_add b p g).
Proof.
  intros Hone Hp. unfold registered_groups.
  induction 1 as [|[k S] g (q & HS & Hq) Hg IH]; simpl in *.
  - constructor; [|done]. by exists p.
  - destruct (decide (k = b)) as [ ->|Hne]; constructor; simpl; try done.
    + exists p. split; [|done]. rewrite HS, (Hone q p b Hq Hp). set_solver.
    + by exists q.
Qed.

(** A run registered under a path no file holds opens a group. *)
Lemma bids_dict_add_fresh registered b p g :
  assoc p registered = None →
  (∀ q, assoc q registered ≠ Some b) →
  registered_groups registered g →
  registered_groups (registered ++ [(p, b)]) (bids_dict_add b p g).
Proof.
  intros Hp Hfree. unfold registered_groups.
  induction 1 as [|[k S] g (q & HS & Hq) Hg IH]; simpl in *.
  - constructor; [|done]. exists p. split; [done|]. simpl.
    by rewrite assoc_snoc, Hp, decide_True.
  - destruct (decide (k = b)) as [ ->|Hne]; [by destruct (Hfree q)|].
    constructor; [|done]. exists q. split; [done|]. simpl.
    by rewrite assoc_snoc, Hq.
Qed.

Section one_file_per_bids_path.
Context (bids_path_of : string → option string).

(** A turn of the grouping loop raises nothing and leaves one run in
    every group: the run whose [put] is refused is passed over. *)
Lemma bids_dict_body_registered g p registered :
  one_file_per_path registered → registered_groups registered g →
  ∃ g' registered',
    bids_dict_body (BidsDatabase_put bids_path_of) table_to_bids g p registered
      = (Ok g', registered') ∧
    one_file_per_path registered' ∧ registered_groups registered' g'.
Proof.
  intros Hone Hg.
  unfold bids_dict_body, m_try_ValueError, canonical_bids_path, m_bind,
    BidsDatabase_put, table_to_bids, m_ret.
  destruct (assoc p registered) as [b|] eqn:Hp.
  { rewrite Hp. eexists _, _. split; [done|]. split; [done|].
    by apply bids_dict_add_registered. }
  destruct (bids_path_of p) as [b|]; [|by eexists _, _].
  destruct (existsb _ registered) eqn:Htaken; [by eexists _, _|].
  pose proof (existsb_path_free _ _ Htaken) as Hfree.
  rewrite assoc_snoc, Hp, decide_True by done.
  eexists _, _. split; [done|]. split.
  - by apply one_file_per_path_snoc.
  - by apply bids_dict_add_fresh.
Qed.

Lemma bids_dict_fold_registered l g registered :
  one_file_per_path registered → registered_groups registered g →
  ∃ g' registered',
    m_fold (bids_dict_body (BidsDatabase_put bids_path_of) table_to_bids)
      g l registered = (Ok g', registered') ∧
    registered_groups registered' g'.
Proof.
  revert g registered. induction l as [|p l IH]; intros g registered Hone Hg.
  { by eexists _, _. }
  destruct (bids_dict_body_registered g p registered Hone Hg)
    as (g1 & registered1 & Hbody & Hone1 & Hg1).
  simpl. rewrite (m_bind_eq_Ok _ _ _ _ _ Hbody). by apply IH.
Qed.

End one_file_per_bids_path.

(** Groups of one run are passed over by the duplicate resolution. *)
Lemma duplicates_fold_singletons {V : Type}
    (set_order : gset string → list string) (nvol : string → Z)
    (bids_dict : bids_dict_t) (d : gmap string (list string)) (s : store V) :
  Forall (λ item, size item.2 = 1) bids_dict →
  m_fold (duplicates_body set_order nvol) d bids_dict s = (Ok d, s).
Proof.
  induction 1 as [|item g Hone Hg IH]; [done|]. simpl.
  unfold m_bind at 1. unfold duplicates_body at 1.
  by rewrite (bool_decide_eq_true_2 _ Hone).
Qed.

(** C1, on the third scenario of the spec.  The two runs have the same
    tags, hence the same BIDS path, and 120 and 200 volumes.  [put]
    refuses the second of them with ValueError, the [except] clause
    passes it over, and the only group holds the first run alone: the
    resolution finds nothing to resolve, both runs are keys of the
    returned mapping, the run of 120 volumes among them, and no warning
    is logged. *)
Theorem duplicate_runs_are_both_kept :
  bids_path_of_tags duplicate_runs "/data/a_bold.nii.gz"
    = Some "sub-01_task-rest_bold" ∧
  bids_path_of_tags duplicate_runs "/data/b_bold.nii.gz"
    = Some "sub-01_task-rest_bold" ∧
  duplicate_runs_nvol "/data/a_bold.nii.gz" = 120%Z ∧
  duplicate_runs_nvol "/data/b_bold.nii.gz" = 200%Z ∧
  (canonical_bids_path (table_put duplicate_runs) table_to_bids
     "/data/b_bold.nii.gz"
     [("/data/a_bold.nii.gz", "sub-01_task-rest_bold")]).1
    = Raise ValueError ∧
  group_by_bids_path elements (λ _, []) (table_put duplicate_runs)
    table_to_bids (table_database duplicate_runs []) duplicate_runs_sources
    = Ok [("sub-01_task-rest_bold", {["/data/a_bold.nii.gz"]})] ∧
  collect_duplicate_runs = (Ok duplicate_runs_all, empty_store) ∧
  duplicate_runs_all !! "/data/a_bold.nii.gz"
    = Some ["/data/a_bold.nii.gz"; "/data/T1w.nii.gz"] ∧
  duplicate_runs_all !! "/data/b_bold.nii.gz"
    = Some ["/data/b_bold.nii.gz"; "/data/T1w.nii.gz"].
Proof. split_and!; vm_compute; reflexivity. Qed.

(** ** CheckMetadataStep *)

Lemma forallb_None {A : Type} `{EqDecision A} (l : list (option A)) :
  forallb (λ val, bool_decide (val = None)) l = true ↔ Forall (.= None) l.
Proof.
  rewrite forallb_forall, Forall_forall. split.
  - intros Hl x Hx. eapply bool_decide_eq_true_1, Hl. by apply list_elem_of_In.
  - intros Hl x Hx. apply bool_decide_eq_true_2, Hl. by apply list_elem_of_In.
Qed.

Lemma fmap_seq_lookup_total {A B : Type} `{Inhabited A} (f : A → B)
    (l : list A) (n : nat) :
  n ≤ length l → (λ i, f (l !!! i)) <$> seq 0 n = f <$> take n l.
Proof.
  revert n. induction l as [|x l IH]; intros [|n] Hn; simpl in *;
    [done|lia|done|].
  rewrite <- fmap_S_seq, <- list_fmap_compose, <- IH by lia. done.
Qed.

Section check_metadata_facts.
Context {V : Type} `{EqDecision V}.
Context (val_le : relation V) `{!RelDecision val_le}.
Context (format_value : V → string).
Context (humanize str_lower : string → string).
Context (direction_code_str : V → string → string).
Context (slice_timing_str array2string : V → string).
Context (key : string) (filters : option kwargs) (unit_of_key : option string).
Context (database : Database V) (spec_files : list string).

#[local] Abbreviation setup' :=
  (setup val_le format_value humanize str_lower direction_code_str
     slice_timing_str array2string key filters unit_of_key).
#[local] Abbreviation next' := (next key filters).
#[local] Abbreviation resolve_filepaths' :=
  (resolve_filepaths filters database spec_files).
#[local] Abbreviation observed' :=
  (observed direction_code_str slice_timing_str array2string key database).
#[local] Abbreviation format_vals' :=
  (format_vals direction_code_str slice_timing_str array2string key).
#[local] Abbreviation row_text' :=
  (row_text format_value humanize key unit_of_key).
#[local] Abbreviation display' :=
  (λ c : cell, display_str humanize (format_cell format_value c)).

Lemma format_vals_None filepaths (vals : list (option V)) :
  Forall (.= None) vals → Forall (.= None) (format_vals' filepaths vals).
Proof.
  intros Hvals. unfold format_vals.
  destruct (_ || _); [|destruct (bool_decide _)].
  - revert filepaths. induction Hvals as [|val vals -> _ IH];
      intros [|fp filepaths]; simpl; constructor; auto.
  - apply Forall_fmap. eapply Forall_impl; [done|]. by intros ? ->.
  - apply Forall_fmap. eapply Forall_impl; [done|]. by intros ? ->.
Qed.

(** What [setup] reads: the back-filled values, formatted. *)
Lemma setup_reads filepaths (s : store V) :
  ∃ s1,
    fillmetadata database key filepaths s = (Ok (), s1) ∧
    ((∀ f, f ∈ filepaths → backfilled database s f key = None) → s1 = s) ∧
    format_vals' filepaths
      ((λ filepath, filled s1 !! (filepath, key)) <$> filepaths)
      = observed' s filepaths.
Proof.
  destruct (fillmetadata_spec database key filepaths s)
    as (s1 & Hfill & _ & _ & _ & Hin & Hsame).
  exists s1. split; [done|]. split; [done|].
  unfold observed. f_equal. apply Forall_fmap_ext, Forall_forall.
  intros f Hf. by apply Hin.
Qed.

(** C7, as the code has it.  When every resolved file lacks the value
    after back-filling, the step marks itself missing, shows no view and
    leaves the store as it was; its first run asks nothing of the user,
    and it then hands over to SetMetadataStep, without a suggestion, not
    to its continuation step; run again, it reports False and hands over
    to no step. *)
Theorem missing_metadata_hands_over_to_SetMetadataStep
    (s : store V) (filepaths : list string) :
  resolve_filepaths' = Ok filepaths →
  (∀ f, f ∈ filepaths → backfilled database s f key = None) →
  ∃ self,
    setup' false database spec_files s = (Ok self, s) ∧
    is_missing self = true ∧ views self = [] ∧
    ∀ t,
      run self t = (true, self, t) ∧
      ∃ self',
        next' self = (SetMetadataStep filters key None, self') ∧
        run self' t = (false, self', t) ∧
        next' self' = (NoStep, self').
Proof.
  intros Hresolve Hnone.
  exists {| is_first_run := true; should_skip := false; choice := None;
            is_missing := true; suggestion := None; views := [] |}.
  split; [|split; [done|split; [done|]]].
  - unfold setup. rewrite m_bind_lift, Hresolve.
    destruct (setup_reads filepaths s) as (s1 & Hfill & Hsame & Hobs).
    rewrite (Hsame Hnone) in Hfill, Hobs.
    rewrite (m_bind_eq_Ok _ _ _ _ _ Hfill).
    rewrite (m_bind_eq_Ok _ _ _ _ _ (metadata_mapM key filepaths s)).
    rewrite Hobs.
    assert (Hall : Forall (.= None) (observed' s filepaths)).
    { apply format_vals_None, Forall_fmap, Forall_forall. intros f Hf.
      by apply Hnone. }
    apply forallb_None in Hall. by rewrite Hall.
  - intros t. split; [done|]. by eexists.
Qed.

Lemma value_lines_foldl (uniquevals : list cell) (column1 : list string)
    (width : nat) (unit : string) (l : list nat) sug views0 :
  foldl (value_line_body format_value humanize uniquevals column1 width unit)
    (sug, views0) l =
  (match sug with
   | Some previous => Some previous
   | None => head ((λ i, display' (uniquevals !!! i)) <$> l)
   end,
   views0 ++
   ((λ i, TextView (" " +:+ rjust width (column1 !!! i) +:+ " - "
                    +:+ display' (uniquevals !!! i) +:+ " " +:+ unit)) <$> l)).
Proof.
  revert sug views0. induction l as [|i l IH]; intros sug views0; simpl.
  { destruct sug; by rewrite app_nil_r. }
  unfold value_line_body at 2. simpl. rewrite IH, <- app_assoc.
  by destruct sug.
Qed.

Lemma shown_rows_facts (cells : list cell) :
  let rows := shown_rows val_le cells in
  length rows ≤ 10 ∧ NoDup rows.*2 ∧
  ∀ n u, (n, u) ∈ rows → u ∈ cells ∧ n = length (filter (u =.) cells).
Proof.
  unfold shown_rows. split; [|split].
  - rewrite length_take. lia.
  - rewrite fmap_take, <- list_fmap_compose.
    eapply sublist_NoDup; [|apply sublist_take].
    assert (Hsnd : ∀ us : list cell,
      (snd ∘ (λ u, (length (filter (u =.) cells), u))) <$> us = us).
    { intros us. induction us as [|u us IH]; [done|].
      by rewrite fmap_cons, IH. }
    rewrite Hsnd, merge_sort_Permutation. apply NoDup_remove_dups.
  - intros n u (i & Hi & _)%elem_of_take.
    apply list_elem_of_lookup_2, list_elem_of_fmap in Hi as (u' & [= -> ->] & Hu').
    split; [|done].
    by rewrite merge_sort_Permutation, elem_of_remove_dups in Hu'.
Qed.

(** C4, as the code has it.  When every resolved file has a value, the
    step lists at most ten distinct observed values, in the order
    np.unique returns them, each with the number of files that hold it,
    and adds the ellipsis when there are more; the suggestion it keeps,
    and passes to SetMetadataStep on the answer No, is the first value
    listed. *)
Theorem observed_values_listing
    (s : store V) (filepaths : list string) (cells : list cell) :
  resolve_filepaths' = Ok filepaths →
  mapM id (observed' s filepaths) = Some cells →
  cells ≠ [] →
  ∃ self s1 width,
    setup' false database spec_files s = (Ok self, s1) ∧
    is_missing self = false ∧
    let rows := shown_rows val_le cells in
    views self =
      TextView ("Check " +:+ str_lower (humanize key) +:+ " values")
      :: (TextView ∘ row_text' width <$> rows)
      ++ (if bool_decide (10 < length (remove_dups cells))
          then [TextView "..."] else [])
      ++ [TextView "Proceed with these values?";
          SingleChoiceInputView ["Yes"; "No"] false; SpacerView 1] ∧
    length rows ≤ 10 ∧ NoDup rows.*2 ∧
    (∀ n u, (n, u) ∈ rows → u ∈ cells ∧ n = length (filter (u =.) cells)) ∧
    is_Some (head rows) ∧
    suggestion self = (λ row, display' row.2) <$> head rows ∧
    ∀ t rest, answers t = Some "No" :: rest →
      ∃ self' t',
        run self t = (true, self', t') ∧
        (next' self').1 = SetMetadataStep filters key (suggestion self).
Proof.
  intros Hresolve Hcells Hne.
  destruct (setup_reads filepaths s) as (s1 & Hfill & _ & Hobs).
  set (uniquevals := merge_sort (cell_le val_le) (remove_dups cells)).
  set (counts := (λ u, length (filter (u =.) cells)) <$> uniquevals).
  assert (Hlen : length uniquevals = length (remove_dups cells)).
  { unfold uniquevals. by rewrite merge_sort_Permutation. }
  assert (Hpos : 0 < length uniquevals).
  { rewrite Hlen. destruct cells as [|c cells]; [done|].
    destruct (remove_dups (c :: cells)) as [|? ?] eqn:Hrd; [|simpl; lia].
    assert (c ∈ remove_dups (c :: cells)) as Hc
      by (apply elem_of_remove_dups; by left).
    rewrite Hrd in Hc. by apply elem_of_nil in Hc. }
  assert (Horder : length (np_argsort counts) = length uniquevals).
  { unfold np_argsort. rewrite merge_sort_Permutation, length_seq.
    unfold counts. by rewrite length_fmap. }
  set (n := min 10 (length uniquevals)).
  set (column1 := (λ i, pretty (counts !!! i) +:+ " images") <$> seq 0 n).
  destruct (py_max_nat (String.length <$> column1)) as [width|e] eqn:Hwidth.
  2:{ unfold column1, n in Hwidth.
      destruct (length uniquevals) as [|k]; [lia|]. done. }
  set (unit := if bool_decide (key = "slice_timing") then ""
               else default "" unit_of_key).
  eexists _, s1, width. split.
  { unfold setup. rewrite m_bind_lift, Hresolve.
    rewrite (m_bind_eq_Ok _ _ _ _ _ Hfill).
    rewrite (m_bind_eq_Ok _ _ _ _ _ (metadata_mapM key filepaths s1)).
    rewrite Hobs.
    assert (forallb (λ val, bool_decide (val = None)) (observed' s filepaths)
              = false) as ->.
    { destruct (observed' s filepaths) as [|[c|] obs]; simpl in *.
      - by injection Hcells as <-.
      - done.
      - done. }
    unfold np_unique. rewrite Hcells. fold uniquevals. fold counts.
    rewrite m_bind_lift. cbn [fst snd]. rewrite Horder. fold n. fold column1.
    rewrite m_bind_lift, Hwidth.
    fold unit. rewrite value_lines_foldl. simpl. reflexivity. }
  assert (Hn : 0 < n) by (unfold n; lia).
  assert (Hrows : shown_rows val_le cells =
            (λ i, (counts !!! i, uniquevals !!! i)) <$> seq 0 n).
  { unfold shown_rows. fold uniquevals.
    assert (take 10 ((λ u, (length (filter (u =.) cells), u)) <$> uniquevals)
            = take n ((λ u, (length (filter (u =.) cells), u)) <$> uniquevals))
      as ->.
    { unfold n. destruct (decide (10 ≤ length uniquevals)).
      - by rewrite Nat.min_l.
      - rewrite Nat.min_r by lia. rewrite !take_ge; [done|..];
          rewrite length_fmap; lia. }
    rewrite <- (list_fmap_id (take n _)).
    rewrite <- (fmap_seq_lookup_total id _ n)
      by (rewrite length_fmap; unfold n; lia).
    apply Forall_fmap_ext, Forall_forall. intros i Hi%elem_of_seq.
    assert (Hi' : i < length uniquevals) by (unfold n in Hi; lia).
    destruct (lookup_lt_is_Some_2 uniquevals i Hi') as [u Hu].
    simpl. apply list_lookup_total_correct.
    rewrite list_lookup_fmap, Hu. simpl.
    rewrite (list_lookup_total_correct _ _ _ Hu). f_equal. f_equal.
    symmetry. apply list_lookup_total_correct.
    unfold counts. by rewrite list_lookup_fmap, Hu. }
  destruct (shown_rows_facts cells) as (Hle & Hnd & Hfacts).
  simpl. split; [done|]. rewrite Hrows in Hle, Hnd, Hfacts |- *.
  assert (Hseq : seq 0 n = 0 :: seq 1 (pred n)) by (by destruct n; [lia|]).
  split_and!; [|done|done|done| | |].
  - rewrite Hlen. rewrite <- list_fmap_compose.
    assert (Hlines :
      (λ i, TextView (" " +:+ rjust width (column1 !!! i) +:+ " - "
                      +:+ display' (uniquevals !!! i) +:+ " " +:+ unit))
        <$> seq 0 n =
      (TextView ∘ row_text' width ∘ (λ i, (counts !!! i, uniquevals !!! i)))
        <$> seq 0 n).
    { apply Forall_fmap_ext, Forall_forall. intros i Hi%elem_of_seq.
      simpl. unfold row_text. simpl. fold unit. do 4 f_equal.
      unfold column1. apply list_lookup_total_correct.
      rewrite list_lookup_fmap, lookup_seq_lt by lia. done. }
    rewrite Hlines.
    destruct (bool_decide (10 < _));
      rewrite <- ?app_comm_cons, <- ?app_assoc; reflexivity.
  - rewrite Hseq. by eexists.
  - by rewrite Hseq.
  - intros t rest Hans. unfold run. simpl. unfold input_view. rewrite Hans.
    eexists _, _. split; [done|]. done.
Qed.

End check_metadata_facts.

(** ** The Preprocessing widget *)

Lemma confirm_initial_volumes_settings (self : Preprocessing) (input_value : string) :
  global_settings (confirm_initial_volumes self input_value)
    = global_settings self.
Proof.
  unfold confirm_initial_volumes, _on_ok_button_pressed.
  by case_bool_decide.
Qed.

Lemma via_algorithm_switch_settings (self : Preprocessing) (message_value : bool) :
  global_settings (_on_via_algorithm_switch_changed self message_value)
    = global_settings self.
Proof. by destruct message_value. Qed.

(** The handler of the recon-all switch, next to them, does write its
    setting. *)
Lemma run_reconall_is_written (self : Preprocessing) (event_value : bool) :
  global_settings (on_run_recon_all_switch_changed self event_value)
    !! "run_reconall" = Some (SettingBool event_value).
Proof. apply lookup_insert_eq. Qed.

(** C3.  The specification has the count confirmed in the modal written
    to global_settings.dummy_scans as an integer, and the setting cleared
    when automatic detection is switched on.  On settings that hold
    dummy_scans = 0 the handlers do neither: confirming the modal with the
    count 5 changes the number the widget shows and leaves dummy_scans at
    0, and switching on automatic detection leaves it at 0 as well. *)
Theorem dummy_scans_is_not_written :
  let self := Preprocessing_compose {["dummy_scans" := SettingInt 0]} in
  remove_volumes_value (confirm_initial_volumes self "5") = "5" ∧
  global_settings (confirm_initial_volumes self "5") !! "dummy_scans"
    = Some (SettingInt 0) ∧
  global_settings (_on_via_algorithm_switch_changed self true) !! "dummy_scans"
    = Some (SettingInt 0).
Proof.
  intros self. split; [done|].
  rewrite confirm_initial_volumes_settings, via_algorithm_switch_settings.
  split; apply lookup_singleton_eq.
Qed.

(** ** The compact file browser *)

Lemma update_input_None (self : FileBrowser) :
  let after := update_input self None in
  path_input_box after = path_to self +:+ ": None" ∧
  selected_path after = "None" ∧
  (selected_path self ≠ "None" →
   posted after = posted self ++ [Changed "None"]).
Proof.
  unfold update_input, set_selected_path. simpl.
  case_bool_decide as Hdiff; simpl; [done|].
  split; [done|]. split; [|done].
  by destruct (decide (selected_path self = "None")).
Qed.

Lemma update_input_empty (self : FileBrowser) :
  update_input self (Some "") = self.
Proof. done. Qed.

(** C9.  The specification has a modal dismissed with no payload leave
    the control as it was, with no notification.  On the control as it is
    composed, a cancelled browser modal does change it: the callback
    receives None, which passes the test against the empty text; the
    label then reads the text None after the caption, the selected path
    becomes that text, and a Changed message is posted. *)
Theorem cancelled_browse_updates_control :
  let self := FileBrowser_compose "WORKING DIRECTORY" in
  let screen :=
    {| screen_path_to := "WORKING DIRECTORY"; path_input_box2 := "";
       selected_directory := None |} in
  browse self (_cancel_window screen) =
    {| path_to := "WORKING DIRECTORY";
       path_input_box := "WORKING DIRECTORY: None";
       path_input_box_value := Some "WORKING DIRECTORY: None";
       selected_path := "None";
       posted := [Changed "None"] |}.
Proof. reflexivity. Qed.

(** ** SwitchWithSelect *)

(** C10.  Composing a SwitchWithSelect whose options are omitted or
    empty raises IndexError; with at least one option the dropdown is
    built over all options, each labelled by the text of its first
    component, and its initial value is the value of the first option. *)
Theorem SwitchWithSelect_compose_first_option {A B : Type} (str : A → string)
    (label : string) (options : option (list (A * B))) (switch_value : bool) :
  let self := SwitchWithSelect_init label options switch_value in
  match default [] options with
  | [] => compose str self = Raise IndexError
  | first :: rest =>
      compose str self =
        Ok [Grid [Static label; TextSwitch switch_value;
                  Select ((λ value, (str value.1, value.2)) <$> first :: rest)
                    first.2 false "input_switch_input_box"]]
  end.
Proof. by destruct options as [[|first rest]|]. Qed.


(** ** collect_fieldmaps: the pepolar pass, the log and the escapes *)

Lemma store_eta {V : Type} (s : store V) :
  {| filled := filled s; log := log s |} = s.
Proof. by destruct s. Qed.

Section collect_fieldmaps_passes.
Context {V : Type}.
Context (set_order : gset string → list string).
Hypothesis set_order_perm : ∀ X, set_order X ≡ₚ elements X.
Context (canonicalize_direction_code : option V → string → result string).
Context (check_pes : list (string * string) → string → result bool).
Context (database : Database V).

#[local] Abbreviation collect_pe_dir' :=
  (collect_pe_dir canonicalize_direction_code database).
#[local] Abbreviation epi_fmaps_body' :=
  (epi_fmaps_body canonicalize_direction_code database).
#[local] Abbreviation filter_phase_maps' := (filter_phase_maps set_order database).
#[local] Abbreviation filter_pepolar' :=
  (filter_pepolar set_order canonicalize_direction_code check_pes database).
#[local] Abbreviation collect_fieldmaps' :=
  (collect_fieldmaps set_order canonicalize_direction_code check_pes database).

(** *** What the calls do to the log *)

(** Reading a direction neither reads nor writes the log. *)
Lemma collect_pe_dir_frame (c : string) (f : gmap (string * string) V) :
  ∃ r f', ∀ l0,
    collect_pe_dir' c {| filled := f; log := l0 |}
      = (r, {| filled := f'; log := l0 |}).
Proof.
  clear set_order_perm.
  unfold collect_pe_dir, fillmetadata, metadata, m_bind, m_modify, m_lift.
  simpl. by eexists _, _.
Qed.

Lemma epi_fmaps_fold_frame (l : list string) (acc : list (string * string)) (f : gmap (string * string) V) :
  ∃ r f', ∀ l0,
    m_fold epi_fmaps_body' acc l {| filled := f; log := l0 |}
      = (r, {| filled := f'; log := l0 |}).
Proof.
  clear set_order_perm.
  revert acc f. induction l as [|c l IH]; intros acc f; simpl.
  { by exists (Ok acc), f. }
  unfold epi_fmaps_body at 1.
  destruct (tagval database c "suffix") as [suffix|].
  2:{ by exists (Raise AssertionError), f. }
  case_bool_decide.
  - destruct (IH acc f) as (r & f' & Hrest). exists r, f'. intros l0.
    by rewrite m_bind_ret.
  - destruct (collect_pe_dir_frame c f) as ([pe_dir|e] & f1 & Hpe).
    + destruct (IH (acc ++ [(c, pe_dir)]) f1) as (r & f' & Hrest).
      exists r, f'. intros l0. unfold m_bind at 1. unfold m_bind at 1.
      rewrite Hpe. unfold m_ret at 1. apply Hrest.
    + exists (Raise e), f1. intros l0. unfold m_bind at 1. unfold m_bind at 1.
      by rewrite Hpe.
Qed.

Lemma filter_phase_maps_silent (candidates : gset string) (f : gmap (string * string) V) :
  ∃ r ext, length ext ≤ 1 ∧ ∀ silent l0,
    filter_phase_maps' candidates silent {| filled := f; log := l0 |}
      = (r, {| filled := f;
               log := l0 ++ (if silent : bool then [] else ext) |}).
Proof.
  clear set_order_perm. unfold filter_phase_maps.
  destruct (res_fold (phase_maps_body set_order database candidates) ∅
              (set_order candidates)) as [incomplete|e].
  2:{ exists (Raise e), []. split; [simpl; lia|]. intros silent l0.
      rewrite m_bind_lift. destruct silent; by rewrite app_nil_r. }
  destruct (decide (0 < size incomplete)) as [Hsize|Hsize].
  - exists (Ok (candidates ∖ incomplete)),
      [InfoMissingMagnitude (sorted incomplete)].
    split; [done|]. intros silent l0. rewrite m_bind_lift.
    rewrite (bool_decide_eq_true_2 _ Hsize).
    destruct silent; simpl; [by rewrite app_nil_r|done].
  - exists (Ok candidates), []. split; [simpl; lia|]. intros silent l0.
    rewrite m_bind_lift, (bool_decide_eq_false_2 _ Hsize).
    destruct silent; by rewrite app_nil_r.
Qed.

Lemma filter_pepolar_silent (candidates : gset string) (bold : string) (f : gmap (string * string) V) :
  ∃ r f' ext, length ext ≤ 1 ∧ ∀ silent l0,
    filter_pepolar' candidates bold silent {| filled := f; log := l0 |}
      = (r, {| filled := f';
               log := l0 ++ (if silent : bool then [] else ext) |}).
Proof.
  clear set_order_perm. unfold filter_pepolar.
  destruct (epi_fmaps_fold_frame (set_order candidates) [] f)
    as ([epi_fmaps|e] & f1 & Hfold).
  2:{ exists (Raise e), f1, []. split; [simpl; lia|]. intros silent l0.
      unfold m_bind. rewrite Hfold. destruct silent; by rewrite app_nil_r. }
  destruct (decide (0 < length epi_fmaps)) as [H|H].
  2:{ exists (Ok candidates), f1, []. split; [simpl; lia|]. intros silent l0.
      unfold m_bind. rewrite Hfold.
      rewrite bool_decide_eq_false_2 by done.
      destruct silent; by rewrite app_nil_r. }
  destruct (collect_pe_dir_frame bold f1) as (rpe & f2 & Hpe).
  assert (Hquiet : ∀ r : result (gset string), r ≠ Raise ValueError →
    (∀ l0, (let* pe_dir := collect_pe_dir' bold in
            let* _ := m_lift (check_pes epi_fmaps pe_dir) in
            m_ret candidates)%M {| filled := f1; log := l0 |}
           = (r, {| filled := f2; log := l0 |})) →
    ∃ r f' ext, length ext ≤ 1 ∧ ∀ silent l0,
      filter_pepolar' candidates bold silent {| filled := f; log := l0 |}
        = (r, {| filled := f';
                 log := l0 ++ (if silent : bool then [] else ext) |})).
  { intros r Hr Hbody. exists r, f2, []. split; [simpl; lia|].
    intros silent l0. unfold filter_pepolar, m_bind at 1. rewrite Hfold.
    rewrite bool_decide_eq_true_2 by done.
    unfold m_try_ValueError. rewrite Hbody.
    replace (l0 ++ (if silent then [] else [])) with l0
      by (destruct silent; by rewrite app_nil_r).
    destruct r as [?|[]]; done. }
  assert (Hloud :
    (∀ l0, (let* pe_dir := collect_pe_dir' bold in
            let* _ := m_lift (check_pes epi_fmaps pe_dir) in
            m_ret candidates)%M {| filled := f1; log := l0 |}
           = (Raise ValueError, {| filled := f2; log := l0 |})) →
    ∃ r f' ext, length ext ≤ 1 ∧ ∀ silent l0,
      filter_pepolar' candidates bold silent {| filled := f; log := l0 |}
        = (r, {| filled := f';
                 log := l0 ++ (if silent : bool then [] else ext) |})).
  { intros Hbody.
    exists (Ok (candidates ∖ list_to_set (epi_fmaps.*1))), f2,
      [InfoUnmatchedPhaseEncoding (sorted (list_to_set (epi_fmaps.*1)))].
    split; [done|].
    intros silent l0. unfold filter_pepolar, m_bind at 1. rewrite Hfold.
    rewrite bool_decide_eq_true_2 by done.
    unfold m_try_ValueError. rewrite Hbody.
    destruct silent; simpl; [by rewrite app_nil_r|done]. }
  destruct rpe as [pe_dir|e].
  - destruct (check_pes epi_fmaps pe_dir) as [matched|e] eqn:Hck.
    + apply (Hquiet (Ok candidates)); [done|]. intros l0.
      unfold m_bind at 1. rewrite Hpe. by rewrite m_bind_lift, Hck.
    + destruct (decide (e = ValueError)) as [ ->|Hne].
      * apply Hloud. intros l0.
        unfold m_bind at 1. rewrite Hpe. by rewrite m_bind_lift, Hck.
      * apply (Hquiet (Raise e)); [congruence|]. intros l0.
        unfold m_bind at 1. rewrite Hpe. by rewrite m_bind_lift, Hck.
  - destruct (decide (e = ValueError)) as [ ->|Hne].
    + apply Hloud. intros l0. unfold m_bind at 1. by rewrite Hpe.
    + apply (Hquiet (Raise e)); [congruence|]. intros l0.
      unfold m_bind at 1. by rewrite Hpe.
Qed.

(** X1.  With [silent] the function returns the same list (or raises the same
    exception) and leaves the same metadata cache as without; the log is
    then left as it was, where the loud call appends at most two
    records. *)
Theorem collect_fieldmaps_silent_only_mutes bold_file_path (s : store V) :
  ∃ r f' ext, length ext ≤ 2 ∧ ∀ silent,
    collect_fieldmaps' bold_file_path silent s
      = (r, {| filled := f';
               log := log s ++ (if silent : bool then [] else ext) |}).
Proof.
  clear set_order_perm. unfold collect_fieldmaps.
  destruct (fieldmap_query database bold_file_path) as [found|].
  2:{ exists (Ok []), (filled s), []. split; [simpl; lia|]. intros silent.
      unfold m_ret.
      replace (log s ++ (if silent then [] else [])) with (log s)
        by (destruct silent; by rewrite app_nil_r).
      by rewrite store_eta. }
  destruct (filter_phase_maps_silent (list_to_set found) (filled s))
    as (r1 & ext1 & Hlen1 & Hpass1).
  destruct r1 as [kept|e].
  2:{ exists (Raise e), (filled s), ext1. split; [lia|]. intros silent.
      rewrite <- (store_eta s) at 1. unfold m_bind at 1.
      by rewrite Hpass1. }
  destruct (filter_pepolar_silent kept bold_file_path (filled s))
    as (r2 & f2 & ext2 & Hlen2 & Hpass2).
  exists (match r2 with Ok kept' => Ok (sorted kept') | Raise e => Raise e end),
    f2, (ext1 ++ ext2).
  split; [rewrite length_app; lia|]. intros silent.
  rewrite <- (store_eta s) at 1. unfold m_bind at 1. rewrite Hpass1.
  unfold m_bind. rewrite Hpass2.
  destruct silent; simpl; rewrite ?app_nil_r, <- ?app_assoc; by destruct r2.
Qed.

(** *** The pepolar pass *)

(** The loop over the candidates collects the epi maps, in the order of the
    iteration, each with its canonical direction. *)
Lemma epi_fmaps_fold_Ok l acc (s : store V) epi_fmaps s1 :
  m_fold epi_fmaps_body' acc l s = (Ok epi_fmaps, s1) →
  epi_fmaps.*1 =
    acc.*1 ++ filter (λ c, tagval database c "suffix" = Some "epi") l ∧
  (∀ c d, (c, d) ∈ epi_fmaps →
     (c, d) ∈ acc ∨
     canonicalize_direction_code
       (backfilled database s c "phase_encoding_direction") c = Ok d) ∧
  (∀ f k, backfilled database s1 f k = backfilled database s f k) ∧
  log s1 = log s.
Proof.
  clear set_order_perm.
  revert acc s. induction l as [|c l IH]; intros acc s Hfold; simpl in Hfold.
  { injection Hfold as <- <-. rewrite app_nil_r. auto. }
  apply m_bind_Ok in Hfold as (acc1 & s0 & Hbody & Hfold).
  unfold epi_fmaps_body in Hbody.
  destruct (tagval database c "suffix") as [suffix|] eqn:Hsuffix; [|done].
  case_bool_decide as Hepi.
  - injection Hbody as <- <-.
    destruct (IH _ _ Hfold) as (Hpaths & Hdirs & Hkeep & Hlog).
    split; [|done]. rewrite Hpaths, filter_cons_False; [done|]. congruence.
  - assert (suffix = "epi") as -> by (by destruct (decide (suffix = "epi"))).
    apply m_bind_Ok in Hbody as (pe_dir & s0' & Hpe & Hret).
    injection Hret as <- <-.
    destruct (collect_pe_dir_spec canonicalize_direction_code database c s)
      as (s0'' & Hspec & Hlog0 & Hkeep0).
    rewrite Hpe in Hspec. injection Hspec as Hd <-.
    destruct (IH _ _ Hfold) as (Hpaths & Hdirs & Hkeep & Hlog).
    split; [|split; [|split]].
    + rewrite Hpaths, fmap_app, filter_cons_True by done.
      by rewrite <- app_assoc.
    + intros c' d' [[Hacc|Hnew%list_elem_of_singleton]%elem_of_app|Hcanon]%Hdirs.
      * by left.
      * injection Hnew as -> ->. by right.
      * right. by rewrite <- Hkeep0.
    + intros f k. by rewrite Hkeep, Hkeep0.
    + congruence.
Qed.

(** The pass returns the candidates as they are, or without any of the
    epi maps: these stay or go together. *)
Lemma filter_pepolar_Ok candidates bold silent (s : store V) kept s' :
  filter_pepolar' candidates bold silent s = (Ok kept, s') →
  kept = candidates ∨
  ((∀ c, c ∈ kept ↔
         c ∈ candidates ∧ tagval database c "suffix" ≠ Some "epi") ∧
   ∃ epi_fmaps,
     epi_fmaps.*1 =
       filter (λ c, tagval database c "suffix" = Some "epi")
         (set_order candidates) ∧
     (∀ c d, (c, d) ∈ epi_fmaps →
        canonicalize_direction_code
          (backfilled database s c "phase_encoding_direction") c = Ok d) ∧
     match canonicalize_direction_code
             (backfilled database s bold "phase_encoding_direction") bold with
     | Ok pe_dir => check_pes epi_fmaps pe_dir = Raise ValueError
     | Raise e => e = ValueError
     end).
Proof.
  unfold filter_pepolar.
  intros (epi_fmaps & s1 & Hfold & Hrest)%m_bind_Ok.
  case_bool_decide; [|left; by injection Hrest as <- <-].
  apply epi_fmaps_fold_Ok in Hfold as (Hpaths & Hdirs & Hkeep & _).
  unfold m_try_ValueError in Hrest.
  destruct (m_bind _ _ s1) as [[r|e] s2] eqn:Hbody.
  - left. injection Hrest as <- <-.
    apply m_bind_Ok in Hbody as (? & ? & _ & Hbody).
    apply m_bind_Ok in Hbody as (? & ? & _ & Hbody).
    by injection Hbody as <- <-.
  - destruct e; try done. right.
    apply m_bind_Ok in Hrest as (? & ? & _ & Hret).
    injection Hret as <- <-. split.
    + intros c. rewrite elem_of_difference, elem_of_list_to_set, Hpaths.
      simpl. rewrite list_elem_of_filter.
      rewrite (elem_of_set_order set_order set_order_perm). tauto.
    + exists epi_fmaps. split; [done|]. split.
      { intros c d [Hnil%elem_of_nil|Hd]%Hdirs; done. }
      unfold m_bind at 1 in Hbody.
      destruct (collect_pe_dir_spec canonicalize_direction_code database
                  bold s1) as (s1' & Hspec & _ & _).
      rewrite Hspec, Hkeep in Hbody.
      destruct (canonicalize_direction_code _ bold) as [pe_dir|e].
      * rewrite m_bind_lift in Hbody.
        destruct (check_pes epi_fmaps pe_dir); [done|congruence].
      * congruence.
Qed.

(** X2.  Whenever collect_fieldmaps returns, a candidate that is no epi map and
    does not lack its magnitude image is returned; the epi candidates are
    returned all or none; and when they are dropped, the direction of the
    BOLD file did not canonicalize or check_pes refused the epi maps, each
    taken with its canonical direction, by a ValueError. *)
Theorem collect_fieldmaps_epi_together bold_file_path silent (s : store V)
    found l s' :
  fieldmap_query database bold_file_path = Some found →
  collect_fieldmaps' bold_file_path silent s = (Ok l, s') →
  let candidates : gset string := list_to_set found in
  let is_epi c := tagval database c "suffix" = Some "epi" in
  (∀ c, c ∈ found → ¬ is_epi c →
        ¬ lacks_magnitude database candidates c → c ∈ l) ∧
  (∀ c c', c ∈ l → is_epi c → c' ∈ found → is_epi c' → c' ∈ l) ∧
  (∀ c, c ∈ found → is_epi c → c ∉ l →
     ∃ epi_fmaps,
       (∀ c', c' ∈ epi_fmaps.*1 ↔ c' ∈ found ∧ is_epi c') ∧
       (∀ c' d, (c', d) ∈ epi_fmaps →
          canonicalize_direction_code
            (backfilled database s c' "phase_encoding_direction") c' = Ok d) ∧
       match canonicalize_direction_code
               (backfilled database s bold_file_path
                  "phase_encoding_direction") bold_file_path with
       | Ok pe_dir => check_pes epi_fmaps pe_dir = Raise ValueError
       | Raise e => e = ValueError
       end).
Proof.
  intros Hquery Hrun candidates is_epi.
  unfold collect_fieldmaps in Hrun. rewrite Hquery in Hrun.
  apply m_bind_Ok in Hrun as (kept & s1 & Hpass1 & Hrun).
  apply m_bind_Ok in Hrun as (kept' & s2 & Hpass2 & Hret).
  injection Hret as <- <-.
  pose proof (filter_phase_maps_Ok set_order set_order_perm database
                _ _ _ _ _ Hpass1) as Hkept.
  fold candidates in Hkept.
  assert (Hepi_kept : ∀ c, c ∈ found → is_epi c → c ∈ kept).
  { intros c Hc Hepi. apply Hkept. split; [by apply elem_of_list_to_set|].
    unfold lacks_magnitude, is_epi in *. rewrite Hepi.
    intros [[Hin _]|[[=] _]].
    repeat (apply elem_of_cons in Hin as [[=]|Hin]). by apply elem_of_nil in Hin. }
  assert (Hstore : ∀ f k,
    backfilled database s1 f k = backfilled database s f k).
  { destruct (filter_phase_maps_silent (list_to_set found) (filled s))
      as (r & ext & _ & Hsil).
    specialize (Hsil silent (log s)). rewrite store_eta in Hsil.
    rewrite Hpass1 in Hsil.
    injection Hsil as _ ->. done. }
  destruct (filter_pepolar_Ok _ _ _ _ _ _ Hpass2)
    as [ ->|(Hmem & epi_fmaps & Hpaths & Hdirs & Hfail)].
  - split_and!.
    + intros c Hc _ Hmag. apply elem_of_sorted, Hkept.
      split; [by apply elem_of_list_to_set|done].
    + intros c c' _ _ Hc' Hepi'. by apply elem_of_sorted, Hepi_kept.
    + intros c Hc Hepi Hnot. destruct Hnot. by apply elem_of_sorted, Hepi_kept.
  - split_and!.
    + intros c Hc Hepi Hmag. apply elem_of_sorted, Hmem. split; [|done].
      apply Hkept. split; [by apply elem_of_list_to_set|done].
    + intros c c' Hc%elem_of_sorted%Hmem Hepi. by destruct Hc.
    + intros c Hc Hepi _. exists epi_fmaps. split_and!.
      * intros c'. rewrite Hpaths, list_elem_of_filter.
        rewrite (elem_of_set_order set_order set_order_perm).
        split; [intros [Hepi' Hin]|intros [Hin Hepi']].
        -- apply Hkept in Hin as [Hin%elem_of_list_to_set _]. done.
        -- split; [done|]. by apply Hepi_kept.
      * intros c' d Hd. rewrite <- Hstore. by apply Hdirs.
      * by rewrite <- !Hstore.
Qed.

(** *** What the loud call logs *)

Lemma difference_difference (X Y : gset string) : Y ⊆ X → X ∖ (X ∖ Y) = Y.
Proof.
  intros Hsub. apply set_eq. intros x. rewrite !elem_of_difference.
  split.
  - intros [Hx Hnot]. destruct (decide (x ∈ Y)); [done|]. by destruct Hnot.
  - intros Hy. split; [by apply Hsub|]. by intros [_ Hnot].
Qed.

Lemma filter_phase_maps_loud candidates (s : store V) kept s' :
  filter_phase_maps' candidates false s = (Ok kept, s') →
  kept ⊆ candidates ∧
  (∀ c, c ∈ candidates ∖ kept ↔
        c ∈ candidates ∧ lacks_magnitude database candidates c) ∧
  log s' = log s ++
    (if decide (candidates ∖ kept = ∅) then []
     else [InfoMissingMagnitude (sorted (candidates ∖ kept))]).
Proof.
  unfold filter_phase_maps.
  intros (incomplete & s1 & Hinc & Hrest)%m_bind_Ok.
  unfold m_lift in Hinc. injection Hinc as Hinc <-.
  pose proof (phase_maps_fold_Ok set_order set_order_perm database _ _ _ _ Hinc)
    as Hspec.
  assert (Hin : ∀ x, x ∈ incomplete ↔
            x ∈ candidates ∧ lacks_magnitude database candidates x).
  { intros x. rewrite Hspec, (elem_of_set_order set_order set_order_perm).
    rewrite elem_of_empty. tauto. }
  assert (Hsub : incomplete ⊆ candidates).
  { intros x Hx. by apply Hin in Hx as [? _]. }
  case_bool_decide as Hsize.
  - apply m_bind_Ok in Hrest as (u & s2 & Hlog & Hret).
    injection Hret as <- <-. unfold logger, m_modify in Hlog. simpl in Hlog.
    injection Hlog as _ <-. simpl.
    rewrite (difference_difference _ _ Hsub).
    split; [set_solver|]. split; [done|].
    rewrite decide_False; [done|].
    intros ->. rewrite size_empty in Hsize. lia.
  - injection Hrest as <- <-. split; [done|].
    assert (incomplete = ∅) as Hempty.
    { apply leibniz_equiv, size_empty_iff. lia. }
    assert (Hnone : candidates ∖ candidates = (∅ : gset string))
      by set_solver.
    rewrite Hnone. split.
    + intros c. rewrite elem_of_empty. split; [done|].
      intros Hc%Hin. rewrite Hempty in Hc. by apply elem_of_empty in Hc.
    + rewrite decide_True by done. by rewrite app_nil_r.
Qed.

Lemma filter_pepolar_loud candidates bold (s : store V) kept s' :
  filter_pepolar' candidates bold false s = (Ok kept, s') →
  log s' = log s ++
    (if decide (candidates ∖ kept = ∅) then []
     else [InfoUnmatchedPhaseEncoding (sorted (candidates ∖ kept))]).
Proof.
  unfold filter_pepolar.
  intros (epi_fmaps & s1 & Hfold & Hrest)%m_bind_Ok.
  apply epi_fmaps_fold_Ok in Hfold as (Hpaths & _ & _ & Hlog1).
  assert (Hnone : candidates ∖ candidates = (∅ : gset string))
    by set_solver.
  case_bool_decide as Hlen.
  2:{ injection Hrest as <- <-. rewrite Hnone, decide_True by done.
      by rewrite app_nil_r, Hlog1. }
  destruct (collect_pe_dir_spec canonicalize_direction_code database bold s1)
    as (s2 & Hpe & Hlog2 & _).
  unfold m_try_ValueError, m_bind at 1 in Hrest. rewrite Hpe in Hrest.
  assert (Hdropped : ∀ s3,
    (let* _ := logger
                 (InfoUnmatchedPhaseEncoding
                    (sorted (list_to_set epi_fmaps.*1))) in
     m_ret (candidates ∖ list_to_set epi_fmaps.*1))%M s2 = (Ok kept, s3) →
    log s3 = log s ++
      (if decide (candidates ∖ kept = ∅) then []
       else [InfoUnmatchedPhaseEncoding (sorted (candidates ∖ kept))])).
  { intros s3 Hhandler. unfold m_bind, logger, m_modify, m_ret in Hhandler.
    injection Hhandler as <- <-. simpl.
    assert (Hsub : (list_to_set epi_fmaps.*1 : gset string) ⊆ candidates).
    { intros x. rewrite elem_of_list_to_set, Hpaths. simpl.
      intros [_ Hx]%list_elem_of_filter.
      by apply (elem_of_set_order set_order set_order_perm) in Hx. }
    rewrite (difference_difference _ _ Hsub).
    rewrite decide_False; [by rewrite Hlog2, Hlog1|].
    intros Hempty. destruct epi_fmaps as [|[c d] epi_fmaps];
      [simpl in Hlen; lia|].
    apply (not_elem_of_empty (C := gset string) c). rewrite <- Hempty.
    apply elem_of_list_to_set. by left. }
  destruct (canonicalize_direction_code _ bold) as [pe_dir|e].
  - rewrite m_bind_lift in Hrest.
    destruct (check_pes epi_fmaps pe_dir) as [matched|e].
    + injection Hrest as <- <-. rewrite Hnone, decide_True by done.
      by rewrite app_nil_r, Hlog2, Hlog1.
    + destruct e; try done. by apply Hdropped.
  - destruct e; try done. by apply Hdropped.
Qed.

(** X3.  What the loud call returns is what the query found less what it
    logs as dropped.  It logs the candidates that lack their magnitude
    image, sorted, when there are any, and after them the epi maps whose
    phase encoding direction did not match, sorted, when these are
    dropped; a returned path is a candidate found that is on neither
    list, and nothing else is written to the log. *)
Theorem collect_fieldmaps_logs_what_it_drops bold_file_path (s : store V)
    found l s' :
  fieldmap_query database bold_file_path = Some found →
  collect_fieldmaps' bold_file_path false s = (Ok l, s') →
  ∃ missing unmatched : gset string,
    (∀ c, c ∈ missing ↔
          c ∈ found ∧ lacks_magnitude database (list_to_set found) c) ∧
    (∀ c, c ∈ unmatched →
          c ∈ found ∧ tagval database c "suffix" = Some "epi") ∧
    (∀ c, c ∈ l ↔ c ∈ found ∧ (c ∉ missing) ∧ (c ∉ unmatched)) ∧
    log s' = log s
      ++ (if decide (missing = ∅) then []
          else [InfoMissingMagnitude (sorted missing)])
      ++ (if decide (unmatched = ∅) then []
          else [InfoUnmatchedPhaseEncoding (sorted unmatched)]).
Proof.
  intros Hquery Hrun.
  unfold collect_fieldmaps in Hrun. rewrite Hquery in Hrun.
  apply m_bind_Ok in Hrun as (kept & s1 & Hpass1 & Hrun).
  apply m_bind_Ok in Hrun as (kept' & s2 & Hpass2 & Hret).
  injection Hret as <- <-.
  pose proof (filter_phase_maps_Ok set_order set_order_perm database
                _ _ _ _ _ Hpass1) as Hkept.
  destruct (filter_phase_maps_loud _ _ _ _ Hpass1)
    as (Hsub1 & Hmissing & Hlog1).
  pose proof (filter_pepolar_loud _ _ _ _ _ Hpass2) as Hlog2.
  pose proof (filter_pepolar_subseteq set_order canonicalize_direction_code
                check_pes database _ _ _ _ _ _ Hpass2) as Hsub2.
  exists (list_to_set found ∖ kept), (kept ∖ kept').
  split_and!.
  - intros c. by rewrite Hmissing, elem_of_list_to_set.
  - intros c [Hc Hnot]%elem_of_difference.
    destruct (filter_pepolar_Ok _ _ _ _ _ _ Hpass2)
      as [ ->|(Hmem & _)]; [done|].
    split; [by apply Hsub1, elem_of_list_to_set in Hc|].
    destruct (decide (tagval database c "suffix" = Some "epi")); [done|].
    destruct Hnot. by apply Hmem.
  - intros c. rewrite elem_of_sorted, !elem_of_difference,
      elem_of_list_to_set.
    split.
    + intros Hc. pose proof (Hsub2 _ Hc) as Hc1.
      split; [by apply Hsub1, elem_of_list_to_set in Hc1|].
      split; [by intros [_ ?]|by intros [_ ?]].
    + intros (Hc & Hm & Hu).
      destruct (decide (c ∈ kept)) as [Hk|Hk]; [|by destruct Hm].
      destruct (decide (c ∈ kept')) as [Hk'|Hk']; [done|by destruct Hu].
  - by rewrite Hlog2, Hlog1, <- app_assoc.
Qed.

(** X4.  A candidate without a suffix tag stops collect_fieldmaps in its first
    pass, whatever the other candidates are and in whatever order the set
    is iterated: AssertionError escapes, and neither the cache nor the log
    has changed. *)
Theorem collect_fieldmaps_untagged_candidate bold_file_path silent
    (s : store V) found c :
  fieldmap_query database bold_file_path = Some found →
  c ∈ found → tagval database c "suffix" = None →
  collect_fieldmaps' bold_file_path silent s = (Raise AssertionError, s).
Proof.
  intros Hq Hc Hnone. unfold collect_fieldmaps. rewrite Hq.
  unfold m_bind at 1. unfold filter_phase_maps, m_bind at 1, m_lift.
  destruct (res_fold _ _ _) as [incomplete|e] eqn:Hfold.
  - destruct (phase_maps_fold_suffix set_order database _ _ _ _ Hfold c)
      as [? ?]; [|congruence].
    by apply (elem_of_set_order set_order set_order_perm),
      elem_of_list_to_set.
  - by apply (phase_maps_fold_Raise set_order database) in Hfold as [-> _].
Qed.

End collect_fieldmaps_passes.

(** ** collect_bold_files: the entries, the groups and the warnings *)

Lemma py_del_fold_lookup {A : Type} (d : gmap string A) excluded d' :
  res_fold py_del d excluded = Ok d' →
  ∀ p a, d' !! p = Some a → d !! p = Some a.
Proof.
  revert d. induction excluded as [|x excluded IH]; intros d Hf p a Hp;
    simpl in Hf.
  { by injection Hf as <-. }
  unfold py_del at 1 in Hf. destruct (d !! x) as [ax|] eqn:Hx; [|done].
  simpl in Hf. apply (IH _ Hf) in Hp.
  by apply lookup_delete_Some in Hp as [_ Hp].
Qed.

Section collect_bold_files_stages.
Context {V BD : Type}.
Context (set_order : gset string → list string).
Hypothesis set_order_perm : ∀ X, set_order X ≡ₚ elements X.
Context (canonicalize_direction_code : option V → string → result string).
Context (check_pes : list (string * string) → string → result bool).
Context (nvol : string → Z).
Context (BidsDatabase : Database V → BD).
Context (put : string → M BD ()).
Context (to_bids : string → M BD (option string)).
Context (database : Database V).

#[local] Abbreviation collect_fieldmaps' :=
  (collect_fieldmaps set_order canonicalize_direction_code check_pes database).
#[local] Abbreviation associated_files_body' :=
  (associated_files_body set_order canonicalize_direction_code check_pes
     database).
#[local] Abbreviation associated_files' :=
  (associated_files set_order canonicalize_direction_code check_pes database).
#[local] Abbreviation group_by_bids_path' :=
  (group_by_bids_path set_order BidsDatabase put to_bids database).
#[local] Abbreviation select_bold_file_path' :=
  (select_bold_file_path set_order nvol).
#[local] Abbreviation duplicates_body' := (duplicates_body set_order nvol).
#[local] Abbreviation collect_bold_files' :=
  (collect_bold_files set_order canonicalize_direction_code check_pes nvol
     BidsDatabase put to_bids database).
#[local] Abbreviation not_preferred_to' := (not_preferred_to nvol).

(** The anatomical files and the single-band references of a run, as the
    first loop asks the database for them. *)
#[local] Abbreviation t1ws_of bold_file_path :=
  (associations database bold_file_path
     [("datatype", Some "anat"); ("sub", tagval database bold_file_path "sub")]).
#[local] Abbreviation sbrefs_of bold_file_path :=
  (associations database bold_file_path
     [("datatype", Some "func"); ("suffix", Some "sbref");
      ("sub", tagval database bold_file_path "sub")]).

(** *** The first stage *)

Lemma associated_files_body_Ok d p (s : store V) d' s' :
  associated_files_body' d p s = (Ok d', s') →
  (t1ws_of p = None ∧ d' = d ∧ s' = s) ∨
  (∃ t1ws fmaps,
     t1ws_of p = Some t1ws ∧
     collect_fieldmaps' p false s = (Ok fmaps, s') ∧
     d' = <[p := (p :: t1ws ++ fmaps) ++ default [] (sbrefs_of p)]> d).
Proof.
  clear set_order_perm. unfold associated_files_body.
  destruct (associations database p [("datatype", Some "anat"); _])
    as [t1ws|] eqn:Ht1.
  2:{ intros [= <- <-]. by left. }
  intros (fmaps & s1 & Hfm & Hret)%m_bind_Ok. right.
  exists t1ws, fmaps. split; [done|].
  destruct (associations database p
              [("datatype", Some "func"); ("suffix", Some "sbref"); _]);
    injection Hret as <- <-; simpl; [done|].
  by rewrite app_nil_r.
Qed.

Lemma associated_files_fold_Ok l d (s : store V) d' s' :
  m_fold associated_files_body' d l s = (Ok d', s') →
  ∀ p files, d' !! p = Some files →
    d !! p = Some files ∨
    (p ∈ l ∧
     ∃ t1ws fmaps s1 s2,
       t1ws_of p = Some t1ws ∧
       collect_fieldmaps' p false s1 = (Ok fmaps, s2) ∧
       files = (p :: t1ws ++ fmaps) ++ default [] (sbrefs_of p)).
Proof.
  clear set_order_perm.
  revert d s. induction l as [|x l IH]; intros d s Hf p files Hp; simpl in Hf.
  { injection Hf as <- <-. by left. }
  apply m_bind_Ok in Hf as (d1 & s1 & Hb & Hf).
  destruct (IH _ _ Hf p files Hp) as [Hd1|(Hin & Hrest)].
  2:{ right. split; [by right|done]. }
  apply associated_files_body_Ok in Hb
    as [(_ & -> & _)|(t1ws & fmaps & Ht1 & Hfm & ->)]; [by left|].
  destruct (decide (x = p)) as [ ->|Hne].
  - rewrite lookup_insert_eq in Hd1. injection Hd1 as <-. right.
    split; [by left|]. by exists t1ws, fmaps, s, s1.
  - rewrite lookup_insert_ne in Hd1 by done. by left.
Qed.

(** *** The third stage *)

Lemma duplicates_body_lookup d item (s : store V) d' s' :
  duplicates_body' d item s = (Ok d', s') →
  ∀ p files, d' !! p = Some files → d !! p = Some files.
Proof.
  clear set_order_perm. unfold duplicates_body.
  case_bool_decide; [by intros [= <- <-]|].
  intros (sel & s1 & _ & Hrest)%m_bind_Ok.
  apply m_bind_Ok in Hrest as (last_path & s2 & _ & Hrest).
  apply m_bind_Ok in Hrest as (_ & s3 & _ & Hrest).
  injection Hrest as Hdel <-. apply (py_del_fold_lookup _ _ _ Hdel).
Qed.

Lemma duplicates_fold_lookup bids_dict d (s : store V) d' s' :
  m_fold duplicates_body' d bids_dict s = (Ok d', s') →
  ∀ p files, d' !! p = Some files → d !! p = Some files.
Proof.
  clear set_order_perm.
  revert d s. induction bids_dict as [|item g IH]; intros d s Hf p files Hp;
    simpl in Hf.
  { by injection Hf as <- <-. }
  apply m_bind_Ok in Hf as (d1 & s1 & Hb & Hf).
  eapply duplicates_body_lookup; [done|]. by eapply IH.
Qed.


(** *** Runs that share a BIDS path *)

(** X6.  With the translator as the spec has it, a fresh one that refuses
    a second file for a path that is taken, collect_bold_files returns
    what its first stage built and leaves the cache and the log as the
    first stage left them, whatever the runs, their tags and their
    numbers of volumes are: every group of [bids_dict] holds one run, so
    that runs that share a BIDS path are all kept and no warning about
    duplicates is written.  An exception of the first stage escapes as
    it is, and the grouping raises none. *)
Theorem collect_bold_files_keeps_duplicates
    (bids_path_of : string → option string)
    (setting_source_files feature_source_files : gset string) (s : store V) :
  collect_bold_files set_order canonicalize_direction_code check_pes nvol
    (λ _, []) (BidsDatabase_put bids_path_of) table_to_bids database
    setting_source_files feature_source_files s
  = associated_files' (setting_source_files ∪ feature_source_files) s.
Proof.
  clear set_order_perm. unfold collect_bold_files.
  destruct (associated_files' _ s) as [[d0|e] s0] eqn:Hassoc.
  2:{ by rewrite (m_bind_eq_Raise _ _ _ _ _ Hassoc). }
  rewrite (m_bind_eq_Ok _ _ _ _ _ Hassoc), m_bind_lift.
  unfold group_by_bids_path.
  destruct (bids_dict_fold_registered bids_path_of
              (set_order ((setting_source_files ∪ feature_source_files)
                            ∩ dom d0)) [] [])
    as (g & registered & Hfold & Hg).
  - by intros q q' b.
  - constructor.
  - match goal with
    | |- context [ (?run).1 ] =>
        change run with
          (m_fold (bids_dict_body (BidsDatabase_put bids_path_of) table_to_bids)
             [] (set_order ((setting_source_files ∪ feature_source_files)
                              ∩ dom d0)) ([] : bids_state))
    end.
    rewrite Hfold. cbn [fst].
    apply duplicates_fold_singletons.
    eapply Forall_impl; [exact Hg|]. intros item (q & -> & _).
    apply size_singleton.
Qed.

(** *** The resolution raises nothing of its own *)

(** X7.  An exception that escapes collect_bold_files comes from its first
    stage, that is from collect_fieldmaps for one of the runs, or from the
    grouping by BIDS path; choosing the run of a group and deleting the
    others raises nothing. *)
Theorem collect_bold_files_escapes
    (setting_source_files feature_source_files : gset string)
    (s : store V) e s' :
  collect_bold_files' setting_source_files feature_source_files s
    = (Raise e, s') →
  let bold_file_paths := setting_source_files ∪ feature_source_files in
  associated_files' bold_file_paths s = (Raise e, s') ∨
  ∃ d0, associated_files' bold_file_paths s = (Ok d0, s') ∧
        group_by_bids_path' (bold_file_paths ∩ dom d0) = Raise e.
Proof.
  intros Hrun bold_file_paths.
  destruct (associated_files' bold_file_paths s) as [[d0|e0] s0] eqn:Hassoc.
  2:{ left. unfold collect_bold_files in Hrun. fold bold_file_paths in Hrun.
      by rewrite (m_bind_eq_Raise _ _ _ _ _ Hassoc) in Hrun. }
  right.
  destruct (group_by_bids_path' (bold_file_paths ∩ dom d0))
    as [bids_dict|e1] eqn:Hgroup.
  - destruct (collect_bold_files_returns set_order set_order_perm
                canonicalize_direction_code check_pes nvol BidsDatabase put
                to_bids database setting_source_files feature_source_files
                s d0 s0 bids_dict Hassoc Hgroup) as (d & s1 & Hok).
    congruence.
  - unfold collect_bold_files in Hrun. fold bold_file_paths in Hrun.
    rewrite (m_bind_eq_Ok _ _ _ _ _ Hassoc), m_bind_lift, Hgroup in Hrun.
    injection Hrun as <- <-. by exists d0.
Qed.

(** *** The warnings *)

(** What a turn of the last loop writes for a group of several runs. *)
Lemma duplicates_body_log d b pathset (s : store V) d' s' :
  duplicates_body' d (b, pathset) s = (Ok d', s') →
  filled s' = filled s ∧
  if decide (size pathset = 1) then log s' = log s
  else
    ∃ sel excluded last_path,
      log s' = log s ++
        [WarningDuplicates
           (FoundIdentical (size pathset - 1) sel
              :: (ExcludingFile <$> excluded)
              ++ [DecisionCriterion
                    (if bool_decide (nvol last_path < nvol sel)%Z
                     then LongestDuration else LastAlphabetically)])] ∧
      sel ∈ pathset ∧ (∀ q, q ∈ pathset → not_preferred_to' sel q) ∧
      NoDup excluded ∧ (∀ q, q ∈ excluded ↔ q ∈ pathset ∧ q ≠ sel) ∧
      (∀ q, q ∈ excluded → q ∉ dom d') ∧
      last (set_order pathset) = Some last_path.
Proof.
  unfold duplicates_body. simpl.
  destruct (decide (size pathset = 1)) as [Hone|Hmore].
  { rewrite (bool_decide_eq_true_2 _ Hone). by intros [= <- <-]. }
  rewrite (bool_decide_eq_false_2 _ Hmore).
  intros ([sel m] & s1 & Hsel & Hrest)%m_bind_Ok. simpl in Hrest.
  injection Hsel as Hsel <-.
  apply (select_bold_file_path_Ok set_order set_order_perm nvol BidsDatabase
           put to_bids database) in Hsel as (Hsel & -> & Hbest).
  destruct (last (set_order pathset)) as [last_path|] eqn:Hlast.
  2:{ by apply m_bind_Ok in Hrest as (? & ? & [=] & _). }
  rewrite m_bind_ret in Hrest.
  apply m_bind_Ok in Hrest as (u & s3 & Hlog & Hrest).
  unfold logger, m_modify in Hlog. injection Hlog as _ <-.
  injection Hrest as Hdel <-. simpl.
  split; [done|].
  exists sel, (filter (λ p, p ≠ sel) (set_order pathset)), last_path.
  split_and!; [done|done|done| | | |done].
  - apply NoDup_filter, (NoDup_set_order set_order set_order_perm).
  - intros q. rewrite list_elem_of_filter,
      (elem_of_set_order set_order set_order_perm). tauto.
  - intros q Hq Hdom. apply (py_del_fold_Ok _ _ _ Hdel q) in Hdom. tauto.
Qed.

(** X8.  The duplicate resolution leaves the metadata cache alone and writes
    one warning for each group of several runs, in the order of the
    groups, and nothing else.  The warning names the run that is kept, a
    run no other of the group beats, and each of the other runs once, and
    these are removed.  The decision it reports is "longest duration"
    exactly when the run of the group that the set iterates last has
    fewer volumes than the run kept, and "last alphabetically" otherwise,
    whatever the other runs are. *)
Theorem collect_bold_files_warnings bids_dict d (s : store V) d' s' :
  m_fold duplicates_body' d bids_dict s = (Ok d', s') →
  filled s' = filled s ∧
  ∃ warnings,
    log s' = log s ++ warnings ∧
    Forall2
      (λ warning item,
         let pathset : gset string := item.2 in
         ∃ sel excluded last_path,
           warning =
             WarningDuplicates
               (FoundIdentical (size pathset - 1) sel
                  :: (ExcludingFile <$> excluded)
                  ++ [DecisionCriterion
                        (if bool_decide (nvol last_path < nvol sel)%Z
                         then LongestDuration else LastAlphabetically)]) ∧
           sel ∈ pathset ∧ (∀ q, q ∈ pathset → not_preferred_to' sel q) ∧
           NoDup excluded ∧ (∀ q, q ∈ excluded ↔ q ∈ pathset ∧ q ≠ sel) ∧
           (∀ q, q ∈ excluded → q ∉ dom d') ∧
           last (set_order pathset) = Some last_path)
      warnings (filter (λ item, size item.2 ≠ 1) bids_dict).
Proof.
  revert d s. induction bids_dict as [|[b pathset] g IH]; intros d s Hf;
    simpl in Hf.
  { injection Hf as <- <-. split; [done|]. exists [].
    split; [by rewrite app_nil_r|constructor]. }
  apply m_bind_Ok in Hf as (d1 & s1 & Hb & Hf).
  destruct (IH _ _ Hf) as (Hfilled & warnings & Hlog & Hall).
  assert (Hgone : ∀ q, q ∉ dom d1 → q ∉ dom d').
  { intros q Hq Hq'. apply Hq.
    apply elem_of_dom in Hq' as [files Hq'].
    apply (duplicates_fold_lookup _ _ _ _ _ Hf) in Hq'.
    by apply elem_of_dom. }
  apply duplicates_body_log in Hb as [Hfilled1 Hlog1].
  split; [congruence|].
  destruct (decide (size pathset = 1)) as [Hone|Hmore].
  - exists warnings. split; [congruence|].
    rewrite filter_cons_False; [done|]. simpl. by intros ?.
  - destruct Hlog1 as (sel & excluded & last_path & Hlog1 & Hrest).
    exists (WarningDuplicates
              (FoundIdentical (size pathset - 1) sel
                 :: (ExcludingFile <$> excluded)
                 ++ [DecisionCriterion
                       (if bool_decide (nvol last_path < nvol sel)%Z
                        then LongestDuration else LastAlphabetically)])
            :: warnings).
    split; [rewrite Hlog, Hlog1; by rewrite <- app_assoc|].
    rewrite filter_cons_True by done. constructor; [|done].
    exists sel, excluded, last_path.
    destruct Hrest as (? & ? & ? & ? & Hdel & ?).
    split_and!; [done..| |done]. intros q Hq. by apply Hgone, Hdel.
Qed.

End collect_bold_files_stages.

(** ** collect_events: the order of the candidates *)

(** X9.  The answer of collect_events does not depend on the order in which the
    database lists the associated event files, nor on how often it lists
    one: whatever rearrangement the association query goes through, as
    long as it keeps the files that occur, the result is the same. *)
Theorem collect_events_order_irrelevant {V : Type} (database : Database V)
    (rearrange : list string → list string) (source_file : string) :
  (∀ l c, c ∈ rearrange l ↔ c ∈ l) →
  collect_events
    {| tagval := tagval database;
       associations := λ path filters,
         rearrange <$> associations database path filters;
       get := get database;
       fromspecfileobj := fromspecfileobj database;
       sidecar := sidecar database |} source_file
  = collect_events database source_file.
Proof.
  intros Hsame. unfold collect_events. simpl.
  destruct (associations database source_file _) as [candidates|]; simpl;
    [|done].
  assert (Hset : (list_to_set (rearrange candidates) : gset string)
                 = list_to_set candidates).
  { apply set_eq. intros c. by rewrite !elem_of_list_to_set. }
  assert (Hlen : length (rearrange candidates) = 0 ↔ length candidates = 0).
  { split; intros Hnil%nil_length_inv.
    - destruct candidates as [|c candidates]; [done|].
      assert (c ∈ rearrange (c :: candidates)) as Hc by (apply Hsame; by left).
      rewrite Hnil in Hc. by apply elem_of_nil in Hc.
    - destruct (rearrange candidates) as [|c l] eqn:Hr; [done|].
      assert (c ∈ candidates) as Hc by (apply Hsame; rewrite Hr; by left).
      rewrite Hnil in Hc. by apply elem_of_nil in Hc. }
  rewrite Hset. by rewrite (bool_decide_ext _ _ Hlen).
Qed.

(** ** collect_metadata *)

Section collect_metadata_facts.
Context {V Setting S W F : Type}.
Context (dump : Setting → S).
Context (get_file_metadata : Database V → string → gmap string W).
Context (load : string → option (Nifti1Header F)).
Context (get_axcodes_set : string → gset (list string)).
Context (database : Database V).

#[local] Abbreviation collect_metadata' :=
  (collect_metadata dump get_file_metadata load get_axcodes_set database).

Lemma elements_one {A : Type} `{Countable A} (X : gset A) (x : A) :
  elements X = [x] → X = {[x]}.
Proof.
  intros Hx. apply set_eq. intros y.
  by rewrite <- elem_of_elements, Hx, list_elem_of_singleton, elem_of_singleton.
Qed.

(** X10.  collect_metadata returns exactly when the image has a NIfTI-1 header
    with four dimensions and a single orientation.  What it returns then
    holds the voxel size, the shape of a volume, the number of volumes and
    the orientation as the header gives them, whatever the sidecar says
    under these keys; every other entry of the file's metadata is passed
    on, and the dump of the setting is kept under "setting" unless the
    file's metadata has that key.  Otherwise the assertion on the header
    or on the number of dimensions escapes, or the ValueError of unpacking
    a set of orientations that has not one element. *)
Theorem collect_metadata_header_wins (source_file : string) (setting : Setting) :
  match collect_metadata' source_file setting with
  | Ok metadata =>
      ∃ header n axcodes,
        load source_file = Some header ∧
        length (get_data_shape header) = 4 ∧
        get_data_shape header !! 3 = Some n ∧
        get_axcodes_set source_file = {[axcodes]} ∧
        metadata !! "acquisition_voxel_size"
          = Some (VoxelSize (take 3 (get_zooms header))) ∧
        metadata !! "acquisition_volume_shape"
          = Some (VolumeShape (take 3 (get_data_shape header))) ∧
        metadata !! "number_of_volumes" = Some (NumberOfVolumes n) ∧
        metadata !! "acquisition_orientation"
          = Some (Orientation (String.concat "" axcodes)) ∧
        ∀ key, key ∉ acquisition_keys →
          metadata !! key =
            match get_file_metadata database source_file !! key with
            | Some value => Some (FileMetadata value)
            | None =>
                if decide (key = "setting")
                then Some (SettingDump (dump setting)) else None
            end
  | Raise e =>
      (e = AssertionError ∧
       (load source_file = None ∨
        ∃ header, load source_file = Some header ∧
                  length (get_data_shape header) ≠ 4)) ∨
      (e = ValueError ∧ size (get_axcodes_set source_file) ≠ 1)
  end.
Proof.
  unfold collect_metadata.
  destruct (load source_file) as [header|]; [|left; auto].
  case_bool_decide as Hdim; [|left; split; [done|right; by exists header]].
  destruct (get_data_shape header !! 3) as [n|] eqn:Hn.
  2:{ apply lookup_ge_None in Hn. lia. }
  destruct (elements (get_axcodes_set source_file)) as [|axcodes [|? ?]]
    eqn:Hax.
  - right. split; [done|]. unfold size, set_size. simpl. by rewrite Hax.
  - exists header, n, axcodes.
    split_and!; [done|done|done|by apply elements_one| | | | |].
    + do 3 (rewrite lookup_insert_ne by done). by rewrite lookup_insert_eq.
    + do 2 (rewrite lookup_insert_ne by done). by rewrite lookup_insert_eq.
    + rewrite lookup_insert_ne by done. by rewrite lookup_insert_eq.
    + by rewrite lookup_insert_eq.
    + intros key Hkey. unfold acquisition_keys in Hkey.
      rewrite !not_elem_of_cons in Hkey.
      destruct Hkey as (? & ? & ? & ? & _).
      rewrite !lookup_insert_ne by done.
      rewrite lookup_union, lookup_fmap.
      destruct (get_file_metadata database source_file !! key) as [value|];
        simpl.
      * by destruct (_ !! key).
      * destruct (decide (key = "setting")) as [ ->|Hne].
        -- by rewrite lookup_singleton_eq.
        -- by rewrite lookup_singleton_ne.
  - right. split; [done|]. unfold size, set_size. simpl. by rewrite Hax.
Qed.

End collect_metadata_facts.

(** ** get_conditions *)

Section get_conditions_facts.
Context {F E : Type} `{EqDecision E}.
Context (set_order : gset string → list string).
Hypothesis set_order_perm : ∀ X, set_order X ≡ₚ elements X.
Context (database_get : kwargs → option (list string)).
Context (applyfilters : gset string → list F → gset string).
Context (collect_events : string → result (option E)).
Context (ConditionFile_conditions : E → list string).

#[local] Abbreviation find_bold_file_paths' :=
  (find_bold_file_paths database_get applyfilters).
#[local] Abbreviation get_conditions_body' :=
  (get_conditions_body collect_events ConditionFile_conditions).
#[local] Abbreviation get_conditions' :=
  (get_conditions set_order database_get applyfilters collect_events
     ConditionFile_conditions).

Lemma append_condition_fold (conditions new : list string) :
  let r := foldl append_condition conditions new in
  (NoDup conditions → NoDup r) ∧
  ∀ c, c ∈ r ↔ c ∈ conditions ∨ c ∈ new.
Proof.
  revert conditions. induction new as [|x new IH]; intros conditions; simpl.
  { split; [done|]. intros c. rewrite elem_of_nil. tauto. }
  destruct (IH (append_condition conditions x)) as [Hnd Hmem].
  unfold append_condition in *. case_bool_decide as Hx.
  - split.
    + intros Hc. apply Hnd, NoDup_app. split; [done|].
      split; [|apply NoDup_singleton].
      by intros y Hy ->%list_elem_of_singleton.
    + intros c. rewrite Hmem, elem_of_app, list_elem_of_singleton,
        elem_of_cons. tauto.
  - split; [done|]. intros c. rewrite Hmem, elem_of_cons.
    assert (x ∈ conditions) by (by destruct (decide (x ∈ conditions))).
    split; [tauto|]. intros [?|[ ->|?]]; auto.
Qed.

(** What the loop over the BOLD files keeps: the conditions are those of
    the event files seen, once each, and the event files seen are those of
    the BOLD files gone through. *)
Lemma get_conditions_fold l acc :
  NoDup acc.1 →
  match res_fold get_conditions_body' acc l with
  | Ok acc' =>
      NoDup acc'.1 ∧
      (∀ ev, ev ∈ acc'.2 ↔
             ev ∈ acc.2 ∨ ∃ p, p ∈ l ∧ collect_events p = Ok (Some ev)) ∧
      ((∀ c, c ∈ acc.1 ↔ ∃ ev, ev ∈ acc.2 ∧ c ∈ ConditionFile_conditions ev) →
       ∀ c, c ∈ acc'.1 ↔ ∃ ev, ev ∈ acc'.2 ∧ c ∈ ConditionFile_conditions ev)
  | Raise e => ∃ p, p ∈ l ∧ collect_events p = Raise e
  end.
Proof.
  clear set_order_perm.
  revert acc. induction l as [|p l IH]; intros [conditions seen] Hnd; simpl.
  { split; [done|]. split; [|done]. intros ev. split; [by left|].
    by intros [?|(? & ?%elem_of_nil & _)]. }
  unfold get_conditions_body at 1. simpl.
  destruct (collect_events p) as [[ev|]|e] eqn:Hp; simpl.
  - case_bool_decide as Hseen; cbn [res_bind].
    + specialize (IH (conditions, seen) Hnd).
      destruct (res_fold _ _ l) as [acc'|e].
      * destruct IH as (Hnd' & Hseen' & Hconds'). split; [done|].
        split; [|done]. intros ev'. rewrite Hseen'. simpl. split.
        -- intros [?|(q & Hq & Hev)]; [by left|]. right. exists q.
           split; [by right|done].
        -- intros [?|(q & [ ->|Hq]%elem_of_cons & Hev)]; [by left| |].
           ++ left. congruence.
           ++ right. by exists q.
      * destruct IH as (q & Hq & Hraise). exists q. split; [by right|done].
    + destruct (append_condition_fold conditions (ConditionFile_conditions ev))
        as [Hnd1 Hmem1].
      specialize (IH (foldl append_condition conditions
                        (ConditionFile_conditions ev), seen ++ [ev])
                     (Hnd1 Hnd)).
      destruct (res_fold _ _ l) as [acc'|e].
      * destruct IH as (Hnd' & Hseen' & Hconds'). split; [done|].
        simpl in *. split.
        -- intros ev'. rewrite Hseen', elem_of_app, list_elem_of_singleton.
           split.
           ++ intros [[?| ->]|(q & Hq & Hev)]; [by left| |].
              ** right. exists p. split; [by left|done].
              ** right. exists q. split; [by right|done].
           ++ intros [?|(q & [ ->|Hq]%elem_of_cons & Hev)]; [by left; left| |].
              ** left. right. congruence.
              ** right. by exists q.
        -- intros Hconds. apply Hconds'. intros c. rewrite Hmem1, Hconds.
           split.
           ++ intros [(ev' & Hev' & Hc)|Hc].
              ** exists ev'. split; [|done]. apply elem_of_app. by left.
              ** exists ev. split; [|done]. apply elem_of_app. right.
                 by apply list_elem_of_singleton.
           ++ intros (ev' & [Hev'| ->%list_elem_of_singleton]%elem_of_app & Hc).
              ** left. by exists ev'.
              ** by right.
      * destruct IH as (q & Hq & Hraise). exists q. split; [by right|done].
  - specialize (IH (conditions, seen) Hnd).
    destruct (res_fold _ _ l) as [acc'|e].
    + destruct IH as (Hnd' & Hseen' & Hconds'). split; [done|].
      split; [|done]. intros ev'. rewrite Hseen'. simpl. split.
      * intros [?|(q & Hq & Hev)]; [by left|]. right. exists q.
        split; [by right|done].
      * intros [?|(q & [ ->|Hq]%elem_of_cons & Hev)]; [by left|congruence|].
        right. by exists q.
    + destruct IH as (q & Hq & Hraise). exists q. split; [by right|done].
  - exists p. split; [by left|done].
Qed.

(** X11.  get_conditions raises ValueError when the database has no BOLD file.
    Otherwise it returns, without repetition, exactly the conditions of
    the event files of the BOLD files that pass the filter: skipping the
    event files already seen loses no condition.  An exception of
    collect_events for one of these BOLD files escapes. *)
Theorem get_conditions_complete (_filter : option F) :
  match find_bold_file_paths database_get applyfilters _filter with
  | Raise e =>
      e = ValueError ∧
      database_get [("datatype", Some "func"); ("suffix", Some "bold")] = None ∧
      get_conditions' _filter = Raise ValueError
  | Ok bold_file_paths =>
      match get_conditions' _filter with
      | Ok conditions =>
          NoDup conditions ∧
          ∀ c, c ∈ conditions ↔
               ∃ p ev, p ∈ bold_file_paths ∧
                       collect_events p = Ok (Some ev) ∧
                       c ∈ ConditionFile_conditions ev
      | Raise e =>
          ∃ p, p ∈ bold_file_paths ∧ collect_events p = Raise e
      end
  end.
Proof.
  unfold get_conditions.
  destruct (find_bold_file_paths' _filter) as [bold_file_paths|e] eqn:Hfind;
    simpl.
  2:{ unfold find_bold_file_paths in Hfind.
      destruct (database_get _) as [found|]; [by destruct _filter|].
      by injection Hfind as <-. }
  pose proof (get_conditions_fold (set_order bold_file_paths) ([], [])
                (NoDup_nil_2 (A := string))) as Hfold.
  destruct (res_fold _ _ _) as [[conditions seen]|e]; simpl in *.
  - destruct Hfold as (Hnd & Hseen & Hconds). split; [done|].
    intros c. rewrite Hconds.
    + split.
      * intros (ev & [?%elem_of_nil|(p & Hp & Hev)]%Hseen & Hc); [done|].
        exists p, ev.
        by apply (elem_of_set_order set_order set_order_perm) in Hp.
      * intros (p & ev & Hp & Hev & Hc). exists ev. split; [|done].
        apply Hseen. right. exists p. split; [|done].
        by apply (elem_of_set_order set_order set_order_perm).
    + intros c'. rewrite elem_of_nil. split; [done|].
      by intros (? & ?%elem_of_nil & _).
  - destruct Hfold as (p & Hp & Hraise). exists p. split; [|done].
    by apply (elem_of_set_order set_order set_order_perm) in Hp.
Qed.

End get_conditions_facts.

(** ** The confounds of a TaskBased widget *)

Lemma py_remove_Ok (x : string) (l : list string) :
  x ∈ l → NoDup l →
  ∃ r, py_remove x l = Ok r ∧ NoDup r ∧ ∀ c, c ∈ r ↔ c ∈ l ∧ c ≠ x.
Proof.
  induction l as [|y l IH]; intros Hx Hnd; [by apply elem_of_nil in Hx|].
  apply NoDup_cons in Hnd as [Hy Hnd]. simpl.
  destruct (decide (y = x)) as [ ->|Hne].
  - exists l. split; [done|]. split; [done|]. intros c.
    rewrite elem_of_cons. split; [|tauto]. intros Hc. split; [by right|].
    by intros ->.
  - apply elem_of_cons in Hx as [ ->|Hx]; [done|].
    destruct (IH Hx Hnd) as (r & -> & Hndr & Hr). simpl.
    exists (y :: r). split; [done|]. split.
    + apply NoDup_cons. split; [|done]. rewrite Hr. tauto.
    + intros c. rewrite !elem_of_cons, Hr. split; [|tauto].
      intros [ ->|[? ?]]; auto.
Qed.

Lemma with_confound_absent (confound : string) (rest : confounds_options_t) :
  confound ∉ rest.*1 → with_confound [confound] <$> rest = rest.
Proof.
  induction rest as [|[key [text selected]] rest IH]; intros Hk; [done|].
  simpl in Hk. apply not_elem_of_cons in Hk as [Hne Hk].
  rewrite fmap_cons, (IH Hk). unfold with_confound. simpl.
  rewrite bool_decide_eq_false_2, orb_false_r; [done|].
  by intros ->%list_elem_of_singleton.
Qed.

Lemma select_confound_Ok (confound : string) (confounds_options : confounds_options_t) :
  confound ∈ confounds_options.*1 → NoDup confounds_options.*1 →
  select_confound confound confounds_options
    = Ok (with_confound [confound] <$> confounds_options).
Proof.
  induction confounds_options as [|[key [text selected]] rest IH];
    intros Hin Hnd; [by apply elem_of_nil in Hin|].
  rewrite fmap_cons in Hin, Hnd. cbn [fst] in Hin, Hnd.
  apply NoDup_cons in Hnd as [Hk Hnd].
  rewrite fmap_cons. cbn [select_confound].
  destruct (decide (key = confound)) as [ ->|Hne].
  - rewrite (with_confound_absent _ _ Hk). unfold with_confound.
    cbn [fst snd].
    rewrite bool_decide_eq_true_2, orb_true_r; [done|].
    by apply list_elem_of_singleton.
  - apply elem_of_cons in Hin as [ ->|Hin]; [done|].
    rewrite (IH Hin Hnd). cbn [res_bind]. unfold with_confound at 2.
    cbn [fst snd].
    rewrite bool_decide_eq_false_2, orb_false_r; [done|].
    by intros ->%list_elem_of_singleton.
Qed.

Lemma select_confounds_fold (confounds : list string)
    (confounds_options : confounds_options_t) :
  (∀ c, c ∈ confounds → c ∈ confounds_options.*1) →
  NoDup confounds_options.*1 →
  res_fold (λ confounds_options confound,
              select_confound confound confounds_options)
    confounds_options confounds
  = Ok (with_confound confounds <$> confounds_options).
Proof.
  revert confounds_options.
  induction confounds as [|c confounds IH]; intros confounds_options Hin Hnd;
    cbn [res_fold].
  { f_equal. rewrite <- (list_fmap_id confounds_options) at 1.
    apply list_fmap_ext. intros i [key [text selected]] _.
    unfold with_confound. cbn [fst snd].
    rewrite bool_decide_eq_false_2 by apply not_elem_of_nil.
    by rewrite orb_false_r. }
  assert (Hkeys : (with_confound [c] <$> confounds_options).*1
                  = confounds_options.*1).
  { rewrite <- list_fmap_compose. by apply list_fmap_ext. }
  rewrite select_confound_Ok; [|apply Hin; by left|done]. cbn [res_bind].
  rewrite IH; [|intros c' Hc'; rewrite Hkeys; apply Hin; by right
               |by rewrite Hkeys].
  f_equal. rewrite <- list_fmap_compose. apply list_fmap_ext.
  intros i [key [text selected]] _. unfold with_confound.
  change (((key, (text, selected || bool_decide (key ∈ [c])
                    || bool_decide (key ∈ confounds))))
          = (key, (text, selected || bool_decide (key ∈ c :: confounds)))).
  do 2 f_equal. rewrite <- orb_assoc. f_equal.
  destruct (decide (key = c)) as [ ->|Hne].
  - rewrite (bool_decide_eq_true_2 (c ∈ [c]))
      by (by apply list_elem_of_singleton).
    rewrite (bool_decide_eq_true_2 (c ∈ c :: confounds)) by (by left). done.
  - rewrite (bool_decide_eq_false_2 (key ∈ [c]))
      by (by intros ?%list_elem_of_singleton).
    simpl. apply bool_decide_ext. rewrite elem_of_cons. tauto.
Qed.

(** X12.  Saving a selection of confounds and building the widget anew from the
    settings gives the selection list back, in the order and with the
    prompts of the constructor, with every selected confound marked
    except ICA-AROMA: it is taken out of confounds_removal and kept as the
    flag ica_aroma, which the constructor does not read, so that its entry
    comes back unmarked whether it was selected or not. *)
Theorem confounds_selection_round_trip (selected : list string)
    (setting_dict : confound_settings) :
  NoDup selected →
  (∀ c, c ∈ selected → c ∈ confounds_options_default.*1) →
  ∃ saved confounds_options,
    feed_feature_dict_confounds selected setting_dict = Ok saved ∧
    ica_aroma saved = Some (bool_decide ("ICA-AROMA" ∈ selected)) ∧
    TaskBased_confounds_options saved = Ok confounds_options ∧
    confounds_selection confounds_options =
      (λ entry, (entry.2.1, entry.1,
                 bool_decide (entry.1 ∈ selected ∧ entry.1 ≠ "ICA-AROMA")))
        <$> confounds_options_default.
Proof.
  intros Hnd Hknown.
  assert (Hdefault_nd : NoDup confounds_options_default.*1).
  { compute_done. }
  assert (Hdefault_flags :
    Forall (λ entry, entry.2.2 = false) confounds_options_default).
  { unfold confounds_options_default.
    repeat (first [apply Forall_nil_2 | apply Forall_cons_2]); done. }
  assert (Hfinish : ∀ confounds,
    (∀ c, c ∈ confounds ↔ c ∈ selected ∧ c ≠ "ICA-AROMA") →
    ∃ confounds_options,
      TaskBased_confounds_options
        {| ica_aroma := Some (bool_decide ("ICA-AROMA" ∈ selected));
           confounds_removal := Some confounds |} = Ok confounds_options ∧
      confounds_selection confounds_options =
        (λ entry, (entry.2.1, entry.1,
                   bool_decide (entry.1 ∈ selected ∧ entry.1 ≠ "ICA-AROMA")))
          <$> confounds_options_default).
  { intros confounds Hmem. unfold TaskBased_confounds_options.
    cbn [confounds_removal].
    rewrite select_confounds_fold; [|intros c [Hc _]%Hmem; by apply Hknown|done].
    eexists. split; [done|].
    unfold confounds_selection. rewrite <- list_fmap_compose.
    apply Forall_fmap_ext_1. eapply Forall_impl; [exact Hdefault_flags|].
    intros [key [text flag]] Hflag. cbn [fst snd] in Hflag. subst flag.
    unfold with_confound.
    change ((text, key, false || bool_decide (key ∈ confounds))
            = (text, key, bool_decide (key ∈ selected ∧ key ≠ "ICA-AROMA"))).
    f_equal. apply bool_decide_ext, Hmem. }
  unfold feed_feature_dict_confounds.
  case_bool_decide as Hica.
  - destruct (py_remove_Ok "ICA-AROMA" selected Hica Hnd)
      as (confounds & -> & _ & Hmem). simpl.
    destruct (Hfinish confounds Hmem) as (confounds_options & Hopts & Hrest).
    by exists {| ica_aroma := Some true; confounds_removal := Some confounds |},
      confounds_options.
  - destruct (Hfinish selected) as (confounds_options & Hopts & Hrest).
    { intros c. split; [|tauto]. intros Hc. split; [done|]. by intros ->. }
    by exists {| ica_aroma := Some false; confounds_removal := Some selected |},
      confounds_options.
Qed.

(** ** The images of a TaskBased widget *)

Lemma dict_setitem_keys {A : Type} (key : string) (value : A)
    (d : list (string * A)) :
  (dict_setitem key value d).*1 =
    if decide (key ∈ d.*1) then d.*1 else d.*1 ++ [key].
Proof.
  induction d as [|[k v] d IH].
  { cbn. by destruct (decide (key ∈ [])) as [?%elem_of_nil|]. }
  cbn [dict_setitem]. rewrite !fmap_cons. cbn [fst].
  destruct (decide (k = key)) as [ ->|Hne].
  - rewrite fmap_cons. cbn [fst]. by rewrite decide_True by (by left).
  - rewrite fmap_cons, IH. cbn [fst].
    destruct (decide (key ∈ d.*1)) as [Hin|Hout].
    + by rewrite decide_True by (by right).
    + rewrite decide_False; [done|].
      intros [?|?]%elem_of_cons; by simplify_eq.
Qed.

Lemma dict_setitem_assoc {A : Type} (key : string) (value : A)
    (d : list (string * A)) (k : string) :
  assoc k (dict_setitem key value d) =
    if decide (k = key) then Some value else assoc k d.
Proof.
  induction d as [|[k0 v0] d IH]; simpl.
  { destruct (decide (key = k)), (decide (k = key)); by simplify_eq. }
  destruct (decide (k0 = key)) as [ ->|Hne]; simpl.
  - destruct (decide (key = k)), (decide (k = key)); by simplify_eq.
  - rewrite IH.
    destruct (decide (k0 = k)), (decide (k = key)); by simplify_eq.
Qed.

Lemma dict_setitem_fold (b : bool) (keys : list string)
    (d : list (string * bool)) :
  let d' := foldl (λ d key, dict_setitem key b d) d keys in
  (NoDup d.*1 → NoDup d'.*1) ∧
  (∃ added, d'.*1 = d.*1 ++ added ∧ ∀ k, k ∈ added → k ∈ keys) ∧
  (∀ k, k ∈ d'.*1 ↔ k ∈ d.*1 ∨ k ∈ keys) ∧
  (∀ k, assoc k d' = if decide (k ∈ keys) then Some b else assoc k d).
Proof.
  revert d. induction keys as [|key keys IH]; intros d; cbn [foldl]; cbn zeta.
  { split; [done|]. split; [exists []; split; [by rewrite app_nil_r|]|].
    - by intros k ?%elem_of_nil.
    - split; [intros k; rewrite elem_of_nil; tauto|]. intros k.
      by destruct (decide (k ∈ [])) as [?%elem_of_nil|]. }
  destruct (IH (dict_setitem key b d))
    as (Hnd & (added & Hkeys & Hadded) & Hmem & Hassoc).
  cbn zeta in *.
  rewrite dict_setitem_keys in Hnd, Hkeys, Hmem.
  split; [|split; [|split]].
  - intros Hd. apply Hnd. destruct (decide (key ∈ d.*1)); [done|].
    apply NoDup_app. split; [done|]. split; [|apply NoDup_singleton].
    by intros k Hk ->%list_elem_of_singleton.
  - destruct (decide (key ∈ d.*1)).
    + exists added. split; [done|]. intros k Hk. right. by apply Hadded.
    + exists (key :: added). split; [by rewrite Hkeys, <- app_assoc|].
      intros k [ ->|Hk]%elem_of_cons; [by left|right; by apply Hadded].
  - intros k. rewrite Hmem, elem_of_cons.
    destruct (decide (key ∈ d.*1)) as [Hin|Hout].
    + split; [tauto|]. intros [?|[ ->|?]]; auto.
    + rewrite elem_of_app, list_elem_of_singleton. tauto.
  - intros k. rewrite Hassoc, dict_setitem_assoc.
    destruct (decide (k ∈ keys)) as [Hin|Hout].
    + by rewrite decide_True by (by right).
    + destruct (decide (k = key)) as [ ->|Hne].
      * by rewrite decide_True by (by left).
      * rewrite decide_False; [done|].
        intros [?|?]%elem_of_cons; by simplify_eq.
Qed.

(** X13.  The images the widget offers when it is built are the tasks of the
    available images, in their order, followed by the values of the saved
    filter that are not among them; no image is offered twice, and an
    image is marked exactly when it is a value of the saved filter.  So a
    task that was selected when the settings were saved is offered, and
    marked, even when no image of that task is available any more. *)
Theorem images_to_use_marks_saved (available_images values : list string) :
  let offered := images_to_use available_images values in
  NoDup offered.*1 ∧
  (∀ image, image ∈ offered.*1 ↔ image ∈ available_images ∨ image ∈ values) ∧
  (∀ image marked, (image, marked) ∈ offered →
     marked = bool_decide (image ∈ values)) ∧
  (NoDup available_images →
   ∃ stale, offered.*1 = available_images ++ stale ∧
            ∀ image, image ∈ stale → image ∈ values) ∧
  images_selection offered =
    (λ entry, (entry.1, entry.1, bool_decide (entry.1 ∈ values))) <$> offered.
Proof.
  unfold images_to_use.
  destruct (dict_setitem_fold false available_images [])
    as (Hnd1 & (added1 & Hkeys1 & Hadded1) & Hmem1 & Hassoc1).
  set (d1 := foldl (λ d task, dict_setitem task false d) [] available_images)
    in *.
  destruct (dict_setitem_fold true values d1)
    as (Hnd2 & (added2 & Hkeys2 & Hadded2) & Hmem2 & Hassoc2).
  set (d2 := foldl (λ d image, dict_setitem image true d) d1 values) in *.
  cbn zeta in *.
  assert (Hnd : NoDup d2.*1) by (apply Hnd2, Hnd1, NoDup_nil_2).
  assert (Hentry : ∀ image marked, (image, marked) ∈ d2 →
            marked = bool_decide (image ∈ values)).
  { intros image marked Hin.
    assert (assoc image d2 = Some marked) as Hassoc.
    { clear -Hnd Hin. induction d2 as [|[k v] d IH]; simpl in *;
        [by apply elem_of_nil in Hin|].
      apply NoDup_cons in Hnd as [Hk Hnd].
      apply elem_of_cons in Hin as [[= -> ->]|Hin].
      - by rewrite decide_True.
      - rewrite decide_False; [by apply IH|]. intros ->. apply Hk.
        apply list_elem_of_fmap. by exists (image, marked). }
    rewrite Hassoc2 in Hassoc.
    destruct (decide (image ∈ values)) as [Hv|Hv].
    - injection Hassoc as <-. by rewrite bool_decide_eq_true_2.
    - rewrite Hassoc1 in Hassoc.
      destruct (decide (image ∈ available_images)); [|done].
      injection Hassoc as <-. by rewrite bool_decide_eq_false_2. }
  split_and!; [done| |done| |].
  - intros image. rewrite Hmem2, Hmem1, elem_of_nil. tauto.
  - intros Havailable. exists added2. split; [|done].
    rewrite Hkeys2. f_equal.
    assert (Hd1 : ∀ (l : list string) (d : list (string * bool)),
      NoDup (d.*1 ++ l) →
      (foldl (λ d task, dict_setitem task false d) d l).*1 = d.*1 ++ l).
    { clear. induction l as [|x l IH]; intros d Hnd; simpl.
      - by rewrite app_nil_r.
      - rewrite IH; rewrite dict_setitem_keys.
        + rewrite decide_False; [by rewrite <- app_assoc|].
          intros Hx. apply NoDup_app in Hnd as (_ & Hdis & _).
          apply (Hdis x Hx). by left.
        + rewrite decide_False.
          * by rewrite <- app_assoc.
          * intros Hx. apply NoDup_app in Hnd as (_ & Hdis & _).
            apply (Hdis x Hx). by left. }
    by apply (Hd1 available_images []).
  - unfold images_selection. apply Forall_fmap_ext_1, Forall_forall.
    intros [image marked] Hin. simpl. f_equal. by apply Hentry.
Qed.

(** ** SetMetadataStep *)

Lemma dict_zip_fold_absent (keys values : list string)
    (d : gmap string string) (k : string) :
  k ∉ keys →
  foldl (λ d item, <[item.1 := item.2]> d) d (zip keys values) !! k = d !! k.
Proof.
  revert values d. induction keys as [|k0 keys IH]; intros [|v0 values] d Hk;
    simpl; try done.
  apply not_elem_of_cons in Hk as [Hne Hk].
  rewrite IH by done. by rewrite lookup_insert_ne.
Qed.

(** Where the keys are distinct, the dict of a zip maps each key to the
    value at its position. *)
Lemma dict_zip_lookup (keys values : list string) (i : nat) (k v : string) :
  NoDup keys → keys !! i = Some k → values !! i = Some v →
  dict_zip keys values !! k = Some v.
Proof.
  unfold dict_zip. generalize (∅ : gmap string string).
  revert values i. induction keys as [|k0 keys IH];
    intros [|v0 values] [|i] d Hnd Hk Hv; simpl in *; try done.
  - injection Hk as ->. injection Hv as ->.
    apply NoDup_cons in Hnd as [Hk _].
    by rewrite dict_zip_fold_absent, lookup_insert_eq.
  - apply NoDup_cons in Hnd as [_ Hnd]. by eapply IH.
Qed.

Lemma set_metadata_fold {W : Type} (key : string) (w : W) (objs : list nat)
    (files : list (option (gmap string W))) :
  ∀ j, foldl (set_metadata key w) files objs !! j =
         (λ metadata,
            if bool_decide (j ∈ objs)
            then Some (<[key := w]> (default ∅ metadata)) else metadata)
           <$> files !! j.
Proof.
  revert files. induction objs as [|o objs IH]; intros files j; cbn [foldl].
  { destruct (files !! j) as [metadata|]; [|done]. cbn [fmap option_fmap option_map].
    by rewrite bool_decide_eq_false_2 by apply not_elem_of_nil. }
  rewrite IH. unfold set_metadata.
  destruct (files !! o) as [metadata_o|] eqn:Ho.
  - destruct (decide (j = o)) as [ ->|Hne].
    + rewrite list_lookup_insert_eq by (by eapply lookup_lt_Some).
      rewrite Ho. simpl.
      rewrite (bool_decide_eq_true_2 (o ∈ o :: objs)) by (by left).
      case_bool_decide; [|done]. simpl. by rewrite insert_insert_eq.
    + rewrite list_lookup_insert_ne by done.
      destruct (files !! j) as [metadata|]; simpl; [|done].
      rewrite (bool_decide_ext (j ∈ objs) (j ∈ o :: objs)); [done|].
      rewrite elem_of_cons. tauto.
  - destruct (files !! j) as [metadata|] eqn:Hj; simpl; [|done].
    assert (j ≠ o) by congruence.
    rewrite (bool_decide_ext (j ∈ objs) (j ∈ o :: objs)); [done|].
    rewrite elem_of_cons. tauto.
Qed.

Section set_metadata_step_facts.
Context {V L W : Type}.
Context (humanize str_lower : string → string).
Context (direction_code_str : string → option string → string).
Context (space_codes : list string).
Context (loadspreadsheet : string → result L).
Context (specfileobj : string → nat).
Context (object_order : gset nat → list nat).
Hypothesis object_order_perm : ∀ X, object_order X ≡ₚ elements X.
Context (database : Database V).
Context (field : field L W) (key : string) (unit : option string).
Context (filters : option kwargs).

#[local] Abbreviation header_str' := (header_str humanize str_lower field key unit).
#[local] Abbreviation display_choices' :=
  (display_choices humanize direction_code_str space_codes key).
#[local] Abbreviation SetMetadataStep_setup' :=
  (SetMetadataStep_setup humanize str_lower direction_code_str space_codes
     field key unit).
#[local] Abbreviation entered_value' := (entered_value loadspreadsheet).
#[local] Abbreviation specfileobjs' :=
  (specfileobjs specfileobj object_order database filters).
#[local] Abbreviation SetMetadataStep_next' :=
  (SetMetadataStep_next loadspreadsheet specfileobj object_order database
     field key filters).

(** X14.  For a field with choices the step shows one option for each choice.
    When the options shown are pairwise different and the user picks the
    one at some position, the value the step goes on to deserialize is the
    choice at that position, not the text shown. *)
Theorem SetMetadataStep_choice_round_trip (choices : list string) (i : nat)
    (shown choice : string) (rest : list (option string)) (n : nat) :
  validate_choices field = Some choices →
  NoDup (display_choices' choices).1 →
  (display_choices' choices).1 !! i = Some shown →
  (display_choices' choices).2 !! i = Some choice →
  ∃ self self',
    SetMetadataStep_setup' = Ok self ∧
    step_views self =
      [TextView header_str';
       SingleChoiceInputView (display_choices' choices).1 true;
       SpacerView 1] ∧
    length (display_choices' choices).1 = length (display_choices' choices).2 ∧
    SetMetadataStep_run self {| answers := Some shown :: rest; prompts := n |}
      = (true, self', {| answers := rest; prompts := S n |}) ∧
    step_result self' = Some shown ∧
    entered_value' self' shown = Ok (Entered choice).
Proof.
  clear object_order_perm.
  intros Hchoices Hnd Hshown Hchoice.
  unfold SetMetadataStep_setup. rewrite Hchoices.
  eexists _, _. split; [done|]. split; [done|]. split.
  { unfold display_choices. destruct (forallb _ _); simpl;
      by rewrite length_fmap. }
  split; [done|]. split; [done|].
  unfold entered_value. simpl.
  by rewrite (dict_zip_lookup _ _ i shown choice Hnd Hshown Hchoice).
Qed.


End set_metadata_step_facts.

(** ** CheckMetadataStep: a key that only some files have *)

Section check_metadata_escapes.
Context {V : Type} `{EqDecision V}.
Context (val_le : relation V) `{!RelDecision val_le}.
Context (format_value : V → string).
Context (humanize str_lower : string → string).
Context (direction_code_str : V → string → string).
Context (slice_timing_str array2string : V → string).
Context (key : string) (filters : option kwargs) (unit_of_key : option string).
Context (database : Database V) (spec_files : list string).

#[local] Abbreviation setup' :=
  (setup val_le format_value humanize str_lower direction_code_str
     slice_timing_str array2string key filters unit_of_key).
#[local] Abbreviation resolve_filepaths' :=
  (resolve_filepaths filters database spec_files).
#[local] Abbreviation format_vals' :=
  (format_vals direction_code_str slice_timing_str array2string key).

(** Formatting keeps a missing value missing and a value present. *)
Lemma format_vals_lookup (filepaths : list string) (f : string → option V)
    (i : nat) (filepath : string) :
  filepaths !! i = Some filepath →
  ∃ val, format_vals' filepaths (f <$> filepaths) !! i = Some val ∧
         (val = None ↔ f filepath = None).
Proof.
  intros Hi. unfold format_vals.
  destruct (_ || _); [|destruct (bool_decide _)].
  - rewrite lookup_zip_with, list_lookup_fmap, Hi. simpl.
    eexists. split; [done|]. by destruct (f filepath).
  - rewrite !list_lookup_fmap, Hi. simpl.
    eexists. split; [done|]. by destruct (f filepath).
  - rewrite !list_lookup_fmap, Hi. simpl.
    eexists. split; [done|]. by destruct (f filepath).
Qed.

(** X16.  When, after back-filling, one of the files the step looks at has a
    value for the key and another has none, [setup] does not come to show
    anything: counting the distinct values compares None with a value,
    and TypeError escapes. *)
Theorem CheckMetadataStep_partly_missing_raises (s : store V)
    (filepaths : list string) (present absent : string) :
  resolve_filepaths' = Ok filepaths →
  present ∈ filepaths → absent ∈ filepaths →
  is_Some (backfilled database s present key) →
  backfilled database s absent key = None →
  (setup' false database spec_files s).1 = Raise TypeError.
Proof.
  intros Hresolve Hpresent Habsent Hvalue Hnone.
  unfold setup. rewrite m_bind_lift, Hresolve.
  destruct (setup_reads direction_code_str slice_timing_str array2string key
              database filepaths s) as (s1 & Hfill & _ & Hobs).
  rewrite (m_bind_eq_Ok _ _ _ _ _ Hfill).
  rewrite (m_bind_eq_Ok _ _ _ _ _ (metadata_mapM key filepaths s1)).
  rewrite Hobs. unfold observed.
  set (vals := format_vals' filepaths _).
  apply list_elem_of_lookup in Hpresent as [i Hi].
  apply list_elem_of_lookup in Habsent as [j Hj].
  destruct (format_vals_lookup filepaths
              (λ filepath, backfilled database s filepath key) i present Hi)
    as (val_i & Hval_i & Hsome).
  destruct (format_vals_lookup filepaths
              (λ filepath, backfilled database s filepath key) j absent Hj)
    as (val_j & Hval_j & Hmissing).
  fold vals in Hval_i, Hval_j.
  assert (val_j = None) as -> by (by apply Hmissing).
  assert (val_i ≠ None) as Hval.
  { rewrite Hsome. by destruct Hvalue as [v ->]. }
  assert (forallb (λ val, bool_decide (val = None)) vals = false) as ->.
  { apply not_true_is_false. intros Hall%forallb_None.
    rewrite Forall_lookup in Hall. by apply Hval, (Hall i). }
  rewrite m_bind_lift. unfold np_unique.
  assert (mapM id vals = None) as ->; [|done].
  apply eq_None_not_Some. rewrite mapM_is_Some, Forall_lookup.
  intros Hall. by destruct (Hall j None Hval_j) as [? [=]].
Qed.

End check_metadata_escapes.

(** ** The Preprocessing widget over a sequence of events *)

Lemma last_omap_snoc {A B : Type} (f : A → option B) (l : list A) (x : A) :
  last (omap f (l ++ [x])) =
    match f x with
    | Some y => Some y
    | None => last (omap f l)
    end.
Proof.
  rewrite omap_app. simpl. destruct (f x) as [y|]; simpl.
  - by rewrite last_snoc.
  - by rewrite app_nil_r.
Qed.

(** X17.  Whatever the user does with the two switches and the modal, in
    whatever order, the only global setting that changes is run_reconall,
    which holds the position the recon-all switch was last put in; the
    number of initial volumes typed into the modal only reaches the text
    the widget shows, where it stays when automatic detection is switched
    on or off. *)
Theorem Preprocessing_events_settings (self : Preprocessing)
    (events : list Preprocessing_event) :
  let after := foldl Preprocessing_handle self events in
  (∀ name, name ≠ "run_reconall" →
     global_settings after !! name = global_settings self !! name) ∧
  global_settings after !! "run_reconall" =
    match last_run_reconall events with
    | Some value => Some (SettingBool value)
    | None => global_settings self !! "run_reconall"
    end ∧
  remove_volumes_value after
    = default (remove_volumes_value self) (last_confirmed events).
Proof.
  induction events as [|event events IH] using rev_ind; [done|].
  rewrite foldl_app. simpl.
  destruct IH as (Hother & Hrecon & Hshown).
  unfold last_run_reconall, last_confirmed. rewrite !last_omap_snoc.
  destruct event as [[]|value|input_value|]; simpl; try done.
  - split; [|split; [|done]].
    + intros name Hname. rewrite lookup_insert_ne by done. by apply Hother.
    + by rewrite lookup_insert_eq.
  - unfold _on_ok_button_pressed. by case_bool_decide.
Qed.

(** ** The file browser over a sequence of sessions *)

(** Ok dismisses the modal with the text its input shows: the directory
    selected or the text typed last; submitting the input changes
    nothing of it. *)
Lemma confirm_window_shown_path (path_to : string)
    (events : list FileBrowserScreen_event) :
  _confirm_window
    (foldl FileBrowserScreen_handle (FileBrowserScreen_compose path_to) events)
  = Some (shown_path events).
Proof.
  unfold _confirm_window, shown_path. f_equal.
  induction events as [|event events IH] using rev_ind; [done|].
  rewrite foldl_app, last_omap_snoc. simpl.
  by destruct event.
Qed.

Lemma browse_session_payload (self : FileBrowser)
    (session : list FileBrowserScreen_event * bool) :
  browse_session self session = update_input self (session_payload session).
Proof.
  unfold browse_session, session_payload, browse.
  destruct session as [events []]; simpl; [|done].
  by rewrite confirm_window_shown_path.
Qed.

Lemma taken_up_py_str (payload : option string) :
  taken_up payload → py_str payload ≠ "".
Proof. unfold taken_up. destruct payload as [text|]; simpl; congruence. Qed.

(** X18.  After any number of uses of the Browse button, the control stands as
    the last selection that was taken up left it: the label reads the
    caption and that path, and [selected_path] holds it.  A session
    closed with Ok on an empty input is not taken up; one closed with
    Cancel or escape is, with the text None for a path.  Each message
    posted carries the path of a selection taken up, two messages in a row
    never carry the same path, and the last one carries the current
    [selected_path]. *)
Theorem FileBrowser_sessions (caption : string)
    (sessions : list (list FileBrowserScreen_event * bool)) :
  let after := foldl browse_session (FileBrowser_compose caption) sessions in
  let payloads := filter taken_up (session_payload <$> sessions) in
  path_to after = caption ∧
  selected_path after = default "" (py_str <$> last payloads) ∧
  path_input_box after =
    match last payloads with
    | Some payload => caption +:+ ": " +:+ py_str payload
    | None => caption +:+ ":"
    end ∧
  (∀ text, Changed text ∈ posted after → text ∈ py_str <$> payloads) ∧
  (∀ i text text', posted after !! i = Some (Changed text) →
                   posted after !! S i = Some (Changed text') →
                   text ≠ text') ∧
  last (posted after) = Changed ∘ py_str <$> last payloads.
Proof.
  induction sessions as [|session sessions IH] using rev_ind.
  { split_and!; try done. by intros text ?%elem_of_nil. }
  cbn zeta in *.
  rewrite foldl_app, fmap_app, filter_app. cbn [foldl fmap list_fmap].
  rewrite browse_session_payload.
  set (self := foldl browse_session (FileBrowser_compose caption) sessions)
    in *.
  set (payloads := filter taken_up (session_payload <$> sessions)) in *.
  destruct IH as (Hcaption & Hsel & Hlabel & Hmem & Hdistinct & Hlast).
  destruct (decide (taken_up (session_payload session))) as [Htaken|Hnot].
  2:{ rewrite filter_cons_False, filter_nil, app_nil_r by done.
      assert (session_payload session = Some "") as ->.
      { unfold taken_up in Hnot.
        by destruct (decide (session_payload session = Some "")). }
      by rewrite update_input_empty. }
  rewrite filter_cons_True, filter_nil by done.
  rewrite !last_snoc. cbn [fmap option_fmap option_map default].
  set (payload := session_payload session) in *.
  pose proof (taken_up_py_str payload Htaken) as Hnonempty.
  assert (Hcurrent : posted self ≠ [] →
            last (posted self) = Some (Changed (selected_path self))).
  { intros Hposted. destruct (last payloads) as [p|] eqn:Hp.
    - by rewrite Hlast, Hsel.
    - by apply last_None in Hlast. }
  unfold update_input. rewrite (bool_decide_eq_true_2 _ Htaken).
  unfold set_selected_path. cbn [selected_path posted path_to path_input_box].
  rewrite Hcaption.
  destruct (decide (selected_path self = py_str payload)) as [Hsame|Hdiff].
  - rewrite (bool_decide_eq_false_2 (selected_path self ≠ py_str payload))
      by (by intros ?).
    cbn [selected_path posted path_to path_input_box].
    split_and!; [done|done|done| |done|].
    + intros text Hold. rewrite fmap_app. apply elem_of_app. left.
      by apply Hmem.
    + destruct (posted self) as [|m ms] eqn:Hposted.
      * rewrite Hsel in Hsame.
        destruct (last payloads) as [p|] eqn:Hp; [|by destruct Hnonempty].
        by apply last_None in Hposted.
      * by rewrite Hcurrent, Hsame.
  - rewrite (bool_decide_eq_true_2 _ Hdiff).
    cbn [selected_path posted path_to path_input_box].
    split_and!; [done|done|done| | |by rewrite last_snoc].
    + intros text [Hold|Hnew%list_elem_of_singleton]%elem_of_app;
        rewrite fmap_app; apply elem_of_app.
      * left. by apply Hmem.
      * right. injection Hnew as ->. by apply list_elem_of_singleton.
    + intros i text text' Hi HSi.
      destruct (decide (S i < length (posted self))) as [Hin|Hout].
      * rewrite !lookup_app_l in Hi, HSi by lia. by eapply Hdistinct.
      * assert (S i = length (posted self)) as Hlen.
        { apply lookup_lt_Some in HSi. rewrite length_app in HSi.
          simpl in HSi. lia. }
        rewrite lookup_app_l in Hi by lia.
        rewrite lookup_app_r in HSi by lia.
        replace (S i - length (posted self)) with 0 in HSi by lia.
        injection HSi as <-.
        assert (last (posted self) = Some (Changed text)) as Hlast'.
        { rewrite last_lookup. rewrite <- Hlen. simpl. done. }
        rewrite Hcurrent in Hlast'.
        -- injection Hlast' as <-. done.
        -- intros Hnil. rewrite Hnil in Hlen. done.
Qed.

(* ===================================================================== *)
(** * Part III: the functions at work on small inputs                     *)
(* ===================================================================== *)

Lemma elements_order (X : gset string) : elements X ≡ₚ elements X.
Proof. reflexivity. Defined.

Lemma opposed_pes_raises epi_fmaps pe_dir e :
  opposed_pes epi_fmaps pe_dir = Raise e → e = ValueError.
Proof. unfold opposed_pes. destruct (existsb _ _); congruence. Qed.

(** ** collect_fieldmaps *)

Example collect_phasediff_group_result :
  collect_phasediff_group.1 =
    Ok ["/data/sub-01_fieldmap.nii.gz"; "/data/sub-01_magnitude.nii.gz"].
Proof. vm_compute. reflexivity. Qed.

(** Witness of C5: the phasediff map without magnitude1 or magnitude2 is
    left out, the fieldmap with its magnitude image stays. *)
Lemma collect_fieldmaps_magnitude_complete_witness :
  let database := table_database phasediff_group [] in
  let l := ["/data/sub-01_fieldmap.nii.gz"; "/data/sub-01_magnitude.nii.gz"] in
  collect_phasediff_group = (Ok l, collect_phasediff_group.2) ∧
  match fieldmap_query database "/data/sub-01_bold.nii.gz" with
  | None => l = []
  | Some found =>
      let candidates : gset string := list_to_set found in
      ∃ kept s1,
        filter_phase_maps elements database candidates false empty_store
          = (Ok kept, s1) ∧
        (∀ c, c ∈ kept ↔
              c ∈ candidates ∧ ¬ lacks_magnitude database candidates c) ∧
        (∀ c, c ∈ l → c ∈ kept)
  end.
Proof.
  intros database l.
  assert (Hrun : collect_phasediff_group = (Ok l, collect_phasediff_group.2))
    by (vm_compute; reflexivity).
  split; [exact Hrun|].
  exact (collect_fieldmaps_magnitude_complete elements elements_order
           axis_code opposed_pes database "/data/sub-01_bold.nii.gz" false
           empty_store l _ Hrun).
Defined.

Example collect_pepolar_group_result :
  (collect_fieldmaps elements axis_code opposed_pes pepolar_database
     "/data/sub-01_bold.nii.gz" false empty_store).1 =
    Ok ["/data/sub-01_dir-AP_epi.nii.gz"; "/data/sub-01_dir-PA_epi.nii.gz";
        "/data/sub-01_magnitude1.nii.gz"; "/data/sub-01_phasediff.nii.gz"].
Proof. vm_compute. reflexivity. Qed.

(** Witness of C8 as amended: every candidate has a suffix, both epi maps
    have a direction that canonicalizes, and so does the BOLD run. *)
Lemma collect_fieldmaps_returns_witness :
  ∃ l s',
    collect_fieldmaps elements axis_code opposed_pes pepolar_database
      "/data/sub-01_bold.nii.gz" false empty_store = (Ok l, s') ∧
    StronglySorted String.le l ∧ NoDup l ∧
    ∀ c, c ∈ l →
      c ∈ default [] (fieldmap_query pepolar_database "/data/sub-01_bold.nii.gz").
Proof.
  apply (collect_fieldmaps_returns elements elements_order axis_code
           opposed_pes pepolar_database "/data/sub-01_bold.nii.gz" false
           empty_store).
  - each_element; by eexists.
  - each_element; intros Hepi; first [discriminate Hepi | by eexists].
  - vm_compute. intros e He. discriminate He.
  - apply opposed_pes_raises.
Defined.

(** Counterexample to C8: the assertion on the suffix of a candidate
    escapes collect_fieldmaps. *)
Lemma collect_fieldmaps_raises_counterexample :
  collect_fieldmaps elements axis_code opposed_pes
    (table_database untagged_fieldmap []) "/data/sub-01_bold.nii.gz" false
    empty_store
  = (Raise AssertionError, empty_store).
Proof. vm_compute. reflexivity. Qed.

(** ** collect_events *)

Example collect_events_other_subject :
  let files : tag_table :=
    [("/data/sub-01_bold.nii.gz",
      [("sub", "01"); ("task", "rest"); ("datatype", "func"); ("suffix", "bold")]);
     ("/data/sub-02_events.tsv",
      [("sub", "02"); ("task", "rest"); ("datatype", "func");
       ("suffix", "events"); ("extension", ".tsv")]);
     ("/data/task-rest_events.tsv",
      [("task", "rest"); ("datatype", "func"); ("suffix", "events");
       ("extension", ".tsv")]);
     ("/data/sub-01_cond.txt",
      [("sub", "01"); ("task", "rest"); ("datatype", "func");
       ("suffix", "events"); ("extension", ".txt"); ("condition", "go")])] in
  collect_events (table_database files []) "/data/sub-01_bold.nii.gz" =
    Ok (Some [ConditionPair "/data/sub-01_cond.txt" "go";
              EventsPath "/data/task-rest_events.tsv"]).
Proof. vm_compute. reflexivity. Qed.

(** A surviving ".txt" candidate without a condition tag stops
    collect_events at its assertion. *)
Example collect_events_without_condition :
  let files : tag_table :=
    [("/data/sub-01_bold.nii.gz",
      [("sub", "01"); ("task", "rest"); ("datatype", "func"); ("suffix", "bold")]);
     ("/data/sub-01_cond.txt",
      [("sub", "01"); ("task", "rest"); ("datatype", "func");
       ("suffix", "events"); ("extension", ".txt")])] in
  collect_events (table_database files []) "/data/sub-01_bold.nii.gz" =
    Raise AssertionError.
Proof. vm_compute. reflexivity. Qed.

(** ** collect_bold_files *)

(** In a group of the two runs the selection keeps the run of 200
    volumes. *)
Example select_duplicate_runs :
  select_bold_file_path elements duplicate_runs_nvol duplicate_runs_sources
  = Ok ("/data/b_bold.nii.gz", 200%Z).
Proof. vm_compute. reflexivity. Qed.


(** The same for a single run whose tags give no BIDS path. *)
Example collect_untagged_run :
  (canonical_bids_path (table_put untagged_run) table_to_bids
     "/data/x_bold.nii.gz" []).1 = Raise ValueError ∧
  (collect_bold_files elements axis_code opposed_pes (λ _, 0%Z) (λ _, [])
     (table_put untagged_run) table_to_bids
     (table_database untagged_run []) {["/data/x_bold.nii.gz"]} ∅
     empty_store).1
  = Ok {["/data/x_bold.nii.gz" := ["/data/x_bold.nii.gz"; "/data/T1w.nii.gz"]]}.
Proof. split; vm_compute; reflexivity. Qed.


(** ** CheckMetadataStep *)

(** Counterexample to C4.  With two images in the 2009c space and one in
    the 6th generation space the listing runs from the count 2 to the
    count 1, which is not ascending; with one and two, the suggestion
    handed to SetMetadataStep on the answer No is the value held by one
    image, not the one held by two. *)
Lemma listing_by_count_counterexample :
  views (step_of (check_atlases "space" spaces_2_1)) =
    [TextView "Check space values";
     TextView " 2 images - MNI ICBM 2009c Nonlinear Asymmetric ";
     TextView " 1 images - MNI ICBM 152 non-linear 6th Generation Asymmetric (FSL) ";
     TextView "Proceed with these values?";
     SingleChoiceInputView ["Yes"; "No"] false;
     SpacerView 1] ∧
  (shown_rows String.le cells_2_1).*1 = [2; 1] ∧
  views (step_of (check_atlases "space" spaces_1_2)) =
    [TextView "Check space values";
     TextView " 1 images - MNI ICBM 2009c Nonlinear Asymmetric ";
     TextView " 2 images - MNI ICBM 152 non-linear 6th Generation Asymmetric (FSL) ";
     TextView "Proceed with these values?";
     SingleChoiceInputView ["Yes"; "No"] false;
     SpacerView 1] ∧
  (next "space" atlas_filters
     (run (step_of (check_atlases "space" spaces_1_2)) (user_says "No")).1.2).1
    = SetMetadataStep atlas_filters "space"
        (Some "MNI ICBM 2009c Nonlinear Asymmetric").
Proof. vm_compute. repeat split; reflexivity. Qed.

(** When only some of the images have a value, np.unique is handed None
    next to a text and the step stops in [setup]. *)
Example check_atlases_partly_missing :
  (check_atlases "space" spaces_partial).1 = Raise TypeError.
Proof. vm_compute. reflexivity. Qed.

(** Witness of C4 as amended. *)
Lemma observed_values_listing_witness :
  ∃ self s1 width,
    check_atlases "space" spaces_2_1 = (Ok self, s1) ∧
    is_missing self = false ∧
    let rows := shown_rows String.le cells_2_1 in
    views self =
      TextView ("Check " +:+ id (id "space") +:+ " values")
      :: (TextView ∘ row_text id id "space" None width <$> rows)
      ++ (if bool_decide (10 < length (remove_dups cells_2_1))
          then [TextView "..."] else [])
      ++ [TextView "Proceed with these values?";
          SingleChoiceInputView ["Yes"; "No"] false; SpacerView 1] ∧
    length rows ≤ 10 ∧ NoDup rows.*2 ∧
    (∀ n u, (n, u) ∈ rows →
            u ∈ cells_2_1 ∧ n = length (filter (u =.) cells_2_1)) ∧
    is_Some (head rows) ∧
    suggestion self =
      (λ row, display_str id (format_cell id row.2)) <$> head rows ∧
    ∀ t rest, answers t = Some "No" :: rest →
      ∃ self' t',
        run self t = (true, self', t') ∧
        (next "space" atlas_filters self').1
          = SetMetadataStep atlas_filters "space" (suggestion self).
Proof.
  apply (observed_values_listing String.le id id id (λ v _, v) id id "space"
           atlas_filters None (table_database atlases spaces_2_1) []
           empty_store ["/ref/a.nii.gz"; "/ref/b.nii.gz"; "/ref/c.nii.gz"]
           cells_2_1).
  - vm_compute. reflexivity.
  - vm_compute. reflexivity.
  - discriminate.
Defined.

(** Counterexample to C7.  No reference image declares its space: the
    step is missing, its first run asks nothing, and it hands over to
    SetMetadataStep, not to its continuation step. *)
Lemma missing_metadata_counterexample :
  let self := step_of (check_atlases "space" []) in
  (check_atlases "space" []).1 = Ok self ∧
  is_missing self = true ∧
  run self (user_says "Yes") = (true, self, user_says "Yes") ∧
  (next "space" atlas_filters self).1
    = SetMetadataStep atlas_filters "space" None ∧
  (next "space" atlas_filters self).1 ≠ NextStep.
Proof. vm_compute. repeat split; try reflexivity. discriminate. Qed.

(** Witness of C7 as amended. *)
Lemma missing_metadata_hands_over_to_SetMetadataStep_witness :
  ∃ self,
    check_atlases "space" [] = (Ok self, empty_store) ∧
    is_missing self = true ∧ views self = [] ∧
    ∀ t,
      run self t = (true, self, t) ∧
      ∃ self',
        next "space" atlas_filters self
          = (SetMetadataStep atlas_filters "space" None, self') ∧
        run self' t = (false, self', t) ∧
        next "space" atlas_filters self' = (NoStep, self').
Proof.
  apply (missing_metadata_hands_over_to_SetMetadataStep String.le id id id
           (λ v _, v) id id "space" atlas_filters None
           (table_database atlases []) [] empty_store
           ["/ref/a.nii.gz"; "/ref/b.nii.gz"; "/ref/c.nii.gz"]).
  - vm_compute. reflexivity.
  - each_element; reflexivity.
Defined.

(** ** SwitchWithSelect *)

Example SwitchWithSelect_without_options :
  compose (B := string) id (SwitchWithSelect_init "Model" None false)
    = Raise IndexError.
Proof. reflexivity. Qed.

Example SwitchWithSelect_two_options :
  compose id
    (SwitchWithSelect_init "Model" (Some [("a", 1); ("b", 2)]) false)
    = Ok [Grid [Static "Model"; TextSwitch false;
                Select [("a", 1); ("b", 2)] 1 false "input_switch_input_box"]].
Proof. reflexivity. Qed.

(** ** Further runs on small inputs *)

Lemma elements_any_order {A : Type} `{Countable A} (X : gset A) :
  elements X ≡ₚ elements X.
Proof. reflexivity. Defined.

(** *** collect_fieldmaps *)

(** The two epi maps of the pepolar group are returned together. *)
Lemma collect_fieldmaps_epi_together_witness :
  let database := pepolar_database in
  let found :=
    ["/data/sub-01_dir-AP_epi.nii.gz"; "/data/sub-01_dir-PA_epi.nii.gz";
     "/data/sub-01_phasediff.nii.gz"; "/data/sub-01_magnitude1.nii.gz"] in
  let l :=
    ["/data/sub-01_dir-AP_epi.nii.gz"; "/data/sub-01_dir-PA_epi.nii.gz";
     "/data/sub-01_magnitude1.nii.gz"; "/data/sub-01_phasediff.nii.gz"] in
  let run :=
    collect_fieldmaps elements axis_code opposed_pes database
      "/data/sub-01_bold.nii.gz" false empty_store in
  fieldmap_query database "/data/sub-01_bold.nii.gz" = Some found ∧
  run = (Ok l, run.2) ∧
  ∀ c c', c ∈ l → tagval database c "suffix" = Some "epi" →
          c' ∈ found → tagval database c' "suffix" = Some "epi" → c' ∈ l.
Proof.
  intros database found l run.
  assert (Hquery : fieldmap_query database "/data/sub-01_bold.nii.gz"
                   = Some found) by (vm_compute; reflexivity).
  assert (Hrun : run = (Ok l, run.2)) by (vm_compute; reflexivity).
  split; [exact Hquery|]. split; [exact Hrun|].
  exact (proj1 (proj2
           (collect_fieldmaps_epi_together elements elements_order axis_code
              opposed_pes database "/data/sub-01_bold.nii.gz" false
              empty_store found l _ Hquery Hrun))).
Defined.

(** The phasediff map that lacks its magnitude image is dropped, and
    logged. *)
Lemma collect_fieldmaps_logs_what_it_drops_witness :
  let database := table_database phasediff_group [] in
  let found :=
    ["/data/sub-01_phasediff.nii.gz"; "/data/sub-01_fieldmap.nii.gz";
     "/data/sub-01_magnitude.nii.gz"] in
  let l := ["/data/sub-01_fieldmap.nii.gz"; "/data/sub-01_magnitude.nii.gz"] in
  fieldmap_query database "/data/sub-01_bold.nii.gz" = Some found ∧
  collect_phasediff_group = (Ok l, collect_phasediff_group.2) ∧
  log collect_phasediff_group.2
    = [InfoMissingMagnitude ["/data/sub-01_phasediff.nii.gz"]] ∧
  ∃ missing unmatched : gset string,
    (∀ c, c ∈ missing ↔
          c ∈ found ∧ lacks_magnitude database (list_to_set found) c) ∧
    (∀ c, c ∈ unmatched →
          c ∈ found ∧ tagval database c "suffix" = Some "epi") ∧
    (∀ c, c ∈ l ↔ c ∈ found ∧ (c ∉ missing) ∧ (c ∉ unmatched)) ∧
    log collect_phasediff_group.2 = log empty_store
      ++ (if decide (missing = ∅) then []
          else [InfoMissingMagnitude (sorted missing)])
      ++ (if decide (unmatched = ∅) then []
          else [InfoUnmatchedPhaseEncoding (sorted unmatched)]).
Proof.
  intros database found l.
  assert (Hquery : fieldmap_query database "/data/sub-01_bold.nii.gz"
                   = Some found) by (vm_compute; reflexivity).
  assert (Hrun : collect_phasediff_group = (Ok l, collect_phasediff_group.2))
    by (vm_compute; reflexivity).
  split; [exact Hquery|]. split; [exact Hrun|].
  split; [vm_compute; reflexivity|].
  exact (collect_fieldmaps_logs_what_it_drops elements elements_order
           axis_code opposed_pes database "/data/sub-01_bold.nii.gz"
           empty_store found l _ Hquery Hrun).
Defined.

(** The candidate without a suffix tag stops the silent call as well. *)
Lemma collect_fieldmaps_untagged_candidate_witness :
  collect_fieldmaps elements axis_code opposed_pes
    (table_database untagged_fieldmap []) "/data/sub-01_bold.nii.gz" true
    empty_store
  = (Raise AssertionError, empty_store).
Proof.
  apply (collect_fieldmaps_untagged_candidate elements elements_order
           axis_code opposed_pes (table_database untagged_fieldmap [])
           "/data/sub-01_bold.nii.gz" true empty_store
           ["/data/sub-01_scan.nii.gz"] "/data/sub-01_scan.nii.gz").
  - vm_compute. reflexivity.
  - apply list_elem_of_here.
  - vm_compute. reflexivity.
Defined.

(** *** collect_bold_files *)


(** The assertion on the suffix of a field map candidate escapes
    collect_bold_files from its first stage. *)
Lemma collect_bold_files_escapes_witness :
  let database := table_database untagged_fieldmap_run [] in
  let sources : gset string := {["/data/sub-01_bold.nii.gz"]} in
  let run :=
    collect_bold_files elements axis_code opposed_pes (λ _, 0%Z) (λ _, [])
      (table_put untagged_fieldmap_run) table_to_bids database
      sources ∅ empty_store in
  run = (Raise AssertionError, empty_store) ∧
  (associated_files elements axis_code opposed_pes database (sources ∪ ∅)
     empty_store = (Raise AssertionError, empty_store) ∨
   ∃ d0,
     associated_files elements axis_code opposed_pes database (sources ∪ ∅)
       empty_store = (Ok d0, empty_store) ∧
     group_by_bids_path elements (λ _, [])
       (table_put untagged_fieldmap_run) table_to_bids database
       ((sources ∪ ∅) ∩ dom d0) = Raise AssertionError).
Proof.
  intros database sources run.
  assert (Hrun : run = (Raise AssertionError, empty_store))
    by (vm_compute; reflexivity).
  split; [exact Hrun|].
  exact (collect_bold_files_escapes elements elements_order axis_code
           opposed_pes (λ _, 0%Z) (λ _, [])
           (table_put untagged_fieldmap_run) table_to_bids database
           sources ∅ empty_store _ _ Hrun).
Defined.

(** The warning written for the two duplicate runs: the cache is left
    alone. *)
Lemma collect_bold_files_warnings_witness :
  let run :=
    m_fold (duplicates_body elements duplicate_runs_nvol) duplicate_runs_all
      duplicate_runs_group empty_store in
  run = (Ok duplicate_runs_kept, run.2) ∧
  filled run.2 = filled empty_store.
Proof.
  intros run.
  assert (Hrun : run = (Ok duplicate_runs_kept, run.2))
    by (vm_compute; reflexivity).
  split; [exact Hrun|].
  exact (proj1
           (collect_bold_files_warnings elements elements_order
              duplicate_runs_nvol (λ _, []) (table_put duplicate_runs)
              table_to_bids (table_database duplicate_runs [])
              duplicate_runs_group duplicate_runs_all empty_store _ _ Hrun)).
Defined.

Example duplicate_runs_warning :
  log (m_fold (duplicates_body elements duplicate_runs_nvol)
         duplicate_runs_all duplicate_runs_group empty_store).2 =
    [WarningDuplicates
       [FoundIdentical 1 "/data/b_bold.nii.gz";
        ExcludingFile "/data/a_bold.nii.gz";
        DecisionCriterion LastAlphabetically]].
Proof. vm_compute. reflexivity. Qed.

(** *** collect_events and get_conditions *)

(** The event files of a run, with the associations listed backwards. *)
Lemma collect_events_order_irrelevant_witness :
  let database := table_database event_files [] in
  collect_events
    {| tagval := tagval database;
       associations := λ path filters,
         reverse <$> associations database path filters;
       get := get database;
       fromspecfileobj := fromspecfileobj database;
       sidecar := sidecar database |} "/data/sub-01_run-1_bold.nii.gz"
  = collect_events database "/data/sub-01_run-1_bold.nii.gz".
Proof.
  intros database.
  apply (collect_events_order_irrelevant database reverse).
  intros l c. apply elem_of_reverse.
Defined.

(** The two runs share their event files, which name one condition. *)
Lemma get_conditions_complete_witness :
  let bold_file_paths : gset string :=
    list_to_set ["/data/sub-01_run-1_bold.nii.gz";
                 "/data/sub-01_run-2_bold.nii.gz"] in
  event_files_conditions = Ok ["go"] ∧
  ∀ c, c ∈ ["go"] ↔
       ∃ p ev, p ∈ bold_file_paths ∧
               collect_events (table_database event_files []) p = Ok (Some ev) ∧
               c ∈ named_conditions ev.
Proof.
  intros bold_file_paths.
  assert (Hrun : event_files_conditions = Ok ["go"])
    by (vm_compute; reflexivity).
  split; [exact Hrun|].
  pose proof (get_conditions_complete (F := ()) elements elements_order
                (λ _, Some ["/data/sub-01_run-1_bold.nii.gz";
                            "/data/sub-01_run-2_bold.nii.gz"])
                (λ bold_file_paths _, bold_file_paths)
                (collect_events (table_database event_files []))
                named_conditions None) as Hspec.
  change (get_conditions _ _ _ _ _ None) with event_files_conditions in Hspec.
  rewrite Hrun in Hspec. exact (proj2 Hspec).
Defined.

(** *** The confounds of a TaskBased widget *)

Lemma confounds_selection_round_trip_witness :
  let selected := ["ICA-AROMA"; "csf"] in
  ∃ saved confounds_options,
    feed_feature_dict_confounds selected
      {| ica_aroma := None; confounds_removal := None |} = Ok saved ∧
    ica_aroma saved = Some (bool_decide ("ICA-AROMA" ∈ selected)) ∧
    TaskBased_confounds_options saved = Ok confounds_options ∧
    confounds_selection confounds_options =
      (λ entry, (entry.2.1, entry.1,
                 bool_decide (entry.1 ∈ selected ∧ entry.1 ≠ "ICA-AROMA")))
        <$> confounds_options_default.
Proof.
  intros selected.
  apply (confounds_selection_round_trip selected).
  - compute_done.
  - intros c Hc.
    repeat (apply elem_of_cons in Hc as [ ->|Hc]);
      [compute_done..|by apply elem_of_nil in Hc].
Defined.

Example confounds_saved_and_reloaded :
  ∃ saved confounds_options,
    feed_feature_dict_confounds ["ICA-AROMA"; "csf"]
      {| ica_aroma := None; confounds_removal := None |} = Ok saved ∧
    saved = {| ica_aroma := Some true; confounds_removal := Some ["csf"] |} ∧
    TaskBased_confounds_options saved = Ok confounds_options ∧
    filter (λ entry, entry.2 = true) (confounds_selection confounds_options)
      = [("CSF signal", "csf", true)].
Proof. eexists _, _. split_and!; vm_compute; reflexivity. Qed.

(** *** SetMetadataStep *)

(** Picking the first option shown for the template space. *)
Lemma SetMetadataStep_choice_round_trip_witness :
  let choices := ["MNI152NLin6Asym"; "MNI152NLin2009cAsym"] in
  let shown := "MNI ICBM 152 non-linear 6th Generation Asymmetric (FSL)" in
  let options :=
    (display_choices id (λ choice _, choice) ["RAS"; "LAS"] "space" choices).1 in
  ∃ self self',
    SetMetadataStep_setup id id (λ choice _, choice) ["RAS"; "LAS"]
      space_field "space" None = Ok self ∧
    step_views self =
      [TextView (header_str id id space_field "space" None);
       SingleChoiceInputView options true; SpacerView 1] ∧
    length options
      = length (display_choices id (λ choice _, choice) ["RAS"; "LAS"]
                  "space" choices).2 ∧
    SetMetadataStep_run self {| answers := [Some shown]; prompts := 0 |}
      = (true, self', {| answers := []; prompts := 1 |}) ∧
    step_result self' = Some shown ∧
    entered_value (L := ()) (λ _, Raise ValueError) self' shown
      = Ok (Entered "MNI152NLin6Asym").
Proof.
  intros choices shown options.
  apply (SetMetadataStep_choice_round_trip id id (λ choice _, choice)
           ["RAS"; "LAS"] (λ _, Raise ValueError) space_field "space" None
           choices 0 shown "MNI152NLin6Asym" [] 0).
  - reflexivity.
  - compute_done.
  - vm_compute. reflexivity.
  - vm_compute. reflexivity.
Defined.


(** *** CheckMetadataStep *)

(** Only one of the three reference images declares its space. *)
Lemma CheckMetadataStep_partly_missing_raises_witness :
  (check_atlases "space" spaces_partial).1 = Raise TypeError.
Proof.
  apply (CheckMetadataStep_partly_missing_raises String.le id id id
           (λ v _, v) id id "space" atlas_filters None
           (table_database atlases spaces_partial) [] empty_store
           ["/ref/a.nii.gz"; "/ref/b.nii.gz"; "/ref/c.nii.gz"]
           "/ref/a.nii.gz" "/ref/b.nii.gz").
  - vm_compute. reflexivity.
  - apply list_elem_of_here.
  - apply list_elem_of_further, list_elem_of_here.
  - vm_compute. by eexists.
  - vm_compute. reflexivity.
Defined.
